(** * Client-side session layer of carta-frontend

    A shallow embedding of the authentication code of the admin panel:

    - [decodeToken] / [parseJwt]  (auth context, [src/lib/api-client.ts])
    - [apiRequest]                (the request gateway, [src/lib/api-client.ts])
    - [checkAuth], [refreshAuth], [logout]  (the [AuthProvider] component)
    - [login], the expiry check and the listeners of the provider, the
      callback page, [AdminProtectedRoute]
    - the list functions of [apiClient] and their queries

    JavaScript values are modelled by the inductive type [value]; asynchronous
    functions are terms of a small free monad [Task] whose suspension points
    are the [await]s of the source.  Browser state ([localStorage], the
    location, the React state of the provider) lives in a record [World]
    together with a trace of the observable effects.

    What the model covers and what it leaves out:

    - the backend is a script of answers, one per [fetch]: a rejection or
      a [Response] with a status and a body that parses to a value or
      fails to parse;
    - a call runs from one [await] to the next without interruption;
      overlapping calls are interleaved at their [await]s by [start] and
      [deliver];
    - [window.dispatchEvent] is recorded in the trace, its listeners are
      not run; [console] output is left out;
    - [localStorage] never throws (no quota, no security error);
    - numbers are exact decimals, where the code has doubles; the two
      agree on whole numbers of seconds and milliseconds, and the
      statements that compute with the [exp] of a token or test its
      [is_admin] take an [exp] in whole seconds and a boolean [is_admin]
      ([whole_exp], [boolean_admin]); the conversions between numbers and
      strings are parameters of the gateway, with reference definitions
      [NumberToString_std] and [StringToNumber_std];
    - [ToString] of an object or an array goes through the [toString] and
      [join] of the prototypes; an object with a [toString] member of its
      own, for which the conversion throws, is excluded by [printable]
      where a statement converts a value read from a body;
    - text outside ASCII is carried as its UTF-8 bytes;
    - a query is written by [URLSearchParams] and read by the
      [application/x-www-form-urlencoded] parser of the URL standard,
      which stands for the receiving side. *)

From Stdlib Require Import ZArith Ascii String List Bool Lia.
From stdpp Require Import base option list strings pretty gmap.

Set Warnings "-register-all".

Open Scope string_scope.
Open Scope list_scope.
Open Scope Z_scope.

(* ===================================================================== *)
(** ** JavaScript values *)
(* ===================================================================== *)

(** A finite JavaScript number, kept as an exact decimal [dmant * 10^dexp].
    Every finite IEEE double is such a decimal; the rounding that double
    arithmetic performs is not modelled, and [-0] is identified with [0]. *)
Record decimal := Dec { dmant : Z; dexp : Z }.

(** The result of a numeric conversion or operation. *)
Inductive number :=
| Fin (d : decimal)
| Inf (negative : bool)
| NaN.

Inductive value :=
| VUndefined
| VNull
| VBool (b : bool)
| VNum (d : decimal)
| VStr (s : string)
| VArr (items : list value)
| VObj (fields : list (string * value)).

(** Errors raised by the engine or the platform ([TypeError], [SyntaxError],
    [URIError], a [DOMException], ...): instances of [Error] other than the
    repository's [ApiError]. *)
Record jserror := JsErr { err_name : string; err_message : string }.

(** What [response.json()] settles to. *)
Inductive body :=
| BodyJson (v : value)
| BodyFails (e : jserror).

(** The part of a fetch [Response] the code looks at. *)
Record Response := mkResponse {
  status : Z;
  statusText : string;
  json : body
}.

(** Thrown values. [ApiError] is the class of [src/lib/api-client.ts]:
    [new ApiError(message, status, response?)]. *)
Inductive exn :=
| ApiError (message : string) (api_status : Z) (response : option Response)
| JsError (e : jserror)
| NonError (v : value).

(** [response.ok] *)
Definition ok (r : Response) : bool := (200 <=? status r) && (status r <=? 299).

(* --------------------------------------------------------------------- *)
(** *** Decimal arithmetic *)

Definition dec_of_Z (z : Z) : decimal := Dec z 0.

(** Both operands brought to the smaller exponent. *)
Definition dec_align (a b : decimal) : Z * Z :=
  let e := Z.min (dexp a) (dexp b) in
  (dmant a * 10 ^ (dexp a - e), dmant b * 10 ^ (dexp b - e)).

Definition dec_mul (a b : decimal) : decimal :=
  Dec (dmant a * dmant b) (dexp a + dexp b).

Definition dec_ltb (a b : decimal) : bool :=
  let '(x, y) := dec_align a b in x <? y.

Definition dec_is_zero (a : decimal) : bool := dmant a =? 0.

Definition dec_is_neg (a : decimal) : bool := dmant a <? 0.

(** [a * b] *)
Definition num_mul (a b : number) : number :=
  match a, b with
  | Fin x, Fin y => Fin (dec_mul x y)
  | Inf s, Fin y | Fin y, Inf s =>
      if dec_is_zero y then NaN else Inf (xorb s (dec_is_neg y))
  | Inf s, Inf s' => Inf (xorb s s')
  | _, _ => NaN
  end.

(** [a > b]; a comparison with [NaN] is false. *)
Definition num_gtb (a b : number) : bool :=
  match a, b with
  | Fin x, Fin y => dec_ltb y x
  | Inf false, Fin _ | Inf false, Inf true | Fin _, Inf true => true
  | _, _ => false
  end.

(* --------------------------------------------------------------------- *)
(** *** Truthiness, [||], property access *)

(** ToBoolean *)
Definition truthy (v : value) : bool :=
  match v with
  | VUndefined | VNull => false
  | VBool b => b
  | VNum d => negb (dec_is_zero d)
  | VStr s => negb (String.eqb s "")
  | VArr _ | VObj _ => true
  end.

(** [a || b] *)
Definition js_or (a b : value) : value := if truthy a then a else b.

(** Own property of an object literal; a later duplicate key wins, as in
    [JSON.parse]. *)
Fixpoint lookup_field (k : string) (fields : list (string * value)) : option value :=
  match fields with
  | [] => None
  | (k', v) :: rest =>
      match lookup_field k rest with
      | Some v' => Some v'
      | None => if String.eqb k k' then Some v else None
      end
  end.

(** [v.k] for a key [k] that no prototype defines (all the keys the code
    reads: [detail], [data], [access_token], [refresh_token], [exp],
    [is_admin]).  Reading a property of [null] or [undefined] throws. *)
Definition get_prop (v : value) (k : string) : exn + value :=
  match v with
  | VUndefined =>
      inl (JsError (JsErr "TypeError"
        ("Cannot read properties of undefined (reading '" +:+ k +:+ "')")))
  | VNull =>
      inl (JsError (JsErr "TypeError"
        ("Cannot read properties of null (reading '" +:+ k +:+ "')")))
  | VObj fields => inr (default VUndefined (lookup_field k fields))
  | _ => inr VUndefined
  end.

(* ===================================================================== *)
(** ** Platform string functions used by the token codec *)
(* ===================================================================== *)

(** Strings are Rocq strings; text outside ASCII is carried as its UTF-8
    bytes.  A "binary string" (the result of [atob]) has one character per
    byte. *)

(** [s.split(sep)] for a one-character separator. *)
Fixpoint split_on (sep : ascii) (s : string) : list string :=
  match s with
  | EmptyString => [EmptyString]
  | String c rest =>
      if Ascii.eqb c sep then EmptyString :: split_on sep rest
      else match split_on sep rest with
           | h :: t => String c h :: t
           | [] => [String c EmptyString]
           end
  end.

(** [s.replace(/a/g, b)] for single characters. *)
Fixpoint replace_all (a b : ascii) (s : string) : string :=
  match s with
  | EmptyString => EmptyString
  | String c rest => String (if Ascii.eqb c a then b else c) (replace_all a b rest)
  end.

Definition code (c : ascii) : Z := Z.of_N (N_of_ascii c).
Definition chr (z : Z) : ascii := ascii_of_N (Z.to_N z).

Definition in_range (lo hi : string) (c : ascii) : bool :=
  match lo, hi with
  | String l _, String h _ => (code l <=? code c) && (code c <=? code h)
  | _, _ => false
  end.

(* --------------------------------------------------------------------- *)
(** *** [atob]: forgiving-base64 decode (WHATWG Infra) *)

Definition is_ascii_whitespace (c : ascii) : bool :=
  let n := code c in
  (n =? 9) || (n =? 10) || (n =? 12) || (n =? 13) || (n =? 32).

Definition b64_index (c : ascii) : option Z :=
  let n := code c in
  if in_range "A" "Z" c then Some (n - 65)
  else if in_range "a" "z" c then Some (n - 97 + 26)
  else if in_range "0" "9" c then Some (n - 48 + 52)
  else if n =? 43 then Some 62
  else if n =? 47 then Some 63
  else None.

Fixpoint b64_indices (l : list ascii) : option (list Z) :=
  match l with
  | [] => Some []
  | c :: rest =>
      match b64_index c, b64_indices rest with
      | Some i, Some ixs => Some (i :: ixs)
      | _, _ => None
      end
  end.

(** Six bits per character; 24 bits give three bytes; a tail of 12 or 18
    bits gives one or two bytes, the spare bits being dropped. *)
Fixpoint b64_bytes (l : list Z) : list ascii :=
  match l with
  | a :: b :: c :: d :: rest =>
      let n := ((a * 64 + b) * 64 + c) * 64 + d in
      chr (n / 65536) :: chr ((n / 256) mod 256) :: chr (n mod 256) :: b64_bytes rest
  | [a; b; c] =>
      let n := (a * 64 + b) * 64 + c in
      [chr (n / 1024); chr ((n / 4) mod 256)]
  | [a; b] => [chr ((a * 64 + b) / 16)]
  | _ => []
  end.

(** With a length that is a multiple of four, one or two [=] at the end
    are dropped. *)
Definition strip_padding (l : list ascii) : list ascii :=
  if (Nat.modulo (length l) 4 =? 0)%nat then
    match rev l with
    | a :: r =>
        if Ascii.eqb a "=" then
          match r with
          | b :: r' => if Ascii.eqb b "=" then rev r' else rev r
          | [] => rev r
          end
        else l
    | [] => l
    end
  else l.

(** [None]: [atob] throws [InvalidCharacterError]. *)
Definition atob (s : string) : option string :=
  let l := strip_padding
             (List.filter (fun c => negb (is_ascii_whitespace c)) (list_ascii_of_string s)) in
  if (Nat.modulo (length l) 4 =? 1)%nat then None
  else
    match b64_indices l with
    | Some ixs => Some (string_of_list_ascii (b64_bytes ixs))
    | None => None
    end.

(* --------------------------------------------------------------------- *)
(** *** The percent-encoding step of the source and [decodeURIComponent] *)

Definition hex_digit (d : Z) : ascii :=
  if d <? 10 then chr (48 + d) else chr (87 + d).

(** [n.toString(16)] for a character code of a binary string. *)
Definition toString16 (n : Z) : string :=
  if n <? 16 then String (hex_digit n) EmptyString
  else String (hex_digit (n / 16)) (String (hex_digit (n mod 16)) EmptyString).

(** [s.slice(-2)] *)
Definition slice_last2 (s : string) : string :=
  match rev (list_ascii_of_string s) with
  | b :: a :: _ => String a (String b EmptyString)
  | _ => s
  end.

(** [bin.split("").map((c) => "%" + ("00" + c.charCodeAt(0).toString(16)).slice(-2)).join("")] *)
Fixpoint percent_encode (bin : string) : string :=
  match bin with
  | EmptyString => EmptyString
  | String c rest => "%" +:+ slice_last2 ("00" +:+ toString16 (code c)) +:+ percent_encode rest
  end.

Definition hex_val (c : ascii) : option Z :=
  let n := code c in
  if in_range "0" "9" c then Some (n - 48)
  else if in_range "a" "f" c then Some (n - 87)
  else if in_range "A" "F" c then Some (n - 55)
  else None.

(** One escape [%XX] at the head of the input. *)
Definition read_escape (l : list ascii) : option (Z * list ascii) :=
  match l with
  | "%"%char :: a :: b :: rest =>
      match hex_val a, hex_val b with
      | Some x, Some y => Some (16 * x + y, rest)
      | _, _ => None
      end
  | _ => None
  end.

(** [n] escaped continuation octets [10xxxxxx]. *)
Fixpoint read_continuations (n : nat) (l : list ascii) : option (list Z * list ascii) :=
  match n with
  | O => Some ([], l)
  | S n' =>
      match read_escape l with
      | Some (b, rest) =>
          if (128 <=? b) && (b <=? 191) then
            match read_continuations n' rest with
            | Some (bs, rest') => Some (b :: bs, rest')
            | None => None
            end
          else None
      | None => None
      end
  end.

(** Number of octets announced by a lead octet; [0] when it cannot start a
    sequence. *)
Definition utf8_length (lead : Z) : nat :=
  if (192 <=? lead) && (lead <=? 223) then 2
  else if (224 <=? lead) && (lead <=? 239) then 3
  else if (240 <=? lead) && (lead <=? 247) then 4
  else 0.

(** The octets are the UTF-8 encoding of one code point: shortest form, no
    surrogate, at most U+10FFFF. *)
Definition utf8_valid (lead : Z) (conts : list Z) : bool :=
  match conts with
  | [c1] =>
      let cp := (lead - 192) * 64 + (c1 - 128) in
      128 <=? cp
  | [c1; c2] =>
      let cp := ((lead - 224) * 64 + (c1 - 128)) * 64 + (c2 - 128) in
      (2048 <=? cp) && negb ((55296 <=? cp) && (cp <=? 57343))
  | [c1; c2; c3] =>
      let cp := (((lead - 240) * 64 + (c1 - 128)) * 64 + (c2 - 128)) * 64 + (c3 - 128) in
      (65536 <=? cp) && (cp <=? 1114111)
  | _ => false
  end.

Fixpoint decode_uri (fuel : nat) (l : list ascii) : option (list ascii) :=
  match fuel with
  | O => None
  | S fuel' =>
      match l with
      | [] => Some []
      | c :: rest =>
          if Ascii.eqb c "%" then
            match read_escape l with
            | None => None
            | Some (b, rest1) =>
                if b <? 128 then cons (chr b) <$> decode_uri fuel' rest1
                else
                  match utf8_length b with
                  | S n =>
                      match read_continuations n rest1 with
                      | Some (bs, rest2) =>
                          if utf8_valid b bs
                          then app (map chr (b :: bs)) <$> decode_uri fuel' rest2
                          else None
                      | None => None
                      end
                  | O => None
                  end
            end
          else cons c <$> decode_uri fuel' rest
      end
  end.

(** [None]: [decodeURIComponent] throws [URIError].  The decoded text is
    returned as its UTF-8 bytes. *)
Definition decodeURIComponent (s : string) : option string :=
  string_of_list_ascii <$> decode_uri (S (String.length s)) (list_ascii_of_string s).

(* --------------------------------------------------------------------- *)
(** *** [JSON.parse] *)

Definition is_json_ws (c : ascii) : bool :=
  let n := code c in (n =? 32) || (n =? 9) || (n =? 10) || (n =? 13).

Fixpoint skip_ws (l : list ascii) : list ascii :=
  match l with
  | c :: rest => if is_json_ws c then skip_ws rest else l
  | [] => []
  end.

Definition is_digit (c : ascii) : bool := in_range "0" "9" c.

(** The longest prefix of digits, as a number with its digit count. *)
Fixpoint take_digits (l : list ascii) (acc : Z) (count : Z) : Z * Z * list ascii :=
  match l with
  | c :: rest =>
      if is_digit c then take_digits rest (acc * 10 + (code c - 48)) (count + 1)
      else (acc, count, l)
  | [] => (acc, count, [])
  end.

(** Trailing zeros of the mantissa traded against a negative exponent, so
    that an integer is [Dec z 0]. *)
Fixpoint dec_norm (fuel : nat) (m e : Z) : decimal :=
  match fuel with
  | O => Dec m e
  | S fuel' =>
      if (e <? 0) && (m mod 10 =? 0) then dec_norm fuel' (m / 10) (e + 1)
      else Dec m e
  end.

Definition dec_make (m e : Z) : decimal :=
  if m =? 0 then Dec 0 0
  else if 0 <=? e then Dec (m * 10 ^ e) 0
  else dec_norm (Z.to_nat (- e)) m e.

(** [-? int frac? exp?].  The numeral is kept as the exact decimal it
    denotes, where [JSON.parse] rounds it to the nearest double; the two
    behave alike in the comparisons of the code when the numeral is a
    whole number, and the statements that read a number from a token
    take it so. *)
Definition parse_number (l : list ascii) : option (decimal * list ascii) :=
  let '(neg, l1) := match l with
                    | "-"%char :: r => (true, r)
                    | _ => (false, l)
                    end in
  let '(ip, icount, l2) := take_digits l1 0 0 in
  if (icount =? 0) || ((1 <? icount) && match l1 with "0"%char :: _ => true | _ => false end)
  then None
  else
    let frac := match l2 with
                | "."%char :: r =>
                    let '(fp, fcount, r') := take_digits r 0 0 in
                    if fcount =? 0 then None else Some (fp, fcount, r')
                | _ => Some (0, 0, l2)
                end in
    match frac with
    | None => None
    | Some (fp, fcount, l3) =>
        let expo := match l3 with
                    | c :: r =>
                        if Ascii.eqb c "e" || Ascii.eqb c "E" then
                          let '(eneg, r1) := match r with
                                             | "-"%char :: r' => (true, r')
                                             | "+"%char :: r' => (false, r')
                                             | _ => (false, r)
                                             end in
                          let '(ev, ecount, r2) := take_digits r1 0 0 in
                          if ecount =? 0 then None
                          else Some (if eneg then - ev else ev, r2)
                        else Some (0, l3)
                    | [] => Some (0, l3)
                    end in
        match expo with
        | None => None
        | Some (ev, l4) =>
            let m := ip * 10 ^ fcount + fp in
            Some (dec_make (if neg then - m else m) (ev - fcount), l4)
        end
    end.

(** The double quote, U+0022. *)
Definition dquote : ascii := chr 34.
Definition is_dquote (c : ascii) : bool := code c =? 34.

(** A character of a string literal: a raw byte of the text or the code
    unit of a [\uXXXX] escape. *)
Inductive str_item :=
| RawByte (c : ascii)
| CodeUnit (u : Z).

(** The characters of a string literal after its opening quote, up to the
    closing quote. *)
Fixpoint parse_chars (l : list ascii) : option (list str_item * list ascii) :=
  match l with
  | [] => None
  | "\"%char :: "u"%char :: a :: b :: c :: d :: rest =>
      match hex_val a, hex_val b, hex_val c, hex_val d, parse_chars rest with
      | Some x, Some y, Some z, Some w, Some (items, rest') =>
          Some (CodeUnit (((x * 16 + y) * 16 + z) * 16 + w) :: items, rest')
      | _, _, _, _, _ => None
      end
  | "\"%char :: e :: rest =>
      let simple :=
        if is_dquote e then Some 34 else
        if Ascii.eqb e "\" then Some 92 else
        if Ascii.eqb e "/" then Some 47 else
        if Ascii.eqb e "b" then Some 8 else
        if Ascii.eqb e "f" then Some 12 else
        if Ascii.eqb e "n" then Some 10 else
        if Ascii.eqb e "r" then Some 13 else
        if Ascii.eqb e "t" then Some 9 else None in
      match simple, parse_chars rest with
      | Some n, Some (items, rest') => Some (RawByte (chr n) :: items, rest')
      | _, _ => None
      end
  | c :: rest =>
      if is_dquote c then Some ([], rest)
      else if code c <? 32 then None
      else match parse_chars rest with
           | Some (items, rest') => Some (RawByte c :: items, rest')
           | None => None
           end
  end.

(** UTF-8 bytes of a code point (a lone surrogate is written with the
    three-byte pattern). *)
Definition utf8_encode (cp : Z) : list ascii :=
  if cp <? 128 then [chr cp]
  else if cp <? 2048 then [chr (192 + cp / 64); chr (128 + cp mod 64)]
  else if cp <? 65536 then
    [chr (224 + cp / 4096); chr (128 + (cp / 64) mod 64); chr (128 + cp mod 64)]
  else
    [chr (240 + cp / 262144); chr (128 + (cp / 4096) mod 64);
     chr (128 + (cp / 64) mod 64); chr (128 + cp mod 64)].

Definition is_high_surrogate (u : Z) : bool := (55296 <=? u) && (u <=? 56319).
Definition is_low_surrogate (u : Z) : bool := (56320 <=? u) && (u <=? 57343).

Fixpoint encode_items (items : list str_item) : list ascii :=
  match items with
  | [] => []
  | RawByte c :: rest => c :: encode_items rest
  | CodeUnit hi :: rest =>
      match rest with
      | CodeUnit lo :: rest' =>
          if is_high_surrogate hi && is_low_surrogate lo
          then utf8_encode (65536 + (hi - 55296) * 1024 + (lo - 56320)) ++ encode_items rest'
          else utf8_encode hi ++ encode_items rest
      | _ => utf8_encode hi ++ encode_items rest
      end
  end.

Definition parse_string (l : list ascii) : option (string * list ascii) :=
  match parse_chars l with
  | Some (items, rest) => Some (string_of_list_ascii (encode_items items), rest)
  | None => None
  end.

Fixpoint parse_value (fuel : nat) (l : list ascii) : option (value * list ascii) :=
  match fuel with
  | O => None
  | S fuel' =>
      match skip_ws l with
      | "n"%char :: "u"%char :: "l"%char :: "l"%char :: rest => Some (VNull, rest)
      | "t"%char :: "r"%char :: "u"%char :: "e"%char :: rest => Some (VBool true, rest)
      | "f"%char :: "a"%char :: "l"%char :: "s"%char :: "e"%char :: rest => Some (VBool false, rest)
      | "["%char :: rest =>
          match skip_ws rest with
          | "]"%char :: rest' => Some (VArr [], rest')
          | _ => parse_elements fuel' rest []
          end
      | "{"%char :: rest =>
          match skip_ws rest with
          | "}"%char :: rest' => Some (VObj [], rest')
          | _ => parse_members fuel' rest []
          end
      | c :: rest =>
          if is_dquote c then
            match parse_string rest with
            | Some (s, rest') => Some (VStr s, rest')
            | None => None
            end
          else
            match parse_number (c :: rest) with
            | Some (d, rest') => Some (VNum d, rest')
            | None => None
            end
      | [] => None
      end
  end
with parse_elements (fuel : nat) (l : list ascii) (acc : list value) : option (value * list ascii) :=
  match fuel with
  | O => None
  | S fuel' =>
      match parse_value fuel' l with
      | Some (v, rest) =>
          match skip_ws rest with
          | ","%char :: rest' => parse_elements fuel' rest' (v :: acc)
          | "]"%char :: rest' => Some (VArr (rev (v :: acc)), rest')
          | _ => None
          end
      | None => None
      end
  end
with parse_members (fuel : nat) (l : list ascii) (acc : list (string * value)) : option (value * list ascii) :=
  match fuel with
  | O => None
  | S fuel' =>
      match skip_ws l with
      | c :: rest =>
          if is_dquote c then
            match parse_string rest with
            | Some (k, rest1) =>
                match skip_ws rest1 with
                | ":"%char :: rest2 =>
                    match parse_value fuel' rest2 with
                    | Some (v, rest3) =>
                        match skip_ws rest3 with
                        | ","%char :: rest4 => parse_members fuel' rest4 ((k, v) :: acc)
                        | "}"%char :: rest4 => Some (VObj (rev ((k, v) :: acc)), rest4)
                        | _ => None
                        end
                    | None => None
                    end
                | _ => None
                end
            | None => None
            end
          else None
      | [] => None
      end
  end.

(** [None]: [JSON.parse] throws [SyntaxError]. *)
Definition JSON_parse (s : string) : option value :=
  let l := list_ascii_of_string s in
  match parse_value (2 * length l + 2) l with
  | Some (v, rest) => match skip_ws rest with [] => Some v | _ => None end
  | None => None
  end.

(* ===================================================================== *)
(** ** The token codec *)
(* ===================================================================== *)

(** From the middle segment to the parsed payload: the base64url alphabet
    mapped to base64, [atob], each byte percent-encoded and the result given
    to [decodeURIComponent], then [JSON.parse].  [None] when [atob] rejects
    its input, [decodeURIComponent] meets a malformed byte sequence, or
    [JSON.parse] rejects the text. *)
Definition decode_segment (base64Url : string) : option value :=
  let base64 := replace_all "_" "/" (replace_all "-" "+" base64Url) in
  bin ← atob base64;
  jsonPayload ← decodeURIComponent (percent_encode bin);
  JSON_parse jsonPayload.

(** The body of the [try] block of [decodeToken]; [None] when a step
    throws.  [token.split(".")[1]] is [undefined] when the token has no
    dot, and [.replace] then throws a [TypeError]. *)
Definition decode_payload (token : string) : option value :=
  base64Url ← split_on "." token !! 1%nat;
  decode_segment base64Url.

(** [decodeToken] of the auth context: the parsed payload, or [null] when
    the [try] block throws. *)
Definition decodeToken (token : string) : value :=
  default VNull (decode_payload token).

(** [parseJwt] of [src/lib/api-client.ts] reads [window.atob]: outside a
    browsing context the reference to [window] throws inside the [try]. *)
Definition parseJwt (has_window : bool) (token : string) : value :=
  if has_window then default VNull (decode_payload token) else VNull.

(** [decodeToken(v)] for an argument that is not known to be a string:
    a value without a [split] method makes the [try] block throw. *)
Definition decodeToken_value (v : value) : value :=
  match v with
  | VStr token => decodeToken token
  | _ => VNull
  end.

(* ===================================================================== *)
(** ** Requests, effects and tasks *)
(* ===================================================================== *)

(** [FetchOptions]: the fields of [RequestInit] the callers set. *)
Record FetchOptions := mkOptions {
  opt_method : option string;
  opt_body : option string;
  opt_headers : option (gmap string string)
}.

Definition no_options : FetchOptions := mkOptions None None None.

(** The arguments of one call of [fetch(url, config)]. *)
Record Request := mkRequest {
  req_url : string;
  req_method : option string;
  req_body : option string;
  req_headers : gmap string string
}.

(** Synchronous operations on the environment, with their result type. *)
Inductive Op : Type -> Type :=
| TypeofWindow : Op bool                     (* typeof window !== "undefined" *)
| GetItem (key : string) : Op value          (* localStorage.getItem *)
| SetItem (key val : string) : Op unit       (* localStorage.setItem *)
| RemoveItem (key : string) : Op unit        (* localStorage.removeItem *)
| LocationPathname : Op string               (* window.location.pathname *)
| SetLocationHref (href : string) : Op unit  (* window.location.href = ... *)
| DispatchEvent (type : string) : Op unit    (* window.dispatchEvent(new Event(type)) *)
| DateNow : Op Z                             (* Date.now() *)
| SetIsAuthenticated (b : bool) : Op unit
| SetIsAdmin (v : value) : Op unit
| SetIsLoading (b : bool) : Op unit
| RouterPush (path : string) : Op unit.      (* router.push *)

(** An asynchronous computation.  Every continuation receives either the
    result of the operation or the value it threw; [AwaitFetch] and
    [AwaitJson] are the suspension points; [Spawn] is a call of an async
    function whose promise is dropped. *)
Inductive Task (A : Type) : Type :=
| Ret (a : A)
| Throw (e : exn)
| Sync {X : Type} (op : Op X) (k : exn + X -> Task A)
| AwaitFetch (req : Request) (k : exn + Response -> Task A)
| AwaitJson (r : Response) (k : exn + value -> Task A)
| Spawn (bg : Task unit) (k : Task A).

Arguments Ret {A} a.
Arguments Throw {A} e.
Arguments Sync {A X} op k.
Arguments AwaitFetch {A} req k.
Arguments AwaitJson {A} r k.
Arguments Spawn {A} bg k.

Fixpoint bind {A B : Type} (f : A -> Task B) (t : Task A) : Task B :=
  match t with
  | Ret a => f a
  | Throw e => Throw e
  | Sync op k => Sync op (fun r => bind f (k r))
  | AwaitFetch req k => AwaitFetch req (fun r => bind f (k r))
  | AwaitJson r k => AwaitJson r (fun x => bind f (k x))
  | Spawn bg k => Spawn bg (bind f k)
  end.

#[global] Instance Task_ret : MRet Task := @Ret.
#[global] Instance Task_bind : MBind Task := @bind.

(** [try { t } catch (e) { handler e }] *)
Fixpoint try_catch {A : Type} (t : Task A) (handler : exn -> Task A) : Task A :=
  match t with
  | Ret a => Ret a
  | Throw e => handler e
  | Sync op k => Sync op (fun r => try_catch (k r) handler)
  | AwaitFetch req k => AwaitFetch req (fun r => try_catch (k r) handler)
  | AwaitJson r k => AwaitJson r (fun x => try_catch (k x) handler)
  | Spawn bg k => Spawn bg (try_catch k handler)
  end.

(** [try { t } finally { fin }] *)
Definition try_finally {A : Type} (t : Task A) (fin : Task unit) : Task A :=
  a ← try_catch t (fun e => fin ;; Throw e);
  fin ;; Ret a.

Definition settle {A X : Type} (k : X -> Task A) (r : exn + X) : Task A :=
  match r with
  | inl e => Throw e
  | inr x => k x
  end.

Definition perform {X : Type} (op : Op X) : Task X := Sync op (settle Ret).

Definition typeofWindow : Task bool := perform TypeofWindow.
Definition getItem (key : string) : Task value := perform (GetItem key).
Definition setItem (key val : string) : Task unit := perform (SetItem key val).
Definition removeItem (key : string) : Task unit := perform (RemoveItem key).
Definition locationPathname : Task string := perform LocationPathname.
Definition setLocationHref (href : string) : Task unit := perform (SetLocationHref href).
Definition dispatchEvent (type : string) : Task unit := perform (DispatchEvent type).
Definition dateNow : Task Z := perform DateNow.
Definition setIsAuthenticated (b : bool) : Task unit := perform (SetIsAuthenticated b).
Definition setIsAdmin (v : value) : Task unit := perform (SetIsAdmin v).
Definition setIsLoading (b : bool) : Task unit := perform (SetIsLoading b).
Definition routerPush (path : string) : Task unit := perform (RouterPush path).

(** [await fetch(url, config)] *)
Definition fetch (req : Request) : Task Response := AwaitFetch req (settle Ret).

(** [await response.json()] *)
Definition awaitJson (r : Response) : Task value := AwaitJson r (settle Ret).

(** [v.k], throwing on [null] and [undefined]. *)
Definition getProp (v : value) (k : string) : Task value := settle Ret (get_prop v k).

(* --------------------------------------------------------------------- *)
(** *** The environment *)

(** The React state of [AuthProvider].  [setIsAdmin] receives
    [decoded.is_admin || false], whatever value the payload holds. *)
Record Session := mkSession {
  isAuthenticated : bool;
  isAdmin : value;
  isLoading : bool
}.

(** [useState(false)], [useState(false)], [useState(true)] *)
Definition initial_session : Session := mkSession false (VBool false) true.

Record Browser := mkBrowser {
  localStorage : gmap string string;
  pathname : string
}.

Inductive Event :=
| EvFetch (req : Request)
| EvSetItem (key val : string)
| EvRemoveItem (key : string)
| EvDispatch (type : string)
| EvLocationHref (href : string)
| EvRouterPush (path : string).

(** A request in flight and what runs when it settles. *)
Definition Pending : Type := Request * (exn + Response -> Task unit).

(** [window] is [None] outside a browsing context.  [trace] lists the
    effects in the order they happened; [background] holds the requests in
    flight of the async calls nobody awaits. *)
Record World := mkWorld {
  window : option Browser;
  session : Session;
  clock : Z;
  trace : list Event;
  background : list Pending
}.

Definition log (e : Event) (w : World) : World :=
  mkWorld (window w) (session w) (clock w) (trace w ++ [e]) (background w).

Definition set_storage (f : gmap string string -> gmap string string) (b : Browser) (w : World) : World :=
  mkWorld (Some (mkBrowser (f (localStorage b)) (pathname b)))
          (session w) (clock w) (trace w) (background w).

Definition set_session (s : Session) (w : World) : World :=
  mkWorld (window w) s (clock w) (trace w) (background w).

Definition add_background (p : Pending) (w : World) : World :=
  mkWorld (window w) (session w) (clock w) (trace w) (background w ++ [p]).

Definition reference_error (name : string) : exn :=
  JsError (JsErr "ReferenceError" (name +:+ " is not defined")).

Definition do_op {X : Type} (op : Op X) (w : World) : (exn + X) * World :=
  match op in Op X return (exn + X) * World with
  | TypeofWindow => (inr (match window w with Some _ => true | None => false end), w)
  | GetItem key =>
      match window w with
      | Some b => (inr (from_option VStr VNull (localStorage b !! key)), w)
      | None => (inl (reference_error "localStorage"), w)
      end
  | SetItem key val =>
      match window w with
      | Some b => (inr tt, log (EvSetItem key val) (set_storage (insert key val) b w))
      | None => (inl (reference_error "localStorage"), w)
      end
  | RemoveItem key =>
      match window w with
      | Some b => (inr tt, log (EvRemoveItem key) (set_storage (delete key) b w))
      | None => (inl (reference_error "localStorage"), w)
      end
  | LocationPathname =>
      match window w with
      | Some b => (inr (pathname b), w)
      | None => (inl (reference_error "window"), w)
      end
  | SetLocationHref href =>
      match window w with
      | Some b => (inr tt, log (EvLocationHref href) w)
      | None => (inl (reference_error "window"), w)
      end
  | DispatchEvent type =>
      match window w with
      | Some b => (inr tt, log (EvDispatch type) w)
      | None => (inl (reference_error "window"), w)
      end
  | DateNow => (inr (clock w), w)
  | SetIsAuthenticated b =>
      (inr tt, set_session (mkSession b (isAdmin (session w)) (isLoading (session w))) w)
  | SetIsAdmin v =>
      (inr tt, set_session (mkSession (isAuthenticated (session w)) v (isLoading (session w))) w)
  | SetIsLoading b =>
      (inr tt, set_session (mkSession (isAuthenticated (session w)) (isAdmin (session w)) b) w)
  | RouterPush path => (inr tt, log (EvRouterPush path) w)
  end.

(** [response.json()] settled. *)
Definition json_result (r : Response) : exn + value :=
  match json r with
  | BodyJson v => inr v
  | BodyFails e => inl (JsError e)
  end.

(** Where a task stands once it has run as far as it can without a
    response: settled, or suspended on a request. *)
Inductive Outcome (A : Type) : Type :=
| Finished (r : exn + A) (w : World)
| Blocked (req : Request) (k : exn + Response -> Task A) (w : World).

Arguments Finished {A} r w.
Arguments Blocked {A} req k w.

(** What the caller observes once the promise has settled. *)
Definition outcome_result {A : Type} (o : Outcome A) : option (exn + A) :=
  match o with
  | Finished r _ => Some r
  | Blocked _ _ _ => None
  end.

Definition outcome_world {A : Type} (o : Outcome A) : World :=
  match o with
  | Finished _ w => w
  | Blocked _ _ w => w
  end.

(** Runs a task up to its next [fetch].  The request is logged when it is
    issued.  A spawned call runs up to its own first [fetch]; what is left
    of it waits in [background], and an error it throws is dropped with
    its promise. *)
Fixpoint advance {A : Type} (t : Task A) (w : World) : Outcome A :=
  match t with
  | Ret a => Finished (inr a) w
  | Throw e => Finished (inl e) w
  | Sync op k => let '(r, w') := do_op op w in advance (k r) w'
  | AwaitFetch req k => Blocked req k (log (EvFetch req) w)
  | AwaitJson r k => advance (k (json_result r)) w
  | Spawn bg k =>
      match advance bg w with
      | Finished _ w' => advance k w'
      | Blocked req kbg w' => advance k (add_background (req, kbg) w')
      end
  end.

(** Runs a task, answering its successive requests from [script]; the
    task stays [Blocked] when the script is exhausted. *)
Fixpoint run {A : Type} (script : list (exn + Response)) (t : Task A) (w : World) : Outcome A :=
  match advance t w with
  | Finished r w' => Finished r w'
  | Blocked req k w' =>
      match script with
      | [] => Blocked req k w'
      | r :: script' => run script' (k r) w'
      end
  end.

(* ===================================================================== *)
(** ** The request gateway and the auth provider *)
(* ===================================================================== *)

(** [JSON.stringify] of a string: QuoteJSONString. *)
Definition hex4 (n : Z) : string :=
  String (hex_digit (n / 4096)) (String (hex_digit ((n / 256) mod 16))
    (String (hex_digit ((n / 16) mod 16)) (String (hex_digit (n mod 16)) EmptyString))).

Definition quote_char (c : ascii) : string :=
  let n := code c in
  if n =? 8 then "\b" else
  if n =? 9 then "\t" else
  if n =? 10 then "\n" else
  if n =? 12 then "\f" else
  if n =? 13 then "\r" else
  if n =? 34 then String "\" (String dquote EmptyString) else
  if n =? 92 then "\\" else
  if n <? 32 then "\u" +:+ hex4 n
  else String c EmptyString.

Fixpoint quote_chars (s : string) : string :=
  match s with
  | EmptyString => EmptyString
  | String c rest => quote_char c +:+ quote_chars rest
  end.

Definition quote_json_string (s : string) : string :=
  String dquote (quote_chars s) +:+ String dquote EmptyString.

(** [JSON.stringify({ refresh_token: refreshToken })] *)
Definition stringify_refresh_body (refreshToken : string) : string :=
  "{" +:+ quote_json_string "refresh_token" +:+ ":" +:+ quote_json_string refreshToken +:+ "}".

(** [s.startsWith(p)] *)
Definition startsWith (s p : string) : bool := String.prefix p s.

Fixpoint join (sep : string) (l : list string) : string :=
  match l with
  | [] => EmptyString
  | [x] => x
  | x :: rest => x +:+ sep +:+ join sep rest
  end.

Section Gateway.

(** [process.env.NEXT_PUBLIC_API_BASE_URL || "http://localhost:8080"] *)
Variable API_BASE_URL : string.

(** The two conversions of ECMA-262 between numbers and strings
    ([Number::toString] and [StringToNumber]) are left to the platform. *)
Variable NumberToString : decimal -> string.
Variable StringToNumber : string -> number.

(** ToString, as applied by template literals, [localStorage.setItem]
    and the [Error] constructor. *)
Fixpoint ToString (v : value) : string :=
  match v with
  | VUndefined => "undefined"
  | VNull => "null"
  | VBool true => "true"
  | VBool false => "false"
  | VNum d => NumberToString d
  | VStr s => s
  | VArr items =>
      join "," (map (fun x => match x with
                              | VUndefined | VNull => EmptyString
                              | _ => ToString x
                              end) items)
  | VObj _ => "[object Object]"
  end.

(** ToNumber, as applied by [*]. *)
Definition ToNumber (v : value) : number :=
  match v with
  | VUndefined => NaN
  | VNull => Fin (dec_of_Z 0)
  | VBool b => Fin (dec_of_Z (if b then 1 else 0))
  | VNum d => Fin d
  | VStr s => StringToNumber s
  | VArr _ | VObj _ => StringToNumber (ToString v)
  end.

Definition default_headers : gmap string string :=
  {[ "Content-Type" := "application/json"; "ngrok-skip-browser-warning" := "true" ]}.

(** The [headers] and [config] objects of [doRequest], for the token it
    settled on; keys of [options.headers] override the two defaults, and
    [Authorization] is written last. *)
Definition build_request (endpoint : string) (options : FetchOptions)
    (token : value) : Request :=
  let url := API_BASE_URL +:+ endpoint in
  let headers := default ∅ (opt_headers options) ∪ default_headers in
  let headers :=
    if truthy token then <["Authorization" := "Bearer " +:+ ToString token]> headers
    else headers in
  mkRequest url (opt_method options) (opt_body options) headers.

(** The inner function [doRequest(tokenOverride?)] of [apiRequest]. *)
Definition doRequest (endpoint : string) (options : FetchOptions)
    (tokenOverride : value) : Task Response :=
  token ← (if truthy tokenOverride then Ret tokenOverride
           else
             hasWindow ← typeofWindow;
             if (hasWindow : bool) then getItem "access_token" else Ret VNull);
  fetch (build_request endpoint options token).

(** The statement repeated on every failure path:
    [if (!pathname.startsWith("/login") && !pathname.startsWith("/auth"))
       window.location.href = "/login"] *)
Definition redirectToLogin : Task unit :=
  p ← locationPathname;
  if negb (startsWith p "/login") && negb (startsWith p "/auth")
  then setLocationHref "/login"
  else Ret tt.

Definition purgeTokens : Task unit :=
  removeItem "access_token" ;; removeItem "refresh_token".

Definition refresh_request (refreshToken : string) : Request :=
  mkRequest (API_BASE_URL +:+ "/api/auth/refresh") (Some "POST")
    (Some (stringify_refresh_body refreshToken))
    {[ "Content-Type" := "application/json"; "ngrok-skip-browser-warning" := "true" ]}.

(** [refreshError instanceof Error ? refreshError.message : 'Unknown error'] *)
Definition error_message (e : exn) : string :=
  match e with
  | ApiError m _ _ => m
  | JsError je => err_message je
  | NonError _ => "Unknown error"
  end.

(** Inside [try], after [await fetch(".../api/auth/refresh", ...)]: the
    retried response, or a throw. *)
Definition afterRefresh (endpoint : string) (options : FetchOptions)
    (refreshResponse : Response) : Task Response :=
  if ok refreshResponse then
    responseData ← awaitJson refreshResponse;
    data ← getProp responseData "data";
    let tokenData := js_or data responseData in
    access_token ← getProp tokenData "access_token";
    refresh_token ← getProp tokenData "refresh_token";
    if truthy access_token then
      setItem "access_token" (ToString access_token) ;;
      (if truthy refresh_token
       then setItem "refresh_token" (ToString refresh_token)
       else Ret tt) ;;
      dispatchEvent "tokenRefreshed" ;;
      doRequest endpoint options access_token
    else
      purgeTokens ;;
      redirectToLogin ;;
      Throw (ApiError "Failed to refresh token - no access_token in response" 401
               (Some refreshResponse))
  else
    errorData ← try_catch (awaitJson refreshResponse) (fun _ => Ret (VObj []));
    purgeTokens ;;
    redirectToLogin ;;
    detail ← getProp errorData "detail";
    Throw (ApiError ("Failed to refresh token: "
                       +:+ ToString (js_or detail (VStr (statusText refreshResponse))))
             401 (Some refreshResponse)).

(** The body of [try { ... }] on the refresh path. *)
Definition refreshAndRetry (endpoint : string) (options : FetchOptions)
    (refreshToken : value) : Task Response :=
  refreshResponse ← fetch (refresh_request (ToString refreshToken));
  afterRefresh endpoint options refreshResponse.

(** [catch (refreshError) { ... }] *)
Definition onRefreshError (refreshError : exn) : Task Response :=
  purgeTokens ;;
  redirectToLogin ;;
  Throw (ApiError ("Failed to refresh token: " +:+ error_message refreshError) 401 None).

(** [errorData.detail || response.statusText || "An error occurred"],
    thrown as [new ApiError(errorMessage, response.status, response)]. *)
Definition throwApiError {A : Type} (errorData : value) (response : Response) : Task A :=
  detail ← getProp errorData "detail";
  Throw (ApiError
           (ToString (js_or (js_or detail (VStr (statusText response)))
                        (VStr "An error occurred")))
           (status response) (Some response)).

(** The body of [if (response.status === 401) { ... }]. *)
Definition on401 (endpoint : string) (options : FetchOptions)
    (response : Response) : Task Response :=
  errorData ← try_catch (awaitJson response) (fun _ => Ret (VObj []));
  hasWindow ← typeofWindow;
  if (hasWindow : bool) then
    refreshToken ← getItem "refresh_token";
    if truthy refreshToken then
      try_catch (refreshAndRetry endpoint options refreshToken) onRefreshError
    else
      removeItem "access_token" ;;
      redirectToLogin ;;
      throwApiError errorData response
  else
    throwApiError errorData response.

(** What [apiRequest] does with the response it ends up with: from
    [if (!response.ok)] to [return response.json()]. *)
Definition respond (response : Response) : Task value :=
  if negb (ok response) then
    errorData ← try_catch (awaitJson response) (fun _ => Ret (VObj []));
    if status response =? 403 then
      detail ← getProp errorData "detail";
      Throw (ApiError
               (ToString (js_or detail
                  (VStr "Access forbidden. This endpoint requires admin privileges.")))
               (status response) (Some response))
    else
      throwApiError errorData response
  else if status response =? 204 then Ret (VObj [])
  else awaitJson response.

(** [apiRequest] after [let response = await doRequest()]. *)
Definition afterResponse (endpoint : string) (options : FetchOptions)
    (response : Response) : Task value :=
  response ← (if status response =? 401
              then on401 endpoint options response
              else Ret response);
  respond response.

Definition apiRequest (endpoint : string) (options : FetchOptions) : Task value :=
  response ← doRequest endpoint options VUndefined;
  afterResponse endpoint options response.

(** [apiClient.refreshToken] and [apiClient.logout] *)
Definition apiClient_refreshToken (refreshToken : string) : Task value :=
  apiRequest "/api/auth/refresh"
    (mkOptions (Some "POST") (Some (stringify_refresh_body refreshToken)) None).

Definition apiClient_logout : Task value :=
  apiRequest "/api/auth/logout" (mkOptions (Some "POST") None None).

(* ------------------------------------------------------------------- *)
(** *** AuthProvider *)

Definition refreshAuth : Task unit :=
  refreshToken ← getItem "refresh_token";
  if negb (truthy refreshToken) then
    removeItem "access_token" ;;
    setIsAuthenticated false ;;
    setIsAdmin (VBool false)
  else
    try_catch
      (response ← apiClient_refreshToken (ToString refreshToken);
       access_token ← getProp response "access_token";
       setItem "access_token" (ToString access_token) ;;
       refresh_token ← getProp response "refresh_token";
       (if truthy refresh_token
        then setItem "refresh_token" (ToString refresh_token)
        else Ret tt) ;;
       let decoded := decodeToken_value access_token in
       if truthy decoded then
         setIsAuthenticated true ;;
         is_admin ← getProp decoded "is_admin";
         setIsAdmin (js_or is_admin (VBool false))
       else Ret tt)
      (fun _ =>
         removeItem "access_token" ;;
         removeItem "refresh_token" ;;
         setIsAuthenticated false ;;
         setIsAdmin (VBool false)).

(** [decoded && decoded.exp * 1000 > Date.now()], computed on exact
    decimals: for an [exp] in whole seconds the product and the
    comparison give what the doubles of the code give
    ([whole_seconds_later]). *)
Definition unexpired (decoded : value) : Task bool :=
  if truthy decoded then
    exp ← getProp decoded "exp";
    now ← dateNow;
    Ret (num_gtb (num_mul (ToNumber exp) (Fin (dec_of_Z 1000))) (Fin (dec_of_Z now)))
  else Ret false.

Definition checkAuth : Task unit :=
  token ← getItem "access_token";
  (if truthy token then
     let decoded := decodeToken_value token in
     valid ← unexpired decoded;
     if (valid : bool) then
       setIsAuthenticated true ;;
       is_admin ← getProp decoded "is_admin";
       setIsAdmin (js_or is_admin (VBool false))
     else
       Spawn refreshAuth (Ret tt)
   else
     setIsAuthenticated false ;;
     setIsAdmin (VBool false)) ;;
  setIsLoading false.

(** The [finally] block of [logout]. *)
Definition logout_finally : Task unit :=
  removeItem "access_token" ;;
  removeItem "refresh_token" ;;
  setIsAuthenticated false ;;
  setIsAdmin (VBool false) ;;
  routerPush "/login".

(** [try { await call } catch (error) { console.error(...) } finally { ... }] *)
Definition logout_around {A : Type} (call : Task A) : Task unit :=
  try_finally (try_catch (call ;; Ret tt) (fun _ => Ret tt)) logout_finally.

Definition logout : Task unit := logout_around apiClient_logout.

End Gateway.

(* ===================================================================== *)
(** ** The rest of the auth provider and the callers of the gateway *)
(* ===================================================================== *)

(** [a - b] on decimals. *)
Definition dec_sub (a b : decimal) : decimal :=
  let '(x, y) := dec_align a b in Dec (x - y) (Z.min (dexp a) (dexp b)).

(** [a - b] *)
Definition num_sub (a b : number) : number :=
  match a, b with
  | Fin x, Fin y => Fin (dec_sub x y)
  | Inf s, Fin _ => Inf s
  | Fin _, Inf s => Inf (negb s)
  | Inf s, Inf s' => if Bool.eqb s s' then NaN else Inf s
  | _, _ => NaN
  end.

(** [a < b] and [a <= b]; a comparison with [NaN] is false. *)
Definition num_ltb (a b : number) : bool := num_gtb b a.

Definition num_leb (a b : number) : bool :=
  match a, b with
  | Fin x, Fin y => negb (dec_ltb y x)
  | Inf true, Fin _ | Inf true, Inf _ | Fin _, Inf false | Inf false, Inf false => true
  | _, _ => false
  end.

(** [err.message] for a thrown value.  [ApiError] and the engine's errors
    are instances of [Error]; anything else is read like any value. *)
Definition exn_message (err : exn) : exn + value :=
  match err with
  | ApiError m _ _ => inr (VStr m)
  | JsError je => inr (VStr (err_message je))
  | NonError v => get_prop v "message"
  end.

Section Callers.

Variable API_BASE_URL : string.
Variable NumberToString : decimal -> string.
Variable StringToNumber : string -> number.

(* ------------------------------------------------------------------- *)
(** *** Methods of [apiClient] *)

(** [apiClient.getDiscordLoginUrl] *)
Definition apiClient_getDiscordLoginUrl : Task value :=
  apiRequest API_BASE_URL NumberToString "/api/auth/discord/login" no_options.

(** [apiClient.exchangeCodeForToken]; the callback page builds the same
    endpoint itself.  [code] and [state] are put into the query as they
    are. *)
Definition callback_endpoint (code state : string) : string :=
  "/api/auth/discord/callback?code=" +:+ code +:+ "&state=" +:+ state.

Definition apiClient_exchangeCodeForToken (code state : string) : Task value :=
  apiRequest API_BASE_URL NumberToString (callback_endpoint code state) no_options.

(** [apiClient.getCardPoolCards]: [(await apiRequest(...)).data] *)
Definition apiClient_getCardPoolCards (poolId : decimal) : Task value :=
  response ← apiRequest API_BASE_URL NumberToString
               ("/api/card-pools/" +:+ NumberToString poolId +:+ "/cards") no_options;
  getProp response "data".

(* ------------------------------------------------------------------- *)
(** *** AuthProvider: [login] and the listeners of its effect *)

(** [login]: the [catch] logs and rethrows. *)
Definition login : Task unit :=
  try_catch
    (response ← apiClient_getDiscordLoginUrl;
     authorization_url ← getProp response "authorization_url";
     setLocationHref (ToString NumberToString authorization_url))
    (fun error => Throw error).

(** The callback of [setInterval], run every minute. *)
Definition expiryCheck : Task unit :=
  token ← getItem "access_token";
  if truthy token then
    let decoded := decodeToken_value token in
    if truthy decoded then
      exp ← getProp decoded "exp";
      now ← dateNow;
      let timeUntilExpiry :=
        num_sub (num_mul (ToNumber NumberToString StringToNumber exp) (Fin (dec_of_Z 1000)))
                (Fin (dec_of_Z now)) in
      let fiveMinutes := Fin (dec_of_Z (5 * 60 * 1000)) in
      if num_ltb timeUntilExpiry fiveMinutes && num_gtb timeUntilExpiry (Fin (dec_of_Z 0)) then
        Spawn (refreshAuth API_BASE_URL NumberToString) (Ret tt)
      else if num_leb timeUntilExpiry (Fin (dec_of_Z 0)) then
        Spawn (refreshAuth API_BASE_URL NumberToString) (Ret tt)
      else Ret tt
    else Ret tt
  else Ret tt.

(** [handleStorageChange(e)], for [e.key]. *)
Definition handleStorageChange (key : value) : Task unit :=
  match key with
  | VStr k =>
      if String.eqb k "access_token" || String.eqb k "refresh_token"
      then checkAuth API_BASE_URL NumberToString StringToNumber
      else Ret tt
  | _ => Ret tt
  end.

(** [handleTokenRefresh], the listener of [tokenRefreshed]. *)
Definition handleTokenRefresh : Task unit :=
  checkAuth API_BASE_URL NumberToString StringToNumber.

(* ------------------------------------------------------------------- *)
(** *** The callback page of the Discord login *)

(** [exchangeToken] of [AuthCallbackPage].  The page keeps one piece of
    state, [error]; the task returns the argument of the call of
    [setError] it ends with, [None] when it ends without one. *)
Definition exchangeToken (code state : string) : Task (option value) :=
  try_catch
    (data ← apiRequest API_BASE_URL NumberToString (callback_endpoint code state) no_options;
     access_token ← getProp data "access_token";
     if truthy access_token then
       setItem "access_token" (ToString NumberToString access_token) ;;
       refresh_token ← getProp data "refresh_token";
       (if truthy refresh_token
        then setItem "refresh_token" (ToString NumberToString refresh_token)
        else Ret tt) ;;
       setLocationHref "/dashboard" ;;
       Ret None
     else Ret (Some (VStr "No access token received")))
    (fun err =>
       message ← settle Ret (exn_message err);
       Ret (Some (js_or message (VStr "Failed to exchange token")))).

(** The effect of the page, for what [searchParams.get] returned ([None]
    is [null]). *)
Definition callbackEffect (code state : option string) : Task (option value) :=
  match code, state with
  | Some c, Some s =>
      if negb (truthy (VStr c)) || negb (truthy (VStr s))
      then Ret (Some (VStr "Missing code or state parameters"))
      else exchangeToken c s
  | _, _ => Ret (Some (VStr "Missing code or state parameters"))
  end.

(* ------------------------------------------------------------------- *)
(** *** The route guard of the dashboard *)

(** The effect of [AdminProtectedRoute] for the auth state it sees: the
    new value of [hasRedirected]. *)
Definition guardEffect (s : Session) (hasRedirected : bool) : Task bool :=
  if negb (isLoading s) then
    if negb (isAuthenticated s) then routerPush "/login" ;; Ret true
    else if negb (truthy (isAdmin s)) then routerPush "/unauthorized" ;; Ret true
    else Ret hasRedirected
  else Ret hasRedirected.

(** Whether the component renders its children rather than the spinner. *)
Definition guardRendersChildren (s : Session) (hasRedirected : bool) : bool :=
  if isLoading s then false
  else if negb (isAuthenticated s) || negb (truthy (isAdmin s)) || hasRedirected then false
  else true.

End Callers.

(* ===================================================================== *)
(** ** Query strings: [URLSearchParams] *)
(* ===================================================================== *)

(** A list of name-value pairs in the order they were added: the
    constructor takes the entries of a record in order, [append] adds at
    the end. *)
Definition URLSearchParams : Type := list (string * string).

Definition hex_digit_upper (d : Z) : ascii :=
  if d <? 10 then chr (48 + d) else chr (55 + d).

(** The [application/x-www-form-urlencoded] byte serializer (WHATWG
    URL): a space becomes [+]; letters, digits and [* - . _] stay;
    every other byte is written [%XX]. *)
Definition urlencode_byte (c : ascii) : string :=
  let n := code c in
  if n =? 32 then "+"
  else if (n =? 42) || (n =? 45) || (n =? 46) || (n =? 95)
          || in_range "0" "9" c || in_range "A" "Z" c || in_range "a" "z" c
  then String c EmptyString
  else String "%" (String (hex_digit_upper (n / 16))
                     (String (hex_digit_upper (n mod 16)) EmptyString)).

Fixpoint urlencode (s : string) : string :=
  match s with
  | EmptyString => EmptyString
  | String c rest => urlencode_byte c +:+ urlencode rest
  end.

(** One pair of a query, [name=value]. *)
Definition encode_pair (p : string * string) : string :=
  urlencode (fst p) +:+ "=" +:+ urlencode (snd p).

(** [params.toString()] *)
Definition URLSearchParams_toString (params : URLSearchParams) : string :=
  join "&" (map encode_pair params).

(** Percent-decoding: [%XX] with two hexadecimal digits is one byte, any
    other byte stands for itself. *)
Fixpoint percent_decode (l : list ascii) : list ascii :=
  match l with
  | [] => []
  | c :: rest =>
      match (if Ascii.eqb c "%" then read_escape l else None) with
      | Some (b, _) =>
          match rest with
          | _ :: _ :: rest' => chr b :: percent_decode rest'
          | _ => [c]
          end
      | None => c :: percent_decode rest
      end
  end.

(** A name or a value of a query, decoded: [+] is a space. *)
Definition urldecode (s : string) : string :=
  string_of_list_ascii (percent_decode (list_ascii_of_string (replace_all "+" " " s))).

(** A sequence of the query split at its first [=]. *)
Fixpoint split_pair (s : string) : string * string :=
  match s with
  | EmptyString => (EmptyString, EmptyString)
  | String c rest =>
      if Ascii.eqb c "=" then (EmptyString, rest)
      else let '(n, v) := split_pair rest in (String c n, v)
  end.

(** The [application/x-www-form-urlencoded] parser, as the receiving side
    reads a query. *)
Definition URLSearchParams_parse (query : string) : URLSearchParams :=
  map (fun seq => let '(n, v) := split_pair seq in (urldecode n, urldecode v))
      (List.filter (fun seq => negb (String.eqb seq "")) (split_on "&" query)).

(** [c] does not occur in [s]. *)
Fixpoint free_of (c : ascii) (s : string) : bool :=
  match s with
  | EmptyString => true
  | String d rest => negb (Ascii.eqb d c) && free_of c rest
  end.

(** The options of [getCards], [getPlayers] and [getEventLogs]; [None] is
    a member that is [undefined]. *)
Record CardsOptions := mkCardsOptions {
  cards_search_name : option string;
  cards_search_id : option decimal;
  cards_sort_by : option string;
  cards_sort_order : option string
}.

Record PlayersOptions := mkPlayersOptions {
  players_search_username : option string;
  players_search_discord_id : option string;
  players_sort_by : option string;
  players_sort_order : option string
}.

Record EventLogsOptions := mkEventLogsOptions {
  logs_player_id : option decimal;
  logs_player_name : option string;
  logs_event_type : option string
}.

(** [if (options?.member) params.append(name, options.member)] for a
    member that is a string. *)
Definition append_truthy (name : string) (member : option string)
    (params : URLSearchParams) : URLSearchParams :=
  match member with
  | Some s => if truthy (VStr s) then params ++ [(name, s)] else params
  | None => params
  end.

Section Queries.

Variable API_BASE_URL : string.
Variable NumberToString : decimal -> string.

(** [if (options?.member !== undefined)
       params.append(name, options.member.toString())] for a number. *)
Definition append_defined (name : string) (member : option decimal)
    (params : URLSearchParams) : URLSearchParams :=
  match member with
  | Some n => params ++ [(name, NumberToString n)]
  | None => params
  end.

(** [new URLSearchParams({ page: page.toString(),
                            page_size: pageSize.toString() })] with the
    defaults [page = 1] and [pageSize = 20]. *)
Definition page_params (page pageSize : option decimal) : URLSearchParams :=
  [("page", NumberToString (default (dec_of_Z 1) page));
   ("page_size", NumberToString (default (dec_of_Z 20) pageSize))].

Definition getCards_params (page pageSize : option decimal) (options : option CardsOptions)
    : URLSearchParams :=
  let params := page_params page pageSize in
  let params := append_truthy "search_name" (options ≫= cards_search_name) params in
  let params := append_defined "search_id" (options ≫= cards_search_id) params in
  let params := append_truthy "sort_by" (options ≫= cards_sort_by) params in
  append_truthy "sort_order" (options ≫= cards_sort_order) params.

Definition getPlayers_params (page pageSize : option decimal)
    (options : option PlayersOptions) : URLSearchParams :=
  let params := page_params page pageSize in
  let params := append_truthy "search_username" (options ≫= players_search_username) params in
  let params :=
    append_truthy "search_discord_id" (options ≫= players_search_discord_id) params in
  let params := append_truthy "sort_by" (options ≫= players_sort_by) params in
  append_truthy "sort_order" (options ≫= players_sort_order) params.

Definition getEventLogs_params (page pageSize : option decimal)
    (options : option EventLogsOptions) : URLSearchParams :=
  let params := page_params page pageSize in
  let params := append_defined "player_id" (options ≫= logs_player_id) params in
  let params := append_truthy "player_name" (options ≫= logs_player_name) params in
  append_truthy "event_type" (options ≫= logs_event_type) params.

(** [apiClient.getCards], [apiClient.getPlayers], [apiClient.getEventLogs] *)
Definition apiClient_getCards (page pageSize : option decimal)
    (options : option CardsOptions) : Task value :=
  apiRequest API_BASE_URL NumberToString
    ("/api/cards/?" +:+ URLSearchParams_toString (getCards_params page pageSize options))
    no_options.

Definition apiClient_getPlayers (page pageSize : option decimal)
    (options : option PlayersOptions) : Task value :=
  apiRequest API_BASE_URL NumberToString
    ("/api/players/?" +:+ URLSearchParams_toString (getPlayers_params page pageSize options))
    no_options.

Definition apiClient_getEventLogs (page pageSize : option decimal)
    (options : option EventLogsOptions) : Task value :=
  apiRequest API_BASE_URL NumberToString
    ("/api/event-logs/?"
       +:+ URLSearchParams_toString (getEventLogs_params page pageSize options))
    no_options.

End Queries.

(* ===================================================================== *)
(** ** Overlapping calls *)
(* ===================================================================== *)

(** A call whose promise nobody awaits: it runs up to its first [fetch]
    and then waits in [background]. *)
Definition start {A : Type} (t : Task A) (w : World) : World :=
  outcome_world (advance (Spawn (t ;; Ret tt) (Ret tt)) w).

Definition set_background (bg : list Pending) (w : World) : World :=
  mkWorld (window w) (session w) (clock w) (trace w) bg.

(** The [i]-th request in flight settles with [r]: its continuation runs
    up to its next [fetch]. *)
Definition deliver (i : nat) (r : exn + Response) (w : World) : World :=
  match background w !! i with
  | None => w
  | Some (_, k) =>
      match advance (k r) (set_background (delete i (background w)) w) with
      | Finished _ w' => w'
      | Blocked req k' w' => add_background (req, k') w'
      end
  end.

(** Requests issued, in order. *)
Definition fetches (tr : list Event) : list Request :=
  omap (fun e => match e with EvFetch req => Some req | _ => None end) tr.

Definition is_storage_write (e : Event) : bool :=
  match e with
  | EvSetItem _ _ | EvRemoveItem _ => true
  | _ => false
  end.

Definition is_removal (e : Event) : bool :=
  match e with EvRemoveItem _ => true | _ => false end.

Definition is_dispatch (e : Event) : bool :=
  match e with EvDispatch _ => true | _ => false end.

Definition is_navigation (e : Event) : bool :=
  match e with EvLocationHref _ => true | _ => false end.

Definition count (p : Event -> bool) (tr : list Event) : nat :=
  length (filter (fun e => p e = true) tr).

(* ===================================================================== *)
(** ** A reference platform *)
(* ===================================================================== *)

Fixpoint strip_trailing_zeros (fuel : nat) (m e : Z) : Z * Z :=
  match fuel with
  | O => (m, e)
  | S fuel' =>
      if (m mod 10 =? 0) && negb (m =? 0) then strip_trailing_zeros fuel' (m / 10) (e + 1)
      else (m, e)
  end.

Fixpoint zeros (n : nat) : string :=
  match n with
  | O => EmptyString
  | S n' => String "0" (zeros n')
  end.

(** [Number::toString] (radix 10) of ECMA-262, on the digits of the
    decimal. *)
Definition NumberToString_std (d : decimal) : string :=
  let m := dmant d in
  if m =? 0 then "0"
  else
    let sign := if m <? 0 then "-" else "" in
    let '(s, e) := strip_trailing_zeros (Z.to_nat (Z.log2 (Z.abs m)) + 1) (Z.abs m) (dexp d) in
    let digits := pretty (Z.to_N s) in
    let k := Z.of_nat (String.length digits) in
    let n := k + e in
    sign +:+
    (if (k <=? n) && (n <=? 21) then digits +:+ zeros (Z.to_nat (n - k))
     else if (0 <? n) && (n <=? 21) then
       String.substring 0 (Z.to_nat n) digits +:+ "." +:+
       String.substring (Z.to_nat n) (Z.to_nat (k - n)) digits
     else if (-6 <? n) && (n <=? 0) then "0." +:+ zeros (Z.to_nat (- n)) +:+ digits
     else
       let e1 := n - 1 in
       let es := (if e1 <? 0 then "-" else "+") +:+ pretty (Z.to_N (Z.abs e1)) in
       if k =? 1 then digits +:+ "e" +:+ es
       else String.substring 0 1 digits +:+ "." +:+
            String.substring 1 (Z.to_nat (k - 1)) digits +:+ "e" +:+ es).

Definition is_str_whitespace (c : ascii) : bool :=
  let n := code c in (9 <=? n) && (n <=? 13) || (n =? 32).

Fixpoint trim_left (l : list ascii) : list ascii :=
  match l with
  | c :: rest => if is_str_whitespace c then trim_left rest else l
  | [] => []
  end.

Definition trim (l : list ascii) : list ascii := rev (trim_left (rev (trim_left l))).

(** [digits? (. digits?)? ([eE] [+-]? digits)?] with at least one digit. *)
Definition parse_str_decimal (l : list ascii) : option decimal :=
  let '(ip, icount, l1) := take_digits l 0 0 in
  let '(fp, fcount, l2) := match l1 with
                           | "."%char :: r => take_digits r 0 0
                           | _ => (0, 0, l1)
                           end in
  if (icount + fcount =? 0) then None
  else
    let m := ip * 10 ^ fcount + fp in
    match l2 with
    | [] => Some (dec_make m (- fcount))
    | c :: r =>
        if Ascii.eqb c "e" || Ascii.eqb c "E" then
          let '(eneg, r1) := match r with
                             | "-"%char :: r' => (true, r')
                             | "+"%char :: r' => (false, r')
                             | _ => (false, r)
                             end in
          match take_digits r1 0 0 with
          | (ev, ecount, []) =>
              if ecount =? 0 then None
              else Some (dec_make m ((if eneg then - ev else ev) - fcount))
          | _ => None
          end
        else None
    end.

Fixpoint parse_radix (radix : Z) (l : list ascii) (acc : Z) : option Z :=
  match l with
  | [] => Some acc
  | c :: rest =>
      match hex_val c with
      | Some d => if d <? radix then parse_radix radix rest (acc * radix + d) else None
      | None => None
      end
  end.

(** [StringToNumber] of ECMA-262, for ASCII white space. *)
Definition StringToNumber_std (s : string) : number :=
  let l := trim (list_ascii_of_string s) in
  let '(neg, body) := match l with
                      | "-"%char :: r => (true, r)
                      | "+"%char :: r => (false, r)
                      | _ => (false, l)
                      end in
  let signed d := Fin (if (neg : bool) then Dec (- dmant d) (dexp d) else d) in
  match l with
  | [] => Fin (dec_of_Z 0)
  | "0"%char :: x :: (_ :: _) as digits =>
      let radix := if Ascii.eqb x "x" || Ascii.eqb x "X" then Some 16
                   else if Ascii.eqb x "o" || Ascii.eqb x "O" then Some 8
                   else if Ascii.eqb x "b" || Ascii.eqb x "B" then Some 2
                   else None in
      match radix with
      | Some rx => match parse_radix rx digits 0 with
                   | Some n => Fin (dec_of_Z n)
                   | None => NaN
                   end
      | None => match parse_str_decimal body with
                | Some d => signed d
                | None => NaN
                end
      end
  | _ =>
      if String.eqb (string_of_list_ascii body) "Infinity" then Inf neg
      else match parse_str_decimal body with
           | Some d => signed d
           | None => NaN
           end
  end.

(* ===================================================================== *)
(** ** Vocabulary of the statements *)
(* ===================================================================== *)

(** The value under [key] in [localStorage]. *)
Definition stored (key : string) (w : World) : option string :=
  b ← window w; localStorage b !! key.

(** What [localStorage.getItem("access_token")] returns in [w], [null]
    outside a browsing context. *)
Definition current_token (w : World) : value :=
  match window w with
  | Some b => from_option VStr VNull (localStorage b !! "access_token")
  | None => VNull
  end.

(** The world after a synchronous operation. *)
Definition exec {X : Type} (op : Op X) (w : World) : World := snd (do_op op w).

(** The location is on the login page or under [/auth]. *)
Definition on_auth_page (w : World) : bool :=
  match window w with
  | Some b => startsWith (pathname b) "/login" || startsWith (pathname b) "/auth"
  | None => false
  end.

(** The world after [redirectToLogin]. *)
Definition redirected (w : World) : World :=
  if on_auth_page w then w else exec (SetLocationHref "/login") w.

(** The world after both tokens are removed. *)
Definition purged (w : World) : World :=
  exec (RemoveItem "refresh_token") (exec (RemoveItem "access_token") w).

(** The world after the tokens of a refresh response are stored and the
    refresh is announced. *)
Definition refreshed (access : string) (new_refresh : option string) (w : World) : World :=
  let w1 := exec (SetItem "access_token" access) w in
  let w2 := match new_refresh with
            | Some r => exec (SetItem "refresh_token" r) w1
            | None => w1
            end in
  exec (DispatchEvent "tokenRefreshed") w2.

(** The events of [tr'] that come after the prefix [tr]. *)
Definition since (tr tr' : list Event) : list Event := drop (length tr) tr'.

(** [ToString] of an array or of an object goes through the methods
    [join] and [toString] of the prototypes, which is what [ToString]
    above computes.  An object with a member [toString] of its own (in a
    parsed body never a function) makes the conversion throw instead;
    [printable] excludes such an object, alone or inside an array. *)
Fixpoint printable (v : value) : bool :=
  match v with
  | VObj fields =>
      match lookup_field "toString" fields with
      | Some _ => false
      | None => true
      end
  | VArr items => forallb printable items
  | _ => true
  end.

(** [errorData] once the [try]/[catch] around [response.json()] is
    through: the parsed body, or [{}] when the body is not JSON. *)
Definition error_data (r : Response) : value :=
  match json r with
  | BodyJson v => v
  | BodyFails _ => VObj []
  end.

(** The events a successful refresh adds. *)
Definition refreshed_events (access : string) (new_refresh : option string) : list Event :=
  EvSetItem "access_token" access ::
  match new_refresh with
  | Some r => [EvSetItem "refresh_token" r]
  | None => []
  end ++ [EvDispatch "tokenRefreshed"].

(** The store a successful refresh leaves. *)
Definition refreshed_storage (access : string) (new_refresh : option string)
    (m : gmap string string) : gmap string string :=
  match new_refresh with
  | Some r => <["refresh_token" := r]> (<["access_token" := access]> m)
  | None => <["access_token" := access]> m
  end.

(** No dot in the string. *)
Fixpoint dotless (s : string) : bool :=
  match s with
  | EmptyString => true
  | String c rest => negb (Ascii.eqb c ".") && dotless rest
  end.

(** Nothing, or a dot and whatever follows: what may come after the
    second segment of a token. *)
Definition segment_end (rest : string) : bool :=
  match rest with
  | EmptyString => true
  | String c _ => Ascii.eqb c "."
  end.

(* --------------------------------------------------------------------- *)
(** *** How a payload is written into a token *)

(** The issuer writes the claims as JSON text, takes its UTF-8 bytes and
    encodes them in base64url without padding (RFC 7515, appendix C).
    These definitions say what a well-formed middle segment is; the codec
    of the source is the decoder above. *)
Definition b64url_char (i : Z) : ascii :=
  if i <? 26 then chr (65 + i)
  else if i <? 52 then chr (71 + i)
  else if i <? 62 then chr (i - 4)
  else if i =? 62 then "-"%char
  else "_"%char.

(** Eight bits per byte regrouped by six; a tail of one or two bytes is
    filled up with zero bits. *)
Fixpoint b64url_sextets (bytes : list ascii) : list Z :=
  match bytes with
  | a :: b :: c :: rest =>
      let n := (code a * 256 + code b) * 256 + code c in
      n / 262144 :: (n / 4096) mod 64 :: (n / 64) mod 64 :: n mod 64 :: b64url_sextets rest
  | [a; b] =>
      let n := (code a * 256 + code b) * 4 in
      [n / 4096; (n / 64) mod 64; n mod 64]
  | [a] =>
      let n := code a * 16 in
      [n / 64; n mod 64]
  | [] => []
  end.

Definition b64url_encode (text : string) : string :=
  string_of_list_ascii (map b64url_char (b64url_sextets (list_ascii_of_string text))).

(** A character of an encoded segment after the two replacements of the
    source, which turn the base64url alphabet into the base64 one. *)
Definition b64_char (i : Z) : ascii :=
  let c := b64url_char i in
  let c := if Ascii.eqb c "-" then "+"%char else c in
  if Ascii.eqb c "_" then "/"%char else c.

(** What the decoder needs of character [i] of the alphabet. *)
Definition b64_char_ok (i : Z) : bool :=
  let c := b64_char i in
  match b64_index c with
  | Some j => (j =? i) && negb (is_ascii_whitespace c) && negb (Ascii.eqb c "=")
              && negb (Ascii.eqb (b64url_char i) ".")
  | None => false
  end.

(** [lo <= c <= hi] on character codes. *)
Definition between (lo hi : Z) (c : ascii) : bool :=
  (lo <=? code c) && (code c <=? hi).

(** The second byte of a three-byte sequence, by its lead. *)
Definition second_of_three (a b : ascii) : bool :=
  if code a =? 224 then between 160 191 b
  else if code a =? 237 then between 128 159 b
  else between 128 191 b.

(** The second byte of a four-byte sequence, by its lead. *)
Definition second_of_four (a b : ascii) : bool :=
  if code a =? 240 then between 144 191 b
  else if code a =? 244 then between 128 143 b
  else between 128 191 b.

(** Well-formed UTF-8 byte sequences (The Unicode Standard, table 3-7). *)
Fixpoint well_formed_utf8 (l : list ascii) : bool :=
  match l with
  | [] => true
  | a :: l1 =>
      if code a <? 128 then well_formed_utf8 l1
      else
        match l1 with
        | b :: l2 =>
            if between 194 223 a then between 128 191 b && well_formed_utf8 l2
            else
              match l2 with
              | c :: l3 =>
                  if between 224 239 a then
                    second_of_three a b && between 128 191 c && well_formed_utf8 l3
                  else
                    match l3 with
                    | d :: l4 =>
                        between 240 244 a && second_of_four a b && between 128 191 c
                        && between 128 191 d && well_formed_utf8 l4
                    | [] => false
                    end
              | [] => false
              end
        | [] => false
        end
  end.

(** The percent-encoding step of the source on a list of bytes. *)
Definition encoded (l : list ascii) : list ascii :=
  list_ascii_of_string (percent_encode (string_of_list_ascii l)).

(** The world after the [finally] block of [logout]. *)
Definition logged_out (w : World) : World :=
  exec (RouterPush "/login")
    (exec (SetIsAdmin (VBool false))
       (exec (SetIsAuthenticated false)
          (exec (RemoveItem "refresh_token")
             (exec (RemoveItem "access_token") w)))).

(** A task issues at most [n] requests of its own, whatever the answers;
    a task it starts without awaiting it is not counted. *)
Inductive within {A : Type} : nat -> Task A -> Prop :=
| within_Ret n a : within n (Ret a)
| within_Throw n e : within n (Throw e)
| within_Sync n X (op : Op X) k : (forall r, within n (k r)) -> within n (Sync op k)
| within_AwaitJson n r k : (forall x, within n (k x)) -> within n (AwaitJson r k)
| within_AwaitFetch n req k : (forall r, within n (k r)) -> within (S n) (AwaitFetch req k)
| within_Spawn n bg k : within n k -> within n (Spawn bg k).

(** The events of a purge followed by a redirect. *)
Definition purge_redirect_events (w : World) : list Event :=
  [EvRemoveItem "access_token"; EvRemoveItem "refresh_token"]
  ++ (if on_auth_page w then [] else [EvLocationHref "/login"]).

Section Continuations.

Variable API_BASE_URL : string.
Variable NumberToString : decimal -> string.

(** What a call in flight does with the answer to its original request,
    and with the answer to its refresh. *)
Definition awaiting_response (ep : string) (opts : FetchOptions)
    : exn + Response -> Task unit :=
  fun x => (settle Ret x ≫= afterResponse API_BASE_URL NumberToString ep opts) ;; Ret tt.

Definition awaiting_refresh (ep : string) (opts : FetchOptions)
    : exn + Response -> Task unit :=
  fun x =>
    (try_catch (settle Ret x ≫= afterRefresh API_BASE_URL NumberToString ep opts)
       onRefreshError
     ≫= respond NumberToString) ;; Ret tt.

End Continuations.

(* --------------------------------------------------------------------- *)
(** *** Tasks and their requests *)

(** A task that starts no other task: every request it issues is awaited
    by itself. *)
Fixpoint sequential {A : Type} (t : Task A) : Prop :=
  match t with
  | Ret _ | Throw _ => True
  | Sync _ k => forall r, sequential (k r)
  | AwaitFetch _ k => forall r, sequential (k r)
  | AwaitJson _ k => forall x, sequential (k x)
  | Spawn _ _ => False
  end.

(** The request a suspended task waits for. *)
Definition pending_request {A : Type} (o : Outcome A) : list Request :=
  match o with
  | Finished _ _ => []
  | Blocked req _ _ => [req]
  end.

(* --------------------------------------------------------------------- *)
(** *** The auth provider *)

(** [decoded.is_admin || false] *)
Definition is_admin_of (decoded : value) : value :=
  match get_prop decoded "is_admin" with
  | inr v => js_or v (VBool false)
  | inl _ => VBool false
  end.

(** The world after [setIsAuthenticated(false); setIsAdmin(false)]. *)
Definition signed_off (w : World) : World :=
  exec (SetIsAdmin (VBool false)) (exec (SetIsAuthenticated false) w).

(** The options of [apiClient.refreshToken]. *)
Definition refresh_options (refreshToken : string) : FetchOptions :=
  mkOptions (Some "POST") (Some (stringify_refresh_body refreshToken)) None.

Section RefreshAuthParts.

Variable NumberToString : decimal -> string.

(** [refreshAuth] after [await apiClient.refreshToken(refreshToken)], to
    the end of the [try] block. *)
Definition refreshAuth_then (response : value) : Task unit :=
  access_token ← getProp response "access_token";
  setItem "access_token" (ToString NumberToString access_token) ;;
  refresh_token ← getProp response "refresh_token";
  (if truthy refresh_token
   then setItem "refresh_token" (ToString NumberToString refresh_token)
   else Ret tt) ;;
  let decoded := decodeToken_value access_token in
  if truthy decoded then
    setIsAuthenticated true ;;
    is_admin ← getProp decoded "is_admin";
    setIsAdmin (js_or is_admin (VBool false))
  else Ret tt.

(** The [catch] block of [refreshAuth]. *)
Definition refreshAuth_catch : Task unit :=
  removeItem "access_token" ;;
  removeItem "refresh_token" ;;
  setIsAuthenticated false ;;
  setIsAdmin (VBool false).

End RefreshAuthParts.

(** A decoded token that [checkAuth] does not accept at time [now]
    (milliseconds): nothing was decoded, or the claims have no [exp], or
    their [exp], a whole number of seconds, is not later than [now]. *)
Definition stale (now : Z) (decoded : value) : Prop :=
  decoded = VNull \/
  exists claims, decoded = VObj claims /\
    (lookup_field "exp" claims = None \/
     exists secs, lookup_field "exp" claims = Some (VNum (dec_of_Z secs)) /\
                  secs * 1000 <= now).

(** The numbers of the model are exact decimals, those of the code are
    doubles.  The two agree on the members of a decoded token that the
    code reads when [exp] is a whole number (of seconds) and [is_admin]
    is a boolean; a payload that does not decode, or that lacks the
    member, is the same on both sides. *)
Definition whole_exp (decoded : value) : Prop :=
  decoded = VNull \/
  exists claims, decoded = VObj claims /\
    (lookup_field "exp" claims = None \/
     exists secs, lookup_field "exp" claims = Some (VNum (dec_of_Z secs))).

Definition boolean_admin (decoded : value) : Prop :=
  decoded = VNull \/
  exists claims, decoded = VObj claims /\
    (lookup_field "is_admin" claims = None \/
     exists a, lookup_field "is_admin" claims = Some (VBool a)).

(** A parameter of a query as the receiving side reads it: a text member
    is there when it is a non-empty string, a number member whenever it
    is defined. *)
Definition read_text (name : string) (member : option string) : URLSearchParams :=
  match member with
  | Some s => if String.eqb s "" then [] else [(name, s)]
  | None => []
  end.

Definition read_number (NumberToString : decimal -> string) (name : string)
    (member : option decimal) : URLSearchParams :=
  match member with
  | Some n => [(name, NumberToString n)]
  | None => []
  end.

(** A text that reads the same inside a query written without encoding:
    it has no [&] (the separator), no [+] (read as a space), no [%] (the
    start of an escape) and no [#] (the end of the query). *)
Definition query_safe (s : string) : bool :=
  free_of "&" s && free_of "+" s && free_of "%" s && free_of "#" s.

(* ===================================================================== *)
(** ** A session of the admin panel *)
(* ===================================================================== *)

(** The default of [API_BASE_URL]. *)
Definition base_url : string := "http://localhost:8080".

(** The payload of an administrator's token, as JSON text. *)
Definition admin_claims_text : string :=
  "{" +:+ quote_json_string "sub" +:+ ":" +:+ quote_json_string "123456789" +:+ ","
  +:+ quote_json_string "is_admin" +:+ ":true,"
  +:+ quote_json_string "exp" +:+ ":1700000600}".

(** A token of three segments; its payload is [admin_claims_text]
    encoded in base64url. *)
Definition admin_token : string :=
  "eyJhbGciOiJIUzI1NiIsInR5cCI6IkpXVCJ9" +:+ "." +:+
  "eyJzdWIiOiIxMjM0NTY3ODkiLCJpc19hZG1pbiI6dHJ1ZSwiZXhwIjoxNzAwMDAwNjAwfQ" +:+ "." +:+
  "c2ln".

Definition admin_claims : list (string * value) :=
  [("sub", VStr "123456789"); ("is_admin", VBool true); ("exp", VNum (Dec 1700000600 0))].

(** Ten minutes before [admin_token] expires, on the dashboard. *)
Definition signed_in : World :=
  mkWorld
    (Some (mkBrowser {[ "access_token" := admin_token; "refresh_token" := "r1" ]} "/dashboard"))
    initial_session 1700000000000 [] [].

Definition signed_in_browser : Browser :=
  mkBrowser {[ "access_token" := admin_token; "refresh_token" := "r1" ]} "/dashboard".

(** The same without a refresh token, and with an empty store. *)
Definition no_refresh_token_browser : Browser :=
  mkBrowser {[ "access_token" := admin_token ]} "/dashboard".

Definition no_refresh_token : World :=
  mkWorld (Some no_refresh_token_browser) initial_session 1700000000000 [] [].

Definition signed_out_browser : Browser := mkBrowser ∅ "/login".

Definition signed_out : World :=
  mkWorld (Some signed_out_browser) initial_session 1700000000000 [] [].

Definition unauthorized : Response :=
  mkResponse 401 "Unauthorized" (BodyJson (VObj [("detail", VStr "Token has expired")])).

Definition forbidden : Response :=
  mkResponse 403 "Forbidden" (BodyJson (VObj [("detail", VStr "Admins only")])).

(** A refresh response in the envelope, with a rotated refresh token. *)
Definition refresh_granted : Response :=
  mkResponse 200 "OK"
    (BodyJson (VObj [("status", VStr "success");
                     ("data", VObj [("access_token", VStr "fresh");
                                    ("refresh_token", VStr "r2")])])).

(** A refresh response without an envelope: the tokens at the top level,
    [data] and [refresh_token] both [null]. *)
Definition refresh_granted_bare : Response :=
  mkResponse 200 "OK"
    (BodyJson (VObj [("access_token", VStr "fresh"); ("refresh_token", VNull);
                     ("data", VNull)])).

Definition refresh_refused : Response :=
  mkResponse 401 "Unauthorized" (BodyJson (VObj [("detail", VStr "Invalid refresh token")])).

Definition cards_page : Response :=
  mkResponse 200 "OK" (BodyJson (VObj [("status", VStr "success"); ("data", VArr [])])).

(** Failure responses whose body is the JSON text [null]. *)
Definition unauthorized_null : Response := mkResponse 401 "Unauthorized" (BodyJson VNull).
Definition forbidden_null : Response := mkResponse 403 "Forbidden" (BodyJson VNull).

(** [fetch] rejects: the backend cannot be reached. *)
Definition unreachable : exn + Response :=
  inl (JsError (JsErr "TypeError" "Failed to fetch")).

Definition get_cards : Task value :=
  apiRequest base_url NumberToString_std "/api/cards/" no_options.

Definition get_pools : Task value :=
  apiRequest base_url NumberToString_std "/api/card-pools/" no_options.

(** Two calls in flight, both answered 401. *)
Definition two_calls_after_401 : World :=
  deliver 0 (inr unauthorized)
    (deliver 0 (inr unauthorized) (start get_pools (start get_cards signed_in))).

(** Then both refreshes are refused. *)
Definition two_calls_refused : World :=
  deliver 0 (inr refresh_refused) (deliver 0 (inr refresh_refused) two_calls_after_401).

Definition is_refresh_call (e : Event) : bool :=
  match e with
  | EvFetch req => String.eqb (req_url req) (base_url +:+ "/api/auth/refresh")
  | _ => false
  end.

(** The same session rendered on the server, ten minutes after the token
    has expired, and two hundred seconds before it expires. *)
Definition on_server : World := mkWorld None initial_session 1700000000000 [] [].

Definition expired_session : World :=
  mkWorld (Some signed_in_browser) initial_session 1700001200000 [] [].

Definition expiring_session : World :=
  mkWorld (Some signed_in_browser) initial_session 1700000400000 [] [].

(** A store whose access token has expired and that holds no refresh
    token. *)
Definition expired_without_refresh : World :=
  mkWorld (Some no_refresh_token_browser) initial_session 1700001200000 [] [].

(** On the callback page, before any token is stored. *)
Definition callback_browser : Browser := mkBrowser ∅ "/auth/discord/callback".

Definition on_callback_page : World :=
  mkWorld (Some callback_browser) initial_session 1700000000000 [] [].

(** Answers of the backend: the tokens as the auth endpoints return them
    at the top level of the body, the login URL, a failure whose body is
    not JSON. *)
Definition tokens_granted : Response :=
  mkResponse 200 "OK"
    (BodyJson (VObj [("access_token", VStr admin_token); ("refresh_token", VStr "r2");
                     ("token_type", VStr "bearer")])).

Definition tokens_missing : Response :=
  mkResponse 200 "OK" (BodyJson (VObj [("status", VStr "success")])).

Definition login_url : Response :=
  mkResponse 200 "OK"
    (BodyJson (VObj [("authorization_url", VStr "https://discord.com/oauth2/authorize")])).

Definition bad_gateway : Response :=
  mkResponse 502 "Bad Gateway"
    (BodyFails (JsErr "SyntaxError" "Unexpected token '<'")).

(** A refresh response in the envelope that carries [admin_token]. *)
Definition refresh_granted_admin : Response :=
  mkResponse 200 "OK"
    (BodyJson (VObj [("status", VStr "success");
                     ("data", VObj [("access_token", VStr admin_token)])])).

(** An answer without content, and the cards of pool 7. *)
Definition no_content : Response :=
  mkResponse 204 "No Content" (BodyFails (JsErr "SyntaxError" "Unexpected end of JSON input")).

Definition get_pool_cards : Task value :=
  apiClient_getCardPoolCards base_url NumberToString_std (dec_of_Z 7).

(* ===================================================================== *)
(** ** The platform functions on known inputs *)
(* ===================================================================== *)

(** What a browser answers on the same inputs; [None] where it throws. *)

Example atob_known :
  atob "YWJj" = Some "abc" /\ atob "YWI=" = Some "ab" /\ atob "YQ==" = Some "a" /\
  atob "YWI" = Some "ab" /\ atob "e30" = Some "{}" /\ atob "" = Some "" /\
  atob " Y Q= = " = Some "a".
Proof. repeat split. Qed.

Example atob_throws :
  atob "Y" = None /\ atob "YQ=" = None /\ atob "YQ===" = None /\
  atob "Y=Q=" = None /\ atob "e30." = None /\ atob "e-_0" = None.
Proof. repeat split. Qed.

Example percent_encode_known :
  percent_encode "{}" = "%7b%7d" /\
  percent_encode (string_of_list_ascii [chr 10; chr 226; chr 130; chr 172]) = "%0a%e2%82%ac".
Proof. repeat split. Qed.

Example decodeURIComponent_known :
  decodeURIComponent "%7b%7D" = Some "{}" /\ decodeURIComponent "a%20b" = Some "a b" /\
  decodeURIComponent "%e2%82%ac" = Some (string_of_list_ascii [chr 226; chr 130; chr 172]).
Proof. repeat split. Qed.

(** An overlong form, a surrogate, a lone continuation byte, a cut
    escape, a code point above U+10FFFF. *)
Example decodeURIComponent_throws :
  decodeURIComponent "%c0%80" = None /\ decodeURIComponent "%ed%a0%80" = None /\
  decodeURIComponent "%80" = None /\ decodeURIComponent "%e2%82" = None /\
  decodeURIComponent "%" = None /\ decodeURIComponent "%zz" = None /\
  decodeURIComponent "%f4%90%80%80" = None.
Proof. repeat split. Qed.

Example JSON_parse_known :
  JSON_parse "null" = Some VNull /\ JSON_parse "{}" = Some (VObj []) /\
  JSON_parse " [1, 2.50, -3e2, 0.001, 1E+2, -0] "
    = Some (VArr [VNum (Dec 1 0); VNum (Dec 25 (-1)); VNum (Dec (-300) 0);
                  VNum (Dec 1 (-3)); VNum (Dec 100 0); VNum (Dec 0 0)]) /\
  JSON_parse ("{" +:+ quote_json_string "a" +:+ ":1, " +:+ quote_json_string "a"
              +:+ " : [true, false, null]}")
    = Some (VObj [("a", VNum (Dec 1 0)); ("a", VArr [VBool true; VBool false; VNull])]) /\
  JSON_parse (String dquote ("A\u00e9\ud83d\ude00\/" +:+ String dquote EmptyString))
    = Some (VStr (string_of_list_ascii
                    [chr 65; chr 195; chr 169; chr 240; chr 159; chr 152; chr 128; chr 47])).
Proof. repeat split. Qed.

Example JSON_parse_throws :
  JSON_parse "" = None /\ JSON_parse "01" = None /\ JSON_parse "1." = None /\
  JSON_parse ".5" = None /\ JSON_parse "-" = None /\ JSON_parse "tru" = None /\
  JSON_parse "1 2" = None /\ JSON_parse "[1,]" = None /\ JSON_parse "{,}" = None /\
  JSON_parse "{a:1}" = None /\ JSON_parse "undefined" = None.
Proof. repeat split. Qed.

(** With a member written twice, the last one is the one read. *)
Example lookup_field_last :
  lookup_field "a" [("a", VNum (Dec 1 0)); ("b", VNull); ("a", VNum (Dec 2 0))]
    = Some (VNum (Dec 2 0)).
Proof. reflexivity. Qed.

Example NumberToString_known :
  NumberToString_std (Dec 1700000600 0) = "1700000600" /\
  NumberToString_std (Dec 15 (-1)) = "1.5" /\ NumberToString_std (Dec (-5) (-3)) = "-0.005" /\
  NumberToString_std (Dec 0 0) = "0" /\ NumberToString_std (Dec 1 20) = "100000000000000000000" /\
  NumberToString_std (Dec 1 21) = "1e+21" /\ NumberToString_std (Dec 1 (-7)) = "1e-7" /\
  NumberToString_std (Dec 123 (-6)) = "0.000123".
Proof. vm_compute. repeat split. Qed.

Example StringToNumber_known :
  StringToNumber_std "12" = Fin (Dec 12 0) /\ StringToNumber_std " 1.5 " = Fin (Dec 15 (-1)) /\
  StringToNumber_std "" = Fin (Dec 0 0) /\ StringToNumber_std "0x1f" = Fin (Dec 31 0) /\
  StringToNumber_std "1e3" = Fin (Dec 1000 0) /\ StringToNumber_std "-Infinity" = Inf true /\
  StringToNumber_std "abc" = NaN /\ StringToNumber_std "1 2" = NaN.
Proof. vm_compute. repeat split. Qed.

(** The two copies of the decoder on the administrator's token. *)
Example decodeToken_admin :
  b64url_encode admin_claims_text
    = "eyJzdWIiOiIxMjM0NTY3ODkiLCJpc19hZG1pbiI6dHJ1ZSwiZXhwIjoxNzAwMDAwNjAwfQ" /\
  decodeToken admin_token = VObj admin_claims /\
  parseJwt true admin_token = VObj admin_claims /\
  parseJwt false admin_token = VNull.
Proof. vm_compute. repeat split. Qed.

(* ===================================================================== *)
(** ** Reasoning about tasks *)
(* ===================================================================== *)

Lemma advance_bind {A B : Type} (t : Task A) (f : A -> Task B) (w : World) :
  advance (t ≫= f) w =
  match advance t w with
  | Finished (inr a) w' => advance (f a) w'
  | Finished (inl e) w' => Finished (inl e) w'
  | Blocked req k w' => Blocked req (fun r => k r ≫= f) w'
  end.
Proof.
  revert B f w.
  induction t as [A a|A e|A X op k IH|A req k IH|A r k IH|A bg _ k IHk];
    intros B f w; cbn.
  - reflexivity.
  - reflexivity.
  - destruct (do_op op w) as [r w']. apply IH.
  - reflexivity.
  - apply IH.
  - destruct (advance bg w); apply IHk.
Qed.

Lemma advance_try_catch {A : Type} (t : Task A) (h : exn -> Task A) (w : World) :
  advance (try_catch t h) w =
  match advance t w with
  | Finished (inr a) w' => Finished (inr a) w'
  | Finished (inl e) w' => advance (h e) w'
  | Blocked req k w' => Blocked req (fun r => try_catch (k r) h) w'
  end.
Proof.
  revert h w.
  induction t as [A a|A e|A X op k IH|A req k IH|A r k IH|A bg _ k IHk];
    intros h w; cbn.
  - reflexivity.
  - reflexivity.
  - destruct (do_op op w) as [r w']. apply IH.
  - reflexivity.
  - apply IH.
  - destruct (advance bg w); apply IHk.
Qed.

Lemma advance_settle {A : Type} (r : exn + A) (w : World) :
  advance (settle Ret r) w = Finished r w.
Proof. destruct r; reflexivity. Qed.

Lemma advance_perform {X : Type} (op : Op X) (w : World) :
  advance (perform op) w = Finished (fst (do_op op w)) (exec op w).
Proof.
  unfold perform, exec. cbn. destruct (do_op op w) as [r w']. apply advance_settle.
Qed.

Lemma advance_fetch (req : Request) (w : World) :
  advance (fetch req) w = Blocked req (settle Ret) (log (EvFetch req) w).
Proof. reflexivity. Qed.

Lemma advance_awaitJson (r : Response) (w : World) :
  advance (awaitJson r) w = Finished (json_result r) w.
Proof. unfold awaitJson. cbn. apply advance_settle. Qed.

Lemma advance_getProp (v : value) (k : string) (w : World) :
  advance (getProp v k) w = Finished (get_prop v k) w.
Proof. apply advance_settle. Qed.

Lemma run_unfold {A : Type} (script : list (exn + Response)) (t : Task A) (w : World) :
  run script t w =
  match advance t w with
  | Finished r w' => Finished r w'
  | Blocked req k w' =>
      match script with
      | [] => Blocked req k w'
      | r :: script' => run script' (k r) w'
      end
  end.
Proof. destruct script; reflexivity. Qed.

Lemma run_finished {A : Type} script (t : Task A) w r w' :
  advance t w = Finished r w' -> run script t w = Finished r w'.
Proof. intros H. rewrite run_unfold, H. reflexivity. Qed.

Lemma run_blocked {A : Type} r script (t : Task A) w req k w' :
  advance t w = Blocked req k w' -> run (r :: script) t w = run script (k r) w'.
Proof. intros H. rewrite run_unfold, H. reflexivity. Qed.

(** Answers that are never asked for do not matter. *)
Lemma run_finished_app {A : Type} script extra (t : Task A) w r w' :
  run script t w = Finished r w' -> run (script ++ extra) t w = Finished r w'.
Proof.
  revert t w. induction script as [|x script IH]; intros t w; rewrite !run_unfold.
  - destruct (advance t w); [tauto | discriminate].
  - cbn [app]. destruct (advance t w); [tauto | apply IH].
Qed.

(** *** Bounds on the number of requests *)

Lemma within_mono {A : Type} (t : Task A) n m :
  within n t -> (n <= m)%nat -> within m t.
Proof.
  intros H. revert m. induction H; intros m Hm; try (constructor; auto; fail).
  destruct m as [|m]; [lia|]. constructor. intros r. apply H0. lia.
Qed.

Lemma within_bind {A B : Type} (t : Task A) (f : A -> Task B) n m :
  within n t -> (forall a, within m (f a)) -> within (n + m) (t ≫= f).
Proof.
  intros H Hf. induction H; cbn; try (constructor; auto; fail).
  - apply within_mono with m; [apply Hf | lia].
Qed.

Lemma within_try_catch {A : Type} (t : Task A) (h : exn -> Task A) n m :
  within n t -> (forall e, within m (h e)) -> within (n + m) (try_catch t h).
Proof.
  intros H Hh. induction H; cbn; try (constructor; auto; fail).
  - apply within_mono with m; [apply Hh | lia].
Qed.

Lemma within_settle {A X : Type} (k : X -> Task A) (r : exn + X) n :
  (forall x, within n (k x)) -> within n (settle k r).
Proof. intros H. destruct r; cbn; [constructor | apply H]. Qed.

Lemma within_perform {X : Type} (op : Op X) n : within n (perform op).
Proof. constructor. intros r. apply within_settle. constructor. Qed.

Lemma within_fetch (req : Request) : within 1 (fetch req).
Proof. constructor. intros r. apply within_settle. constructor. Qed.

Lemma within_awaitJson (r : Response) n : within n (awaitJson r).
Proof. constructor. intros x. apply within_settle. constructor. Qed.

Lemma within_getProp (v : value) (k : string) n : within n (getProp v k).
Proof. apply within_settle. constructor. Qed.

(** A task that issues at most [n] requests settles once [n] answers are
    available. *)
Lemma within_run {A : Type} (t : Task A) n :
  within n t ->
  forall script w, (n <= length script)%nat ->
  exists r w', run script t w = Finished r w'.
Proof.
  induction 1 as [n a|n e|n X op k _ IH|n r k _ IH|n req k _ IH|n bg k _ IH];
    intros script w Hlen.
  - exists (inr a), w. destruct script; reflexivity.
  - exists (inl e), w. destruct script; reflexivity.
  - destruct (IH (fst (do_op op w)) script (snd (do_op op w)) Hlen) as (r & w' & Hr).
    exists r, w'. rewrite run_unfold in Hr |- *. cbn.
    destruct (do_op op w) as [x w1]. exact Hr.
  - destruct (IH (json_result r) script w Hlen) as (r' & w' & Hr).
    exists r', w'. rewrite run_unfold in Hr |- *. exact Hr.
  - destruct script as [|x script]; [cbn in Hlen; lia|].
    destruct (IH x script (log (EvFetch req) w)) as (r & w' & Hr); [cbn in Hlen; lia|].
    exists r, w'. exact Hr.
  - rewrite run_unfold. cbn.
    destruct (advance bg w) as [rb wb|reqb kb wb].
    + destruct (IH script wb Hlen) as (r & w' & Hr). exists r, w'.
      rewrite run_unfold in Hr. exact Hr.
    + destruct (IH script (add_background (reqb, kb) wb) Hlen) as (r & w' & Hr).
      exists r, w'. rewrite run_unfold in Hr. exact Hr.
Qed.

(* ===================================================================== *)
(** ** The gateway, step by step *)
(* ===================================================================== *)

Lemma advance_Ret {A : Type} (a : A) (w : World) : advance (Ret a) w = Finished (inr a) w.
Proof. reflexivity. Qed.

Lemma advance_Throw {A : Type} (e : exn) (w : World) :
  advance (@Throw A e) w = Finished (inl e) w.
Proof. reflexivity. Qed.

Lemma truthy_VStr (s : string) : s <> "" -> truthy (VStr s) = true.
Proof.
  intros Hs. cbn. destruct (String.eqb_spec s ""); [contradiction | reflexivity].
Qed.

Lemma since_app (tr new : list Event) : since tr (tr ++ new) = new.
Proof. unfold since. apply drop_app_length. Qed.

Lemma since_refl (tr : list Event) : since tr tr = [].
Proof. unfold since. apply drop_all. Qed.

Ltac unfold_ops :=
  unfold typeofWindow, getItem, setItem, removeItem, locationPathname, setLocationHref,
    dispatchEvent, dateNow, setIsAuthenticated, setIsAdmin, setIsLoading, routerPush in *.

Ltac adv_step :=
  first [ rewrite advance_bind | rewrite advance_try_catch | rewrite advance_awaitJson
        | rewrite advance_getProp | rewrite advance_perform | rewrite advance_fetch
        | rewrite advance_Ret | rewrite advance_Throw ].

Ltac adv :=
  repeat (adv_step; cbv beta iota;
          cbn [fst snd exec do_op window session clock trace background
               localStorage pathname log set_storage set_session]).

Ltac world_simpl :=
  cbn [fst snd exec do_op window session clock trace background
       localStorage pathname log set_storage set_session add_background].

Ltac world_unfold :=
  cbv [exec log set_storage set_session add_background set_background do_op fst snd
       window session clock trace background localStorage pathname].

Ltac open_world w Hw :=
  let win := fresh "win" in
  let ses := fresh "ses" in
  let clk := fresh "clk" in
  let tr := fresh "tr" in
  let bg := fresh "bg" in
  destruct w as [win ses clk tr bg]; cbn in Hw; subst win.

Section GatewayFacts.

Variable API_BASE_URL : string.
Variable NumberToString : decimal -> string.

Abbreviation ToString' := (ToString NumberToString).
Abbreviation build_request' := (build_request API_BASE_URL NumberToString).
Abbreviation doRequest' := (doRequest API_BASE_URL NumberToString).
Abbreviation refresh_request' := (refresh_request API_BASE_URL).
Abbreviation afterRefresh' := (afterRefresh API_BASE_URL NumberToString).
Abbreviation refreshAndRetry' := (refreshAndRetry API_BASE_URL NumberToString).
Abbreviation throwApiError' := (throwApiError NumberToString).
Abbreviation on401' := (on401 API_BASE_URL NumberToString).
Abbreviation respond' := (respond NumberToString).
Abbreviation afterResponse' := (afterResponse API_BASE_URL NumberToString).
Abbreviation apiRequest' := (apiRequest API_BASE_URL NumberToString).

Lemma advance_doRequest ep opts tok w :
  advance (doRequest' ep opts tok) w =
  Blocked (build_request' ep opts (if truthy tok then tok else current_token w))
    (settle Ret)
    (log (EvFetch (build_request' ep opts (if truthy tok then tok else current_token w))) w).
Proof.
  unfold doRequest, current_token. destruct (truthy tok) eqn:E; cbn.
  - reflexivity.
  - destruct (window w) as [b|] eqn:Hw; cbn; rewrite ?Hw; reflexivity.
Qed.

Lemma advance_redirectToLogin w b :
  window w = Some b ->
  advance redirectToLogin w = Finished (inr tt) (redirected w).
Proof.
  intros Hw. open_world w Hw.
  unfold redirectToLogin, redirected, on_auth_page. unfold_ops. adv.
  destruct (startsWith (pathname b) "/login"); cbn [negb andb orb]; adv; [reflexivity|].
  destruct (startsWith (pathname b) "/auth"); cbn [negb andb orb]; adv; reflexivity.
Qed.

Lemma advance_purgeTokens w b :
  window w = Some b ->
  advance purgeTokens w = Finished (inr tt) (purged w).
Proof.
  intros Hw. open_world w Hw. unfold purgeTokens, purged. unfold_ops. adv. reflexivity.
Qed.

(** The result of [respond] depends on the response alone. *)
Lemma respond_settles r : exists res, forall w, advance (respond' r) w = Finished res w.
Proof.
  unfold respond. destruct (ok r); cbn.
  - destruct (status r =? 204).
    + eexists. intros w. reflexivity.
    + eexists. intros w. cbn. apply advance_settle.
  - destruct (json_result r) as [e|errorData]; cbn.
    + destruct (status r =? 403); eexists; intros w; reflexivity.
    + destruct (status r =? 403); unfold throwApiError, getProp;
        destruct (get_prop errorData "detail"); eexists; intros w; reflexivity.
Qed.

Lemma respond_world r w : outcome_world (advance (respond' r) w) = w.
Proof. destruct (respond_settles r) as [res H]. rewrite H. reflexivity. Qed.

Lemma run_apiRequest x script ep opts w :
  run (x :: script) (apiRequest' ep opts) w =
  run script (settle (afterResponse' ep opts) x)
    (log (EvFetch (build_request' ep opts (current_token w))) w).
Proof.
  unfold apiRequest. rewrite run_unfold, advance_bind, advance_doRequest. cbn [truthy].
  destruct x; reflexivity.
Qed.

Lemma advance_on401_refresh ep opts r w b rt :
  window w = Some b ->
  localStorage b !! "refresh_token" = Some rt ->
  rt <> "" ->
  advance (on401' ep opts r) w =
  Blocked (refresh_request' rt)
    (fun x => try_catch (settle Ret x ≫= afterRefresh' ep opts) onRefreshError)
    (log (EvFetch (refresh_request' rt)) w).
Proof.
  intros Hw Hrt Hne. open_world w Hw.
  unfold on401, refreshAndRetry. unfold_ops.
  adv. destruct (json_result r) as [e|errorData]; adv; rewrite Hrt; cbn [from_option];
    rewrite (truthy_VStr _ Hne); adv; reflexivity.
Qed.

Lemma run_afterResponse_refresh x script ep opts r w b rt :
  status r = 401 ->
  window w = Some b ->
  localStorage b !! "refresh_token" = Some rt ->
  rt <> "" ->
  run (x :: script) (afterResponse' ep opts r) w =
  run script (try_catch (settle (afterRefresh' ep opts) x) onRefreshError ≫= respond')
    (log (EvFetch (refresh_request' rt)) w).
Proof.
  intros Hs Hw Hrt Hne. rewrite run_unfold. unfold afterResponse. rewrite Hs.
  cbn [Z.eqb Pos.eqb].
  rewrite advance_bind, (advance_on401_refresh ep opts r w b rt Hw Hrt Hne).
  destruct x; reflexivity.
Qed.

(** *** Bounds on the requests of one call *)

Lemma within_doRequest ep opts tok : within 1 (doRequest' ep opts tok).
Proof.
  unfold doRequest. apply (within_bind _ _ 0 1).
  - destruct (truthy tok); [constructor|].
    apply (within_bind _ _ 0 0); [apply within_perform|].
    intros [|]; [apply within_perform | constructor].
  - intros token. apply within_fetch.
Qed.

Lemma within_redirectToLogin : within 0 redirectToLogin.
Proof.
  unfold redirectToLogin. apply (within_bind _ _ 0 0); [apply within_perform|].
  intros p. destruct (_ && _); [apply within_perform | constructor].
Qed.

Lemma within_purgeTokens : within 0 purgeTokens.
Proof.
  unfold purgeTokens. apply (within_bind _ _ 0 0); [apply within_perform|].
  intros _. apply within_perform.
Qed.

Lemma within_throwApiError {A : Type} errorData r :
  within 0 (throwApiError' errorData r : Task A).
Proof.
  unfold throwApiError. apply (within_bind _ _ 0 0); [apply within_getProp|].
  intros detail. constructor.
Qed.

Lemma within_errorData r :
  within 0 (try_catch (awaitJson r) (fun _ => Ret (VObj []))).
Proof. apply (within_try_catch _ _ 0 0); [apply within_awaitJson | constructor]. Qed.

Lemma within_afterRefresh ep opts rr : within 1 (afterRefresh' ep opts rr).
Proof.
  unfold afterRefresh. destruct (ok rr).
  - apply (within_bind _ _ 0 1); [apply within_awaitJson|]. intros responseData.
    apply (within_bind _ _ 0 1); [apply within_getProp|]. intros data.
    apply (within_bind _ _ 0 1); [apply within_getProp|]. intros access_token.
    apply (within_bind _ _ 0 1); [apply within_getProp|]. intros refresh_token.
    destruct (truthy access_token).
    + apply (within_bind _ _ 0 1); [apply within_perform|]. intros _.
      apply (within_bind _ _ 0 1).
      { destruct (truthy refresh_token); [apply within_perform | constructor]. }
      intros _. apply (within_bind _ _ 0 1); [apply within_perform|]. intros _.
      apply within_doRequest.
    + apply (within_bind _ _ 0 1); [apply within_purgeTokens|]. intros _.
      apply (within_bind _ _ 0 1); [apply within_redirectToLogin|]. intros _.
      constructor.
  - apply (within_bind _ _ 0 1); [apply within_errorData|]. intros errorData.
    apply (within_bind _ _ 0 1); [apply within_purgeTokens|]. intros _.
    apply (within_bind _ _ 0 1); [apply within_redirectToLogin|]. intros _.
    apply (within_bind _ _ 0 1); [apply within_getProp|]. intros detail. constructor.
Qed.

Lemma within_onRefreshError e : within 0 (onRefreshError e).
Proof.
  unfold onRefreshError. apply (within_bind _ _ 0 0); [apply within_purgeTokens|].
  intros _. apply (within_bind _ _ 0 0); [apply within_redirectToLogin|].
  intros _. constructor.
Qed.

Lemma within_on401 ep opts r : within 2 (on401' ep opts r).
Proof.
  unfold on401. apply (within_bind _ _ 0 2); [apply within_errorData|]. intros errorData.
  apply (within_bind _ _ 0 2); [apply within_perform|]. intros [|].
  - apply (within_bind _ _ 0 2); [apply within_perform|]. intros refreshToken.
    destruct (truthy refreshToken).
    + apply (within_try_catch _ _ 2 0); [|apply within_onRefreshError].
      unfold refreshAndRetry. apply (within_bind _ _ 1 1); [apply within_fetch|].
      intros rr. apply within_afterRefresh.
    + apply (within_bind _ _ 0 2); [apply within_perform|]. intros _.
      apply (within_bind _ _ 0 2); [apply within_redirectToLogin|]. intros _.
      apply within_mono with 0%nat; [apply within_throwApiError | lia].
  - apply within_mono with 0%nat; [apply within_throwApiError | lia].
Qed.

Lemma within_respond r : within 0 (respond' r).
Proof.
  unfold respond. destruct (negb (ok r)).
  - apply (within_bind _ _ 0 0); [apply within_errorData|]. intros errorData.
    destruct (status r =? 403); [|apply within_throwApiError].
    apply (within_bind _ _ 0 0); [apply within_getProp|]. intros detail. constructor.
  - destruct (status r =? 204); [constructor | apply within_awaitJson].
Qed.

(** One call issues at most three requests: the original one, the refresh
    and the retry. *)
Lemma within_apiRequest ep opts : within 3 (apiRequest' ep opts).
Proof.
  unfold apiRequest. apply (within_bind _ _ 1 2); [apply within_doRequest|].
  intros response. unfold afterResponse. apply (within_bind _ _ 2 0).
  - destruct (status response =? 401); [apply within_on401 | constructor].
  - intros r. apply within_respond.
Qed.

End GatewayFacts.

(* ===================================================================== *)
(** ** The gateway: one call *)
(* ===================================================================== *)

(* ===================================================================== *)
(** ** The body of a refresh request *)
(* ===================================================================== *)

Lemma list_ascii_of_string_app s t :
  list_ascii_of_string (s +:+ t) = list_ascii_of_string s ++ list_ascii_of_string t.
Proof.
  induction s as [|c s IH]; [reflexivity|].
  change (String c s +:+ t) with (String c (s +:+ t)). cbn [list_ascii_of_string].
  rewrite IH. reflexivity.
Qed.

(** A code unit below the surrogates is encoded by itself, whatever
    follows it. *)
Lemma encode_items_code_unit u items :
  is_high_surrogate u = false ->
  encode_items (CodeUnit u :: items) = utf8_encode u ++ encode_items items.
Proof.
  intros H. destruct items as [|[c|lo] items]; cbn [encode_items]; try reflexivity.
  rewrite H. reflexivity.
Qed.

(** One quoted character is read back as one item that stands for the
    character. *)
Lemma parse_chars_quote_char c :
  exists item,
    (forall l, parse_chars (list_ascii_of_string (quote_char c) ++ l)
               = match parse_chars l with
                 | Some (items, rest) => Some (item :: items, rest)
                 | None => None
                 end) /\
    (forall items, encode_items (item :: items) = c :: encode_items items).
Proof.
  exists (if (code c <? 32) && negb (existsb (Z.eqb (code c)) [8; 9; 10; 12; 13])
          then CodeUnit (code c) else RawByte c).
  destruct c as [[] [] [] [] [] [] [] []];
    (split; [intros l; reflexivity
            | intros items; first [ reflexivity
                                  | apply encode_items_code_unit; reflexivity ]]).
Qed.

Lemma parse_string_quote_chars s rest :
  parse_string (list_ascii_of_string (quote_chars s) ++ dquote :: rest) = Some (s, rest).
Proof.
  unfold parse_string.
  assert (H : exists items,
             parse_chars (list_ascii_of_string (quote_chars s) ++ dquote :: rest)
             = Some (items, rest) /\
             encode_items items = list_ascii_of_string s).
  { induction s as [|c s (items & Hp & He)].
    - exists []. split; reflexivity.
    - destruct (parse_chars_quote_char c) as (item & Hitem & Henc).
      exists (item :: items). cbn [quote_chars].
      rewrite list_ascii_of_string_app. rewrite <- List.app_assoc, Hitem, Hp, Henc, He.
      split; reflexivity. }
  destruct H as (items & -> & ->).
  now rewrite string_of_list_ascii_of_string.
Qed.

Lemma quote_json_string_chars s l :
  list_ascii_of_string (quote_json_string s) ++ l
  = dquote :: list_ascii_of_string (quote_chars s) ++ dquote :: l.
Proof.
  unfold quote_json_string.
  change (String dquote (quote_chars s) +:+ String dquote EmptyString)
    with (String dquote (quote_chars s +:+ String dquote EmptyString)).
  cbn [list_ascii_of_string]. rewrite list_ascii_of_string_app.
  cbn [list_ascii_of_string app]. rewrite <- List.app_assoc. reflexivity.
Qed.

Lemma parse_value_quoted fuel s rest :
  parse_value (S fuel) (list_ascii_of_string (quote_json_string s) ++ rest)
  = Some (VStr s, rest).
Proof.
  rewrite quote_json_string_chars.
  change (parse_value (S fuel) (dquote :: ?l)) with
    (match parse_string l with Some (s, r) => Some (VStr s, r) | None => None end).
  now rewrite parse_string_quote_chars.
Qed.

Lemma JSON_parse_refresh_body refreshToken :
  JSON_parse (stringify_refresh_body refreshToken)
  = Some (VObj [("refresh_token", VStr refreshToken)]).
Proof.
  unfold JSON_parse, stringify_refresh_body.
  set (key := quote_json_string "refresh_token").
  change ("{" +:+ key +:+ ":" +:+ quote_json_string refreshToken +:+ "}")
    with (String "{" (key +:+ ":" +:+ quote_json_string refreshToken +:+ "}")).
  cbn [list_ascii_of_string length].
  rewrite list_ascii_of_string_app.
  change (":" +:+ quote_json_string refreshToken +:+ "}")
    with (String ":" (quote_json_string refreshToken +:+ "}")).
  cbn [list_ascii_of_string]. rewrite list_ascii_of_string_app.
  cbn [list_ascii_of_string].
  set (l := list_ascii_of_string key ++ _).
  replace (2 * S (length l) + 2)%nat with (S (S (S (2 * length l + 1)))) by lia.
  subst l key.
  change (parse_value (S (S ?n)) ("{"%char :: ?r))
    with (match skip_ws r with
          | "}"%char :: rest' => Some (VObj [], rest')
          | _ => parse_members (S n) r []
          end).
  rewrite quote_json_string_chars.
  change (skip_ws (dquote :: ?r)) with (dquote :: r). cbv iota beta.
  change (parse_members (S ?n) (dquote :: ?r) [])
    with (match parse_string r with
          | Some (k, rest1) =>
              match skip_ws rest1 with
              | ":"%char :: rest2 =>
                  match parse_value n rest2 with
                  | Some (v, rest3) =>
                      match skip_ws rest3 with
                      | ","%char :: rest4 => parse_members n rest4 [(k, v)]
                      | "}"%char :: rest4 => Some (VObj (rev [(k, v)]), rest4)
                      | _ => None
                      end
                  | None => None
                  end
              | _ => None
              end
          | None => None
          end).
  rewrite parse_string_quote_chars.
  change (skip_ws (":"%char :: ?r)) with (":"%char :: r). cbv iota beta.
  rewrite parse_value_quoted. reflexivity.
Qed.

(** *** The events of a call *)

Lemma fetches_app (l1 l2 : list Event) : fetches (l1 ++ l2) = fetches l1 ++ fetches l2.
Proof. unfold fetches. apply omap_app. Qed.

Lemma count_app (p : Event -> bool) (l1 l2 : list Event) :
  count p (l1 ++ l2) = (count p l1 + count p l2)%nat.
Proof. unfold count. rewrite filter_app, length_app. reflexivity. Qed.

Lemma refreshed_trace w b access new_refresh :
  window w = Some b ->
  trace (refreshed access new_refresh w) = trace w ++ refreshed_events access new_refresh.
Proof.
  intros Hw. open_world w Hw. unfold refreshed, refreshed_events.
  destruct new_refresh; cbn; rewrite <- ?app_assoc; reflexivity.
Qed.

Lemma refreshed_window w b access new_refresh :
  window w = Some b ->
  window (refreshed access new_refresh w) =
  Some (mkBrowser (refreshed_storage access new_refresh (localStorage b)) (pathname b)).
Proof.
  intros Hw. open_world w Hw. unfold refreshed, refreshed_storage.
  destruct new_refresh; reflexivity.
Qed.

Lemma fetches_refreshed_events access new_refresh :
  fetches (refreshed_events access new_refresh) = [].
Proof. destruct new_refresh; reflexivity. Qed.

Lemma dispatches_refreshed_events access new_refresh :
  count is_dispatch (refreshed_events access new_refresh) = 1%nat.
Proof. destruct new_refresh; reflexivity. Qed.

Section GatewayCalls.

Variable API_BASE_URL : string.
Variable NumberToString : decimal -> string.

Abbreviation ToString' := (ToString NumberToString).
Abbreviation build_request' := (build_request API_BASE_URL NumberToString).
Abbreviation refresh_request' := (refresh_request API_BASE_URL).
Abbreviation afterRefresh' := (afterRefresh API_BASE_URL NumberToString).
Abbreviation respond' := (respond NumberToString).
Abbreviation afterResponse' := (afterResponse API_BASE_URL NumberToString).
Abbreviation apiRequest' := (apiRequest API_BASE_URL NumberToString).

(** A response that is not a 401 goes straight to [respond]. *)
Lemma run_apiRequest_direct ep opts w r0 script :
  status r0 <> 401 ->
  run (inr r0 :: script) (apiRequest' ep opts) w =
  advance (respond' r0) (log (EvFetch (build_request' ep opts (current_token w))) w).
Proof.
  intros Hs. rewrite run_apiRequest. cbn [settle]. unfold afterResponse.
  apply Z.eqb_neq in Hs. rewrite Hs.
  destruct (respond_settles NumberToString r0) as [res Hres].
  rewrite run_unfold, advance_bind, advance_Ret, !Hres. reflexivity.
Qed.

(** *** A refresh, for whatever the body holds under the names the code reads *)

(** [const tokenData = responseData.data || responseData;
     const { access_token, refresh_token } = tokenData]:
    the hypotheses below name the three reads of these two lines. *)
Lemma advance_afterRefresh_tokens ep opts rr body data access_token refresh_token w b :
  ok rr = true ->
  json rr = BodyJson body ->
  get_prop body "data" = inr data ->
  get_prop (js_or data body) "access_token" = inr access_token ->
  get_prop (js_or data body) "refresh_token" = inr refresh_token ->
  truthy access_token = true ->
  window w = Some b ->
  advance (afterRefresh' ep opts rr) w =
  Blocked (build_request' ep opts access_token) (settle Ret)
    (log (EvFetch (build_request' ep opts access_token))
       (refreshed (ToString' access_token)
          (if truthy refresh_token then Some (ToString' refresh_token) else None) w)).
Proof.
  intros Hok Hjson Hdata Hacc Href Ht Hw. open_world w Hw.
  unfold afterRefresh, refreshed. rewrite Hok. unfold_ops. adv.
  unfold json_result. rewrite Hjson. adv. rewrite Hdata. adv. rewrite Hacc. adv.
  rewrite Href. adv. rewrite Ht. adv.
  destruct (truthy refresh_token); adv; rewrite advance_doRequest, Ht; reflexivity.
Qed.

(** The world while the retry is in flight. *)
Lemma run_apiRequest_refreshed
    ep opts w b rt r0 rr body data access_token refresh_token x script :
  window w = Some b ->
  localStorage b !! "refresh_token" = Some rt ->
  rt <> "" ->
  status r0 = 401 ->
  ok rr = true ->
  json rr = BodyJson body ->
  get_prop body "data" = inr data ->
  get_prop (js_or data body) "access_token" = inr access_token ->
  get_prop (js_or data body) "refresh_token" = inr refresh_token ->
  truthy access_token = true ->
  run (inr r0 :: inr rr :: x :: script) (apiRequest' ep opts) w =
  run script (try_catch (settle Ret x) onRefreshError ≫= respond')
    (log (EvFetch (build_request' ep opts access_token))
       (refreshed (ToString' access_token)
          (if truthy refresh_token then Some (ToString' refresh_token) else None)
          (log (EvFetch (refresh_request' rt))
             (log (EvFetch (build_request' ep opts (current_token w))) w)))).
Proof.
  intros Hw Hrt Hne Hs Hok Hjson Hdata Hacc Href Ht.
  rewrite run_apiRequest. cbn [settle].
  rewrite (run_afterResponse_refresh _ _ _ _ _ _ r0 _ b rt Hs); trivial.
  cbn [settle]. rewrite run_unfold, advance_bind, advance_try_catch.
  rewrite (advance_afterRefresh_tokens ep opts rr body data access_token refresh_token _ b
             Hok Hjson Hdata Hacc Href Ht); [|exact Hw].
  reflexivity.
Qed.

Lemma run_apiRequest_retry_in_flight
    ep opts w b rt r0 rr body data access_token refresh_token :
  window w = Some b ->
  localStorage b !! "refresh_token" = Some rt ->
  rt <> "" ->
  status r0 = 401 ->
  ok rr = true ->
  json rr = BodyJson body ->
  get_prop body "data" = inr data ->
  get_prop (js_or data body) "access_token" = inr access_token ->
  get_prop (js_or data body) "refresh_token" = inr refresh_token ->
  truthy access_token = true ->
  exists k,
  run [inr r0; inr rr] (apiRequest' ep opts) w =
  Blocked (build_request' ep opts access_token) k
    (log (EvFetch (build_request' ep opts access_token))
       (refreshed (ToString' access_token)
          (if truthy refresh_token then Some (ToString' refresh_token) else None)
          (log (EvFetch (refresh_request' rt))
             (log (EvFetch (build_request' ep opts (current_token w))) w)))).
Proof.
  intros Hw Hrt Hne Hs Hok Hjson Hdata Hacc Href Ht.
  rewrite run_apiRequest. cbn [settle].
  rewrite (run_afterResponse_refresh _ _ _ _ _ _ r0 _ b rt Hs); trivial.
  cbn [settle]. rewrite run_unfold, advance_bind, advance_try_catch.
  rewrite (advance_afterRefresh_tokens ep opts rr body data access_token refresh_token _ b
             Hok Hjson Hdata Hacc Href Ht); [|exact Hw].
  eexists. reflexivity.
Qed.

(** The trace of a refreshed call, for any first and last request. *)
Lemma refreshed_trace_since w b first refresh retry access new_refresh :
  window w = Some b ->
  since (trace w)
    (trace (log (EvFetch retry)
       (refreshed access new_refresh (log (EvFetch refresh) (log (EvFetch first) w)))))
  = EvFetch first :: EvFetch refresh :: refreshed_events access new_refresh ++ [EvFetch retry].
Proof.
  intros Hw. cbn [trace log].
  rewrite (refreshed_trace _ b) by exact Hw. cbn [trace log].
  rewrite <- !List.app_assoc. rewrite since_app. reflexivity.
Qed.

(** What the refresh request is: a [POST] to the refresh endpoint with
    the two fixed headers, whose body reads back as the object with the
    one member [refresh_token]. *)
Lemma refresh_request_spec rt :
  req_url (refresh_request' rt) = API_BASE_URL +:+ "/api/auth/refresh" /\
  req_method (refresh_request' rt) = Some "POST" /\
  req_body (refresh_request' rt) ≫= JSON_parse = Some (VObj [("refresh_token", VStr rt)]) /\
  req_headers (refresh_request' rt)
  = {[ "Content-Type" := "application/json"; "ngrok-skip-browser-warning" := "true" ]}.
Proof.
  repeat split. cbn [refresh_request req_body mbind option_bind].
  apply JSON_parse_refresh_body.
Qed.

(** What the retry is: the request of the options again, bearing the new
    access token. *)
Lemma retry_request_spec ep opts access_token :
  truthy access_token = true ->
  req_url (build_request' ep opts access_token) = API_BASE_URL +:+ ep /\
  req_method (build_request' ep opts access_token) = opt_method opts /\
  req_body (build_request' ep opts access_token) = opt_body opts /\
  req_headers (build_request' ep opts access_token) !! "Authorization"
  = Some ("Bearer " +:+ ToString' access_token).
Proof.
  intros Ht. unfold build_request. rewrite Ht. cbn [req_url req_method req_body req_headers].
  repeat split. apply lookup_insert_eq.
Qed.

End GatewayCalls.

(* ===================================================================== *)
(** ** The gateway: what one call guarantees *)
(* ===================================================================== *)

Section GatewayClaims.

Variable API_BASE_URL : string.
Variable NumberToString : decimal -> string.

Abbreviation ToString' := (ToString NumberToString).
Abbreviation build_request' := (build_request API_BASE_URL NumberToString).
Abbreviation refresh_request' := (refresh_request API_BASE_URL).
Abbreviation respond' := (respond NumberToString).
Abbreviation apiRequest' := (apiRequest API_BASE_URL NumberToString).

(** A call whose first answer is a 401, made while the store holds a
    refresh token, and whose refresh is answered 2xx with a body that
    carries a truthy [access_token] (in its [data] member when that is
    truthy, else at its top level), when the retry is answered by a
    response: the call issues exactly three requests, the original one,
    one refresh and one retry.  The refresh is a [POST] to
    [/api/auth/refresh] whose body reads back as [{refresh_token}] with
    the stored token; the retry is the original request bearing the new
    access token.  The call settles with what [respond] makes of the
    retried response alone; when that response is not itself a 401 this
    is the result of a call that was answered with it at once. *)
Lemma apiRequest_refresh_then_retry
    ep opts w b rt r0 rr r2 body data access_token refresh_token :
  window w = Some b ->
  localStorage b !! "refresh_token" = Some rt ->
  rt <> "" ->
  status r0 = 401 ->
  ok rr = true ->
  json rr = BodyJson body ->
  get_prop body "data" = inr data ->
  get_prop (js_or data body) "access_token" = inr access_token ->
  get_prop (js_or data body) "refresh_token" = inr refresh_token ->
  truthy access_token = true ->
  printable access_token = true ->
  printable refresh_token = true ->
  exists res w',
    run [inr r0; inr rr; inr r2] (apiRequest' ep opts) w = Finished res w' /\
    fetches (since (trace w) (trace w')) =
      [build_request' ep opts (current_token w);
       refresh_request' rt;
       build_request' ep opts access_token] /\
    (req_url (refresh_request' rt) = API_BASE_URL +:+ "/api/auth/refresh" /\
     req_method (refresh_request' rt) = Some "POST" /\
     req_body (refresh_request' rt) ≫= JSON_parse
       = Some (VObj [("refresh_token", VStr rt)])) /\
    (req_url (build_request' ep opts access_token) = API_BASE_URL +:+ ep /\
     req_method (build_request' ep opts access_token) = opt_method opts /\
     req_body (build_request' ep opts access_token) = opt_body opts /\
     req_headers (build_request' ep opts access_token) !! "Authorization"
       = Some ("Bearer " +:+ ToString' access_token)) /\
    (forall w0, advance (respond' r2) w0 = Finished res w0) /\
    (status r2 <> 401 ->
     forall w0, exists w0', run [inr r2] (apiRequest' ep opts) w0 = Finished res w0').
Proof.
  intros Hw Hrt Hne Hs Hok Hjson Hdata Hacc Href Ht _ _.
  destruct (respond_settles NumberToString r2) as [res Hres].
  eexists res, _. split; [|split; [|split; [|split; [|split]]]].
  - rewrite (run_apiRequest_refreshed API_BASE_URL NumberToString ep opts w b rt r0 rr body data
               access_token refresh_token (inr r2) [] Hw Hrt Hne Hs Hok Hjson Hdata Hacc Href Ht).
    cbn [settle try_catch]. rewrite run_unfold, advance_bind, advance_Ret, Hres. reflexivity.
  - rewrite (refreshed_trace_since _ b) by exact Hw.
    change (?a :: ?b :: ?l) with ([a; b] ++ l).
    rewrite !fetches_app, fetches_refreshed_events. reflexivity.
  - destruct (refresh_request_spec API_BASE_URL rt) as (H1 & H2 & H3 & _). auto.
  - apply retry_request_spec. exact Ht.
  - exact Hres.
  - intros Hs2 w0. eexists.
    rewrite (run_apiRequest_direct API_BASE_URL NumberToString _ _ _ _ _ Hs2), Hres. reflexivity.
Qed.

(** C4.  After a successful refresh, at the moment the retry is in flight.
    A refresh is successful when its answer is 2xx and its body carries a
    truthy [access_token], in its [data] member when that is truthy, else
    at its top level (and neither token is an object with a [toString]
    member of its own, which cannot be turned into the text that the
    store takes).  The store then holds the text of that access token
    under [access_token].  [refresh_token] holds the text of the
    [refresh_token] of the response when the response brought a truthy
    one; when it brought none, or [null], an empty string, zero or
    [false], the stored refresh token is the one from before.  No other
    key of the store changed, and between the refresh and the retry the
    call did exactly this: it wrote [access_token], wrote [refresh_token]
    in the first case only, and dispatched [tokenRefreshed] once.  The
    same store and the one dispatch are there when the call has settled
    on a retried response. *)
Theorem apiRequest_refresh_stores_tokens
    ep opts w b rt r0 rr body data access_token refresh_token :
  window w = Some b ->
  localStorage b !! "refresh_token" = Some rt ->
  rt <> "" ->
  status r0 = 401 ->
  ok rr = true ->
  json rr = BodyJson body ->
  get_prop body "data" = inr data ->
  get_prop (js_or data body) "access_token" = inr access_token ->
  get_prop (js_or data body) "refresh_token" = inr refresh_token ->
  truthy access_token = true ->
  printable access_token = true ->
  printable refresh_token = true ->
  exists k w',
    run [inr r0; inr rr] (apiRequest' ep opts) w
      = Blocked (build_request' ep opts access_token) k w' /\
    stored "access_token" w' = Some (ToString' access_token) /\
    stored "refresh_token" w'
      = Some (if truthy refresh_token then ToString' refresh_token else rt) /\
    (forall key, key <> "access_token" -> key <> "refresh_token" ->
       stored key w' = stored key w) /\
    since (trace w) (trace w')
      = [EvFetch (build_request' ep opts (current_token w));
         EvFetch (refresh_request' rt);
         EvSetItem "access_token" (ToString' access_token)]
        ++ (if truthy refresh_token
            then [EvSetItem "refresh_token" (ToString' refresh_token)] else [])
        ++ [EvDispatch "tokenRefreshed"; EvFetch (build_request' ep opts access_token)] /\
    count is_dispatch (since (trace w) (trace w')) = 1%nat /\
    forall r2, exists res w'',
      run [inr r0; inr rr; inr r2] (apiRequest' ep opts) w = Finished res w'' /\
      window w'' = window w' /\
      count is_dispatch (since (trace w) (trace w'')) = 1%nat.
Proof.
  intros Hw Hrt Hne Hs Hok Hjson Hdata Hacc Href Ht _ _.
  set (access := ToString' access_token).
  set (new_refresh := if truthy refresh_token then Some (ToString' refresh_token) else None).
  destruct (run_apiRequest_retry_in_flight API_BASE_URL NumberToString ep opts w b rt r0 rr body
              data access_token refresh_token Hw Hrt Hne Hs Hok Hjson Hdata Hacc Href Ht)
    as [k Hk].
  fold access new_refresh in Hk.
  assert (Hwin : forall e1 e2 e3,
    window (log e3 (refreshed access new_refresh (log e2 (log e1 w))))
    = Some (mkBrowser (refreshed_storage access new_refresh (localStorage b)) (pathname b))).
  { intros. cbn [window log]. apply refreshed_window. exact Hw. }
  assert (Htr :
    since (trace w)
      (trace (log (EvFetch (build_request' ep opts access_token))
         (refreshed access new_refresh
            (log (EvFetch (refresh_request' rt))
               (log (EvFetch (build_request' ep opts (current_token w))) w)))))
    = [EvFetch (build_request' ep opts (current_token w));
       EvFetch (refresh_request' rt);
       EvSetItem "access_token" access]
      ++ (if truthy refresh_token
          then [EvSetItem "refresh_token" (ToString' refresh_token)] else [])
      ++ [EvDispatch "tokenRefreshed"; EvFetch (build_request' ep opts access_token)]).
  { rewrite (refreshed_trace_since _ b) by exact Hw.
    unfold refreshed_events, new_refresh. destruct (truthy refresh_token); reflexivity. }
  assert (Hdisp :
    count is_dispatch
      (since (trace w)
         (trace (log (EvFetch (build_request' ep opts access_token))
            (refreshed access new_refresh
               (log (EvFetch (refresh_request' rt))
                  (log (EvFetch (build_request' ep opts (current_token w))) w))))))
    = 1%nat).
  { rewrite Htr. destruct (truthy refresh_token); reflexivity. }
  eexists k, _. split; [exact Hk|]. split; [|split; [|split; [|split; [|split]]]].
  - unfold stored. rewrite Hwin. cbn [mbind option_bind localStorage].
    unfold refreshed_storage, new_refresh. destruct (truthy refresh_token).
    + rewrite lookup_insert_ne by discriminate. apply lookup_insert_eq.
    + apply lookup_insert_eq.
  - unfold stored. rewrite Hwin. cbn [mbind option_bind localStorage].
    unfold refreshed_storage, new_refresh. destruct (truthy refresh_token).
    + apply lookup_insert_eq.
    + rewrite lookup_insert_ne by discriminate. exact Hrt.
  - intros key Ha Hr. unfold stored. rewrite Hwin, Hw. cbn [mbind option_bind localStorage].
    unfold refreshed_storage, new_refresh. destruct (truthy refresh_token);
      rewrite ?lookup_insert_ne by congruence; reflexivity.
  - exact Htr.
  - exact Hdisp.
  - intros r2. destruct (respond_settles NumberToString r2) as [res Hres].
    eexists res, _. split; [|split].
    + rewrite (run_apiRequest_refreshed API_BASE_URL NumberToString ep opts w b rt r0 rr body
                 data access_token refresh_token (inr r2) []
                 Hw Hrt Hne Hs Hok Hjson Hdata Hacc Href Ht).
      cbn [settle try_catch]. rewrite run_unfold, advance_bind, advance_Ret, Hres. reflexivity.
    + reflexivity.
    + exact Hdisp.
Qed.

(** C10.  A call whose answer is not a 401, whatever its status, settles
    without a write to the store: the store is as it was, and the only
    event of the call is its one request. *)
Theorem apiRequest_non401_leaves_storage ep opts w r0 :
  status r0 <> 401 ->
  exists res w',
    run [inr r0] (apiRequest' ep opts) w = Finished res w' /\
    window w' = window w /\
    since (trace w) (trace w') = [EvFetch (build_request' ep opts (current_token w))] /\
    count is_storage_write (since (trace w) (trace w')) = 0%nat.
Proof.
  intros Hs. destruct (respond_settles NumberToString r0) as [res Hres].
  eexists res, _. rewrite (run_apiRequest_direct API_BASE_URL NumberToString _ _ _ _ _ Hs), Hres.
  split; [reflexivity|]. cbn [window trace log]. rewrite since_app.
  repeat split.
Qed.

(** *** Failures *)

Lemma json_result_error_data r w (h : exn -> Task value) :
  advance (try_catch (awaitJson r) (fun _ => Ret (VObj []))) w
  = Finished (inr (error_data r)) w.
Proof.
  rewrite advance_try_catch, advance_awaitJson. unfold json_result, error_data.
  destruct (json r); reflexivity.
Qed.

(** [throwApiError] settles with the error, or with the [TypeError] of
    reading [detail] off [null]. *)
Lemma advance_throwApiError {A : Type} errorData r w :
  advance (throwApiError NumberToString errorData r : Task A) w =
  Finished
    (match get_prop errorData "detail" with
     | inl e => inl e
     | inr detail =>
         inl (ApiError
                (ToString' (js_or (js_or detail (VStr (statusText r)))
                              (VStr "An error occurred")))
                (status r) (Some r))
     end) w.
Proof.
  unfold throwApiError. rewrite advance_bind, advance_getProp.
  destruct (get_prop errorData "detail"); reflexivity.
Qed.

(** A failure status other than 403. *)
Lemma respond_error r detail w :
  ok r = false ->
  status r <> 403 ->
  get_prop (error_data r) "detail" = inr detail ->
  advance (respond' r) w =
  Finished (inl (ApiError
                   (ToString' (js_or (js_or detail (VStr (statusText r)))
                                 (VStr "An error occurred")))
                   (status r) (Some r))) w.
Proof.
  intros Hok Hs Hd. unfold respond. rewrite Hok. cbn [negb].
  rewrite advance_bind, (json_result_error_data r w (fun e => Throw e)).
  apply Z.eqb_neq in Hs. rewrite Hs, advance_throwApiError, Hd. reflexivity.
Qed.

(** Status 403. *)
Lemma respond_forbidden r detail w :
  status r = 403 ->
  get_prop (error_data r) "detail" = inr detail ->
  advance (respond' r) w =
  Finished (inl (ApiError
                   (ToString' (js_or detail
                      (VStr "Access forbidden. This endpoint requires admin privileges.")))
                   403 (Some r))) w.
Proof.
  intros Hs Hd. unfold respond, ok. rewrite Hs. cbn [Z.leb Z.compare Pos.compare
    Pos.compare_cont andb negb Z.eqb Pos.eqb].
  rewrite advance_bind, (json_result_error_data r w (fun e => Throw e)).
  rewrite advance_bind, advance_getProp, Hd. reflexivity.
Qed.

(** A failure whose body is the JSON text [null]: reading
    [errorData.detail] throws, and the [TypeError] is what the caller
    gets. *)
Lemma respond_null_body r w :
  ok r = false ->
  json r = BodyJson VNull ->
  advance (respond' r) w =
  Finished (inl (JsError (JsErr "TypeError"
                   "Cannot read properties of null (reading 'detail')"))) w.
Proof.
  intros Hok Hj. unfold respond. rewrite Hok. cbn [negb].
  rewrite advance_bind, (json_result_error_data r w (fun e => Throw e)).
  unfold error_data. rewrite Hj.
  destruct (status r =? 403).
  - rewrite advance_bind, advance_getProp. reflexivity.
  - rewrite advance_throwApiError. reflexivity.
Qed.

Lemma not_ok_401 r : status r = 401 -> ok r = false.
Proof. intros H. unfold ok. rewrite H. reflexivity. Qed.

Lemma not_ok_403 r : status r = 403 -> ok r = false.
Proof. intros H. unfold ok. rewrite H. reflexivity. Qed.

(** A second 401, on the retry, ends the call: the error carries the
    status of the retried response, and answers that might still come
    are never asked for.  (The body of the retried response must let
    [detail] be read.) *)
Lemma apiRequest_second_401_is_terminal
    ep opts w b rt r0 rr r2 body data access_token refresh_token detail extra :
  window w = Some b ->
  localStorage b !! "refresh_token" = Some rt ->
  rt <> "" ->
  status r0 = 401 ->
  ok rr = true ->
  json rr = BodyJson body ->
  get_prop body "data" = inr data ->
  get_prop (js_or data body) "access_token" = inr access_token ->
  get_prop (js_or data body) "refresh_token" = inr refresh_token ->
  truthy access_token = true ->
  status r2 = 401 ->
  get_prop (error_data r2) "detail" = inr detail ->
  exists w',
    run ([inr r0; inr rr; inr r2] ++ extra) (apiRequest' ep opts) w =
      Finished (inl (ApiError
                       (ToString' (js_or (js_or detail (VStr (statusText r2)))
                                     (VStr "An error occurred")))
                       401 (Some r2))) w' /\
    fetches (since (trace w) (trace w')) =
      [build_request' ep opts (current_token w);
       refresh_request' rt;
       build_request' ep opts access_token].
Proof.
  intros Hw Hrt Hne Hs Hok Hjson Hdata Hacc Href Ht Hs2 Hd.
  eexists. split.
  - apply run_finished_app.
    rewrite (run_apiRequest_refreshed API_BASE_URL NumberToString ep opts w b rt r0 rr body
               data access_token refresh_token (inr r2) []
               Hw Hrt Hne Hs Hok Hjson Hdata Hacc Href Ht).
    cbn [settle try_catch]. rewrite run_unfold, advance_bind, advance_Ret.
    rewrite (respond_error r2 detail); [rewrite Hs2; reflexivity | | | exact Hd].
    + apply not_ok_401, Hs2.
    + rewrite Hs2. discriminate.
  - rewrite (refreshed_trace_since _ b) by exact Hw.
    change (?a :: ?b :: ?l) with ([a; b] ++ l).
    rewrite !fetches_app, fetches_refreshed_events. reflexivity.
Qed.

(** Without a refresh token the 401 handler removes the access token,
    redirects and throws. *)
Lemma advance_on401_no_refresh_token ep opts r w b :
  window w = Some b ->
  localStorage b !! "refresh_token" = None \/ localStorage b !! "refresh_token" = Some "" ->
  advance (on401 API_BASE_URL NumberToString ep opts r) w =
  advance (throwApiError NumberToString (error_data r) r)
    (redirected (exec (RemoveItem "access_token") w)).
Proof.
  intros Hw Hrt. unfold on401.
  rewrite advance_bind, (json_result_error_data r w (fun e => Throw e)).
  assert (Hw1 : window (exec (RemoveItem "access_token") w)
                = Some (mkBrowser (delete "access_token" (localStorage b)) (pathname b))).
  { open_world w Hw. reflexivity. }
  assert (Hget : fst (do_op (GetItem "refresh_token") w) = inr VNull
                 \/ fst (do_op (GetItem "refresh_token") w) = inr (VStr "")).
  { open_world w Hw. cbn. destruct Hrt as [-> | ->]; [left | right]; reflexivity. }
  assert (Hex : exec (GetItem "refresh_token") w = w).
  { open_world w Hw. reflexivity. }
  assert (Htw : fst (do_op TypeofWindow w) = inr true /\ exec TypeofWindow w = w).
  { open_world w Hw. split; reflexivity. }
  destruct Htw as [Htw1 Htw2].
  unfold_ops. rewrite advance_bind, advance_perform, Htw1, Htw2.
  rewrite advance_bind, advance_perform, Hex.
  assert (Hrest :
    advance (perform (RemoveItem "access_token") ;; redirectToLogin ;;
             (throwApiError NumberToString (error_data r) r : Task Response)) w
    = advance (throwApiError NumberToString (error_data r) r)
        (redirected (exec (RemoveItem "access_token") w))).
  { rewrite advance_bind, advance_perform.
    replace (fst (do_op (RemoveItem "access_token") w)) with (inr tt : exn + unit)
      by (open_world w Hw; reflexivity).
    rewrite advance_bind, (advance_redirectToLogin _ _ Hw1). reflexivity. }
  destruct Hget as [-> | ->]; cbn [truthy String.eqb negb]; exact Hrest.
Qed.

(** A 401 without a refresh token in the store: no refresh, the access
    token is removed, and the error carries the status of the response and
    the message read from its body.  (The body must let [detail] be
    read.) *)
Lemma apiRequest_401_without_refresh_token ep opts w b r0 detail extra :
  window w = Some b ->
  localStorage b !! "refresh_token" = None \/ localStorage b !! "refresh_token" = Some "" ->
  status r0 = 401 ->
  get_prop (error_data r0) "detail" = inr detail ->
  exists w',
    run (inr r0 :: extra) (apiRequest' ep opts) w =
      Finished (inl (ApiError
                       (ToString' (js_or (js_or detail (VStr (statusText r0)))
                                     (VStr "An error occurred")))
                       (status r0) (Some r0))) w' /\
    fetches (since (trace w) (trace w')) = [build_request' ep opts (current_token w)] /\
    stored "access_token" w' = None /\
    count is_navigation (since (trace w) (trace w')) = (if on_auth_page w then 0 else 1)%nat.
Proof.
  intros Hw Hrt Hs Hd. eexists. split; [|split; [|split]].
  - rewrite run_apiRequest. cbn [settle]. rewrite run_unfold. unfold afterResponse.
    replace (status r0 =? 401) with true by (rewrite Hs; reflexivity).
    rewrite advance_bind, (advance_on401_no_refresh_token ep opts r0 _ b);
      [|open_world w Hw; reflexivity | exact Hrt].
    rewrite advance_throwApiError, Hd. reflexivity.
  - open_world w Hw. unfold redirected, on_auth_page. world_simpl.
    destruct (_ || _); world_simpl; rewrite <- ?app_assoc, since_app; reflexivity.
  - open_world w Hw. unfold stored, redirected, on_auth_page. world_simpl.
    destruct (_ || _); world_simpl; cbn [mbind option_bind localStorage];
      apply lookup_delete_eq.
  - open_world w Hw. unfold redirected, on_auth_page. world_simpl.
    destruct (_ || _); world_simpl; rewrite <- ?app_assoc, since_app; reflexivity.
Qed.

(** A 403 at once: the error has status 403 and the message of the body's
    [detail] member, or the default about admin privileges; the store is
    not written.  (The body must let [detail] be read.) *)
Lemma apiRequest_forbidden ep opts w r0 detail extra :
  status r0 = 403 ->
  get_prop (error_data r0) "detail" = inr detail ->
  exists w',
    run (inr r0 :: extra) (apiRequest' ep opts) w =
      Finished (inl (ApiError
                       (ToString' (js_or detail
                          (VStr "Access forbidden. This endpoint requires admin privileges.")))
                       403 (Some r0))) w' /\
    window w' = window w /\
    count is_storage_write (since (trace w) (trace w')) = 0%nat.
Proof.
  intros Hs Hd. eexists.
  rewrite run_apiRequest_direct by (rewrite Hs; discriminate).
  rewrite (respond_forbidden r0 detail _ Hs Hd). split; [reflexivity|].
  cbn [window trace log]. rewrite since_app. split; reflexivity.
Qed.

(** A 403 on the retry: the same error; the refresh wrote the new tokens
    and nothing was removed. *)
Lemma apiRequest_forbidden_on_retry
    ep opts w b rt r0 rr r2 body data access_token refresh_token detail extra :
  window w = Some b ->
  localStorage b !! "refresh_token" = Some rt ->
  rt <> "" ->
  status r0 = 401 ->
  ok rr = true ->
  json rr = BodyJson body ->
  get_prop body "data" = inr data ->
  get_prop (js_or data body) "access_token" = inr access_token ->
  get_prop (js_or data body) "refresh_token" = inr refresh_token ->
  truthy access_token = true ->
  status r2 = 403 ->
  get_prop (error_data r2) "detail" = inr detail ->
  exists w',
    run ([inr r0; inr rr; inr r2] ++ extra) (apiRequest' ep opts) w =
      Finished (inl (ApiError
                       (ToString' (js_or detail
                          (VStr "Access forbidden. This endpoint requires admin privileges.")))
                       403 (Some r2))) w' /\
    stored "access_token" w' = Some (ToString' access_token) /\
    count is_removal (since (trace w) (trace w')) = 0%nat.
Proof.
  intros Hw Hrt Hne Hs Hok Hjson Hdata Hacc Href Ht Hs2 Hd.
  eexists. split; [|split].
  - apply run_finished_app.
    rewrite (run_apiRequest_refreshed API_BASE_URL NumberToString ep opts w b rt r0 rr body
               data access_token refresh_token (inr r2) []
               Hw Hrt Hne Hs Hok Hjson Hdata Hacc Href Ht).
    cbn [settle try_catch]. rewrite run_unfold, advance_bind, advance_Ret.
    rewrite (respond_forbidden r2 detail _ Hs2 Hd). reflexivity.
  - unfold stored. cbn [window log]. rewrite (refreshed_window _ b) by exact Hw.
    cbn [mbind option_bind localStorage]. unfold refreshed_storage.
    destruct (truthy refresh_token).
    + rewrite lookup_insert_ne by discriminate. apply lookup_insert_eq.
    + apply lookup_insert_eq.
  - rewrite (refreshed_trace_since _ b) by exact Hw.
    change (?a :: ?b :: ?l) with ([a; b] ++ l).
    rewrite !count_app. unfold refreshed_events.
    destruct (truthy refresh_token); reflexivity.
Qed.

End GatewayClaims.

(* ===================================================================== *)
(** ** The auth provider *)
(* ===================================================================== *)

(** No operation closes the browsing context. *)
Lemma do_op_keeps_window {X : Type} (op : Op X) (w : World) :
  is_Some (window w) -> is_Some (window (snd (do_op op w))).
Proof.
  intros [b Hb]. destruct op; cbn; rewrite ?Hb; cbn; eauto.
Qed.

Lemma advance_keeps_window {A : Type} (t : Task A) (w : World) :
  is_Some (window w) -> is_Some (window (outcome_world (advance t w))).
Proof.
  revert w.
  induction t as [A a|A e|A X op k IH|A req k IH|A r k IH|A bg IHbg k IHk];
    intros w Hw; cbn; trivial.
  - pose proof (do_op_keeps_window op w Hw) as H.
    destruct (do_op op w) as [r w']. apply IH, H.
  - apply IH, Hw.
  - specialize (IHbg w Hw). destruct (advance bg w) as [rb wb|reqb kb wb]; apply IHk; exact IHbg.
Qed.

Lemma advance_logout_finally w b :
  window w = Some b ->
  advance logout_finally w = Finished (inr tt) (logged_out w).
Proof.
  intros Hw. open_world w Hw. unfold logout_finally, logged_out. unfold_ops. adv. reflexivity.
Qed.

Lemma logged_out_spec w b :
  window w = Some b ->
  isAuthenticated (session (logged_out w)) = false /\
  isAdmin (session (logged_out w)) = VBool false /\
  stored "access_token" (logged_out w) = None /\
  stored "refresh_token" (logged_out w) = None.
Proof.
  intros Hw. open_world w Hw. unfold logged_out, stored. world_simpl.
  cbn [isAuthenticated isAdmin mbind option_bind localStorage]. repeat split.
  - rewrite lookup_delete_ne by discriminate. apply lookup_delete_eq.
  - apply lookup_delete_eq.
Qed.

(** [logout_around call] at its next suspension: either [call] has settled
    and the [finally] block has run, or [call] waits for an answer and the
    rest is again a [logout_around]. *)
Lemma advance_logout_around {A : Type} (call : Task A) w b :
  window w = Some b ->
  (exists r w1, advance call w = Finished r w1 /\
                advance (logout_around call) w = Finished (inr tt) (logged_out w1)) \/
  (exists req k w1, advance call w = Blocked req k w1 /\
                    advance (logout_around call) w
                    = Blocked req (fun x => logout_around (k x)) w1).
Proof.
  intros Hw. unfold logout_around, try_finally.
  pose proof (advance_keeps_window call w (ex_intro _ b Hw)) as Hkeep.
  rewrite advance_bind, !advance_try_catch, advance_bind.
  destruct (advance call w) as [r w1|req k w1] eqn:Hcall; cbn [outcome_world] in Hkeep.
  - left. exists r, w1. split; [reflexivity|]. destruct Hkeep as [b1 Hb1].
    destruct r as [e|a]; cbv beta iota; rewrite ?advance_Ret; cbv beta iota;
      rewrite advance_bind, (advance_logout_finally _ _ Hb1); reflexivity.
  - right. exists req, k, w1. split; reflexivity.
Qed.

Lemma run_logout_around {A : Type} script (call : Task A) w b r w' :
  window w = Some b ->
  run script (logout_around call) w = Finished r w' ->
  r = inr tt /\
  isAuthenticated (session w') = false /\
  isAdmin (session w') = VBool false /\
  stored "access_token" w' = None /\
  stored "refresh_token" w' = None.
Proof.
  revert call w b. induction script as [|x script IH]; intros call w b Hw Hrun;
    rewrite run_unfold in Hrun;
    pose proof (advance_keeps_window call w (ex_intro _ b Hw)) as Hkeep;
    destruct (advance_logout_around call w b Hw)
      as [(r1 & w1 & Hc & Hl) | (req & k & w1 & Hc & Hl)];
    rewrite Hl in Hrun; rewrite Hc in Hkeep; cbn [outcome_world] in Hkeep;
    destruct Hkeep as [b1 Hb1].
  - injection Hrun as <- <-. split; [reflexivity|]. apply (logged_out_spec _ _ Hb1).
  - discriminate.
  - injection Hrun as <- <-. split; [reflexivity|]. apply (logged_out_spec _ _ Hb1).
  - apply (IH (k x) w1 b1 Hb1 Hrun).
Qed.

Lemma within_logout_finally : within 0 logout_finally.
Proof.
  unfold logout_finally.
  repeat (apply (within_bind _ _ 0 0); [apply within_perform | intros _]).
  apply within_perform.
Qed.

Lemma within_logout_around {A : Type} (call : Task A) n :
  within n call -> within n (logout_around call).
Proof.
  intros H. unfold logout_around, try_finally.
  replace n with (((n + 0) + 0) + 0 + 0)%nat by lia.
  apply within_bind.
  - apply within_try_catch.
    + apply within_try_catch; [|intros; constructor].
      apply within_bind; [exact H | intros; constructor].
    + intros e. apply (within_bind _ _ 0 0); [apply within_logout_finally | intros; constructor].
  - intros a. apply (within_bind _ _ 0 0); [apply within_logout_finally | intros; constructor].
Qed.

(** [exp * 1000 > now] for an [exp] in whole seconds and a clock in whole
    milliseconds: on such numbers the arithmetic of the model and the
    doubles of the code give the same answer. *)
Lemma whole_seconds_later (secs now : Z) :
  num_gtb (num_mul (Fin (dec_of_Z secs)) (Fin (dec_of_Z 1000))) (Fin (dec_of_Z now))
  = (now <? secs * 1000).
Proof.
  unfold num_gtb, num_mul, dec_mul, dec_ltb, dec_align, dec_of_Z. cbn [dmant dexp].
  repeat match goal with
    | |- context [10 ^ ?e] => let v := eval vm_compute in (10 ^ e) in change (10 ^ e) with v
    end.
  rewrite !Z.mul_1_r. reflexivity.
Qed.

Section AuthClaims.

Variable API_BASE_URL : string.
Variable NumberToString : decimal -> string.
Variable StringToNumber : string -> number.

Abbreviation checkAuth' := (checkAuth API_BASE_URL NumberToString StringToNumber).
Abbreviation logout' := (logout API_BASE_URL NumberToString).

(** C7.  In a browsing context, whatever the backend answers to the logout
    call and to the refresh and retry it may entail (a response of any
    status, or a rejected [fetch]), a [logout] that has settled has
    fulfilled its promise with the session at
    [isAuthenticated = false], [isAdmin = false] and with neither token in
    the store; and it does settle once three answers are in. *)
Theorem logout_always_clears w b script :
  window w = Some b ->
  (forall r w',
     run script logout' w = Finished r w' ->
     r = inr tt /\
     isAuthenticated (session w') = false /\
     isAdmin (session w') = VBool false /\
     stored "access_token" w' = None /\
     stored "refresh_token" w' = None) /\
  ((3 <= length script)%nat ->
   exists w', run script logout' w = Finished (inr tt) w').
Proof.
  intros Hw. split.
  - intros r w' Hrun. exact (run_logout_around script _ w b r w' Hw Hrun).
  - intros Hlen.
    destruct (within_run logout' 3
                (within_logout_around _ 3 (within_apiRequest _ _ _ _)) script w Hlen)
      as (r & w' & Hrun).
    exists w'. destruct (run_logout_around script _ w b r w' Hw Hrun) as [-> _]. exact Hrun.
Qed.

(** C6.  [checkAuth] in a browsing context.  With an access token in the
    store whose payload decodes to an object with an [exp] in whole
    seconds that lies after the clock ([clock < exp * 1000], the clock in
    milliseconds), and with [is_admin] true, the session becomes
    [{isAuthenticated: true, isAdmin: true, isLoading: false}]; with an
    empty store it becomes [{false, false, false}].  In both cases no
    request is issued, nothing is left running in the background and the
    store is not touched. *)
Theorem checkAuth_initial_states :
  (forall w b token claims secs,
     window w = Some b ->
     localStorage b !! "access_token" = Some token ->
     decodeToken token = VObj claims ->
     lookup_field "exp" claims = Some (VNum (dec_of_Z secs)) ->
     clock w < secs * 1000 ->
     lookup_field "is_admin" claims = Some (VBool true) ->
     exists w',
       advance checkAuth' w = Finished (inr tt) w' /\
       session w' = mkSession true (VBool true) false /\
       trace w' = trace w /\ background w' = background w /\ window w' = window w) /\
  (forall w b,
     window w = Some b ->
     localStorage b = ∅ ->
     exists w',
       advance checkAuth' w = Finished (inr tt) w' /\
       session w' = mkSession false (VBool false) false /\
       trace w' = trace w /\ background w' = background w /\ window w' = window w).
Proof.
  split.
  - intros w b token claims secs Hw Htok Hdec Hexp Hfuture Hadmin.
    assert (Hne : token <> "").
    { intros ->. vm_compute in Hdec. discriminate. }
    open_world w Hw. cbn [clock] in Hfuture. apply Z.ltb_lt in Hfuture.
    unfold checkAuth, unexpired. unfold_ops. adv.
    rewrite Htok. cbn [from_option]. rewrite (truthy_VStr _ Hne).
    cbn [decodeToken_value]. rewrite Hdec. cbn [truthy]. adv.
    cbn [get_prop]. rewrite Hexp. cbn [default from_option id]. adv.
    cbn [ToNumber]. rewrite whole_seconds_later, Hfuture. adv.
    cbn [get_prop]. rewrite Hadmin. cbn [default from_option id js_or truthy]. adv.
    eexists. repeat split.
  - intros w b Hw Hempty. open_world w Hw.
    unfold checkAuth. unfold_ops. adv.
    rewrite Hempty, lookup_empty. cbn [from_option truthy]. adv.
    eexists. repeat split.
Qed.

End AuthClaims.

(* ===================================================================== *)
(** ** The token codec: which segment is decoded *)
(* ===================================================================== *)

Lemma split_on_dotless (s : string) :
  dotless s = true -> split_on "." s = [s].
Proof.
  induction s as [|c s IH]; cbn [split_on dotless]; [reflexivity|].
  destruct (Ascii.eqb c "."); cbn [negb andb]; [discriminate|].
  intros H. rewrite (IH H). reflexivity.
Qed.

(** A dotless string followed by the end or by a dot is the first
    segment. *)
Lemma split_on_first (p rest : string) :
  dotless p = true -> segment_end rest = true ->
  exists tl, split_on "." (p +:+ rest) = p :: tl.
Proof.
  intros Hp Hrest. induction p as [|c p IH].
  - change ("" +:+ rest) with rest.
    destruct rest as [|d rest]; cbn [split_on segment_end] in *.
    + exists []. reflexivity.
    + eexists. rewrite Hrest. reflexivity.
  - change (String c p +:+ rest) with (String c (p +:+ rest)). cbn [split_on].
    cbn [dotless] in Hp. destruct (Ascii.eqb c "."); cbn [negb andb] in Hp; [discriminate|].
    destruct (IH Hp) as [tl Htl]. eexists. rewrite Htl. reflexivity.
Qed.

Lemma split_on_cons_segment (h rest : string) :
  dotless h = true ->
  split_on "." (h +:+ "." +:+ rest) = h :: split_on "." rest.
Proof.
  induction h as [|c h IH]; cbn [dotless].
  - reflexivity.
  - change (String c h +:+ "." +:+ rest) with (String c (h +:+ "." +:+ rest)).
    cbn [split_on]. destruct (Ascii.eqb c "."); cbn [negb andb]; [discriminate|].
    intros H. rewrite (IH H). reflexivity.
Qed.

Lemma split_on_second (header payload rest : string) :
  dotless header = true -> dotless payload = true -> segment_end rest = true ->
  split_on "." (header +:+ "." +:+ payload +:+ rest) !! 1%nat = Some payload.
Proof.
  intros Hh Hp Hrest. rewrite (split_on_cons_segment _ _ Hh).
  destruct (split_on_first payload rest Hp Hrest) as [tl ->]. reflexivity.
Qed.

Lemma decode_payload_second (header payload rest : string) :
  dotless header = true -> dotless payload = true -> segment_end rest = true ->
  decode_payload (header +:+ "." +:+ payload +:+ rest) = decode_segment payload.
Proof.
  intros Hh Hp Hrest. unfold decode_payload.
  rewrite (split_on_second _ _ _ Hh Hp Hrest). reflexivity.
Qed.

Lemma decode_payload_dotless (token : string) :
  dotless token = true -> decode_payload token = None.
Proof.
  intros H. unfold decode_payload. rewrite (split_on_dotless _ H). reflexivity.
Qed.

(** *** Input that [atob] rejects *)

Lemma b64_indices_bad (l : list ascii) (c : ascii) :
  In c l -> b64_index c = None -> b64_indices l = None.
Proof.
  induction l as [|d l IH]; cbn; [tauto|].
  intros [-> | Hin] Hc.
  - rewrite Hc. reflexivity.
  - rewrite (IH Hin Hc). destruct (b64_index d); reflexivity.
Qed.

Lemma strip_padding_keeps (l : list ascii) (c : ascii) :
  In c l -> c <> "="%char -> In c (strip_padding l).
Proof.
  intros Hin Hc. unfold strip_padding.
  destruct (Nat.modulo (length l) 4 =? 0)%nat; [|exact Hin].
  apply in_rev in Hin. destruct (rev l) as [|a r] eqn:Hrev; [destruct Hin|].
  destruct (Ascii.eqb_spec a "=") as [-> | Ha].
  - destruct Hin as [<- | Hin]; [contradiction|].
    destruct r as [|a' r']; [destruct Hin|].
    destruct (Ascii.eqb_spec a' "=") as [-> | Ha'].
    + destruct Hin as [<- | Hin]; [contradiction|]. apply in_rev in Hin. exact Hin.
    + apply in_rev in Hin. exact Hin.
  - apply in_rev. rewrite Hrev. exact Hin.
Qed.

(** A character outside the base64 alphabet that is neither white space
    nor [=] makes [atob] throw. *)
Lemma atob_rejects (s : string) (c : ascii) :
  In c (list_ascii_of_string s) ->
  b64_index c = None -> is_ascii_whitespace c = false -> c <> "="%char ->
  atob s = None.
Proof.
  intros Hin Hidx Hws Heq. unfold atob.
  set (l := strip_padding _).
  assert (Hl : In c l).
  { apply strip_padding_keeps; [|exact Heq]. apply filter_In. split; [exact Hin|].
    rewrite Hws. reflexivity. }
  destruct (Nat.modulo (length l) 4 =? 1)%nat; [reflexivity|].
  rewrite (b64_indices_bad l c Hl Hidx). reflexivity.
Qed.

Lemma replace_all_In (a b c : ascii) (s : string) :
  In c (list_ascii_of_string s) -> c <> a ->
  In c (list_ascii_of_string (replace_all a b s)).
Proof.
  intros Hin Hc. induction s as [|d s IH]; cbn in *; [tauto|].
  destruct Hin as [-> | Hin].
  - left. destruct (Ascii.eqb_spec c a); [contradiction | reflexivity].
  - right. apply IH, Hin.
Qed.

(** The same for a middle segment, which is written in the base64url
    alphabet. *)
Lemma decode_segment_rejects (payload : string) (c : ascii) :
  In c (list_ascii_of_string payload) ->
  b64_index c = None -> is_ascii_whitespace c = false ->
  c <> "="%char -> c <> "-"%char -> c <> "_"%char ->
  decode_segment payload = None.
Proof.
  intros Hin Hidx Hws Heq Hminus Hunder. unfold decode_segment.
  rewrite (atob_rejects _ c); trivial.
  apply replace_all_In; [|exact Hunder]. apply replace_all_In; [exact Hin | exact Hminus].
Qed.

(** *** Encoded payloads are decoded to their text *)

Lemma code_range c : 0 <= code c < 256.
Proof.
  unfold code. pose proof (N_ascii_bounded c). lia.
Qed.

Lemma chr_code c : chr (code c) = c.
Proof. unfold chr, code. rewrite N2Z.id. apply ascii_N_embedding. Qed.

Lemma code_chr z : 0 <= z < 256 -> code (chr z) = z.
Proof.
  intros H. unfold chr, code. rewrite N_ascii_embedding; lia.
Qed.

Lemma list_ind3 {A} (P : list A -> Prop) :
  P [] -> (forall a, P [a]) -> (forall a b, P [a; b]) ->
  (forall a b c l, P l -> P (a :: b :: c :: l)) ->
  forall l, P l.
Proof.
  intros H0 H1 H2 H3.
  assert (H : forall l, P l /\ (forall a, P (a :: l)) /\ (forall a b, P (a :: b :: l))).
  { induction l as [|c l (Hl & Hl1 & Hl2)]; auto. }
  intros l. apply H.
Qed.

Lemma chr_eq z c : z = code c -> chr z = c.
Proof. intros ->. apply chr_code. Qed.

Lemma b64_bytes_sextets bytes : b64_bytes (b64url_sextets bytes) = bytes.
Proof.
  induction bytes as [|a|a b|a b c l IH] using list_ind3.
  - reflexivity.
  - cbn [b64url_sextets b64_bytes]. pose proof (code_range a).
    f_equal. apply chr_eq. Z.div_mod_to_equations. lia.
  - cbn [b64url_sextets b64_bytes]. pose proof (code_range a). pose proof (code_range b).
    repeat f_equal; apply chr_eq; Z.div_mod_to_equations; lia.
  - cbn [b64url_sextets]. cbv zeta. cbn [b64_bytes]. cbv zeta. rewrite IH.
    pose proof (code_range a). pose proof (code_range b). pose proof (code_range c).
    repeat f_equal; apply chr_eq; Z.div_mod_to_equations; lia.
Qed.

Lemma b64url_sextets_range bytes :
  Forall (fun i => 0 <= i < 64) (b64url_sextets bytes).
Proof.
  induction bytes as [|a|a b|a b c l IH] using list_ind3;
    cbn [b64url_sextets]; cbv zeta.
  - constructor.
  - pose proof (code_range a).
    repeat constructor; Z.div_mod_to_equations; lia.
  - pose proof (code_range a). pose proof (code_range b).
    repeat constructor; Z.div_mod_to_equations; lia.
  - pose proof (code_range a). pose proof (code_range b). pose proof (code_range c).
    repeat (constructor; [Z.div_mod_to_equations; lia|]). exact IH.
Qed.

Lemma b64url_sextets_length bytes :
  (length (b64url_sextets bytes) mod 4 <> 1)%nat /\
  (length (b64url_sextets bytes) mod 4 = 0 -> length bytes mod 3 = 0)%nat.
Proof.
  induction bytes as [|a|a b|a b c l IH] using list_ind3;
    cbn [b64url_sextets]; cbv zeta.
  - split; [cbn; lia | reflexivity].
  - split; cbn; lia.
  - split; cbn; lia.
  - cbn [length].
    change (S (S (S (S (length (b64url_sextets l))))))
      with (4 + length (b64url_sextets l))%nat.
    change (S (S (S (length l)))) with (3 + length l)%nat.
    replace ((4 + length (b64url_sextets l)) mod 4)%nat
      with (length (b64url_sextets l) mod 4)%nat.
    2:{ rewrite (Nat.Div0.add_mod 4), Nat.Div0.mod_same, Nat.add_0_l, Nat.Div0.mod_mod.
        reflexivity. }
    replace ((3 + length l) mod 3)%nat with (length l mod 3)%nat.
    2:{ rewrite (Nat.Div0.add_mod 3), Nat.Div0.mod_same, Nat.add_0_l, Nat.Div0.mod_mod.
        reflexivity. }
    exact IH.
Qed.

(** The characters of an encoded segment, after the two replacements of
    the source. *)
Lemma replace_all_encode sextets :
  list_ascii_of_string
    (replace_all "_" "/" (replace_all "-" "+"
       (string_of_list_ascii (map b64url_char sextets))))
  = map b64_char sextets.
Proof.
  induction sextets as [|i l IH]; [reflexivity|].
  cbn [map string_of_list_ascii replace_all list_ascii_of_string].
  rewrite IH. reflexivity.
Qed.

Lemma b64_char_ok_range i : 0 <= i < 64 -> b64_char_ok i = true.
Proof.
  intros H.
  assert (Hall : forallb b64_char_ok (map Z.of_nat (seq 0 64)) = true)
    by (vm_compute; reflexivity).
  rewrite forallb_forall in Hall.
  apply Hall. apply in_map_iff. exists (Z.to_nat i). split; [lia|].
  apply in_seq. lia.
Qed.

Lemma b64_char_facts i :
  0 <= i < 64 ->
  b64_index (b64_char i) = Some i /\ is_ascii_whitespace (b64_char i) = false /\
  b64_char i <> "="%char /\ b64url_char i <> "."%char.
Proof.
  intros H. pose proof (b64_char_ok_range i H) as Hok. unfold b64_char_ok in Hok.
  cbv zeta in Hok. destruct (b64_index (b64_char i)) as [j|]; [|discriminate].
  repeat (apply andb_prop in Hok; destruct Hok as [Hok ?]).
  apply Z.eqb_eq in Hok. subst j.
  repeat split.
  - destruct (is_ascii_whitespace (b64_char i)); [discriminate | reflexivity].
  - intros E. rewrite E in *. discriminate.
  - intros E. rewrite E in *. discriminate.
Qed.

Lemma strip_padding_unpadded (l : list ascii) :
  Forall (fun c => c <> "="%char) l -> strip_padding l = l.
Proof.
  intros H. unfold strip_padding.
  destruct (Nat.modulo (length l) 4 =? 0)%nat; [|reflexivity].
  destruct (rev l) as [|a r] eqn:Hrev; [reflexivity|].
  destruct (Ascii.eqb_spec a "=") as [-> | Ha]; [|reflexivity].
  rewrite List.Forall_forall in H. exfalso. apply (H "="%char); [|reflexivity].
  apply in_rev. rewrite Hrev. left. reflexivity.
Qed.

Lemma filter_all {A} (f : A -> bool) (l : list A) :
  Forall (fun x => f x = true) l -> List.filter f l = l.
Proof.
  induction 1 as [|x l Hx _ IH]; cbn; [reflexivity|]. rewrite Hx, IH. reflexivity.
Qed.

Lemma b64_indices_chars (sextets : list Z) :
  Forall (fun i => 0 <= i < 64) sextets ->
  b64_indices (map b64_char sextets) = Some sextets.
Proof.
  induction 1 as [|i l Hi _ IH]; cbn [map b64_indices]; [reflexivity|].
  destruct (b64_char_facts i Hi) as (-> & _). rewrite IH. reflexivity.
Qed.

Lemma atob_encode (text : string) :
  atob (replace_all "_" "/" (replace_all "-" "+" (b64url_encode text))) = Some text.
Proof.
  unfold atob, b64url_encode. rewrite replace_all_encode.
  pose proof (b64url_sextets_range (list_ascii_of_string text)) as Hrange.
  set (sextets := b64url_sextets (list_ascii_of_string text)) in *.
  rewrite filter_all.
  2:{ apply Forall_map. eapply Forall_impl; [exact Hrange|].
      intros i Hi. cbn. destruct (b64_char_facts i Hi) as (_ & -> & _). reflexivity. }
  rewrite strip_padding_unpadded.
  2:{ apply Forall_map. eapply Forall_impl; [exact Hrange|].
      intros i Hi. cbn. apply (b64_char_facts i Hi). }
  rewrite length_map.
  destruct (b64url_sextets_length (list_ascii_of_string text)) as [Hlen _].
  fold sextets in Hlen.
  destruct (Nat.eqb_spec (length sextets mod 4) 1) as [E|_]; [contradiction|].
  rewrite (b64_indices_chars _ Hrange). unfold sextets.
  rewrite b64_bytes_sextets, string_of_list_ascii_of_string. reflexivity.
Qed.

Lemma dotless_encode (text : string) : dotless (b64url_encode text) = true.
Proof.
  unfold b64url_encode.
  pose proof (b64url_sextets_range (list_ascii_of_string text)) as Hrange.
  induction Hrange as [|i l Hi _ IH]; [reflexivity|].
  cbn [map string_of_list_ascii dotless]. rewrite IH.
  destruct (b64_char_facts i Hi) as (_ & _ & _ & Hdot).
  destruct (Ascii.eqb_spec (b64url_char i) "."); [contradiction | reflexivity].
Qed.

Lemma slice_last2_code (c : ascii) :
  slice_last2 ("00" +:+ toString16 (code c))
  = String (hex_digit (code c / 16)) (String (hex_digit (code c mod 16)) EmptyString).
Proof.
  destruct c as [[] [] [] [] [] [] [] []]; vm_compute; reflexivity.
Qed.

Lemma encoded_cons (c : ascii) (l : list ascii) :
  encoded (c :: l)
  = "%"%char :: hex_digit (code c / 16) :: hex_digit (code c mod 16) :: encoded l.
Proof.
  unfold encoded. cbn [string_of_list_ascii percent_encode].
  rewrite slice_last2_code. reflexivity.
Qed.

Lemma read_escape_encoded (c : ascii) (rest : list ascii) :
  read_escape ("%"%char :: hex_digit (code c / 16) :: hex_digit (code c mod 16) :: rest)
  = Some (code c, rest).
Proof.
  destruct c as [[] [] [] [] [] [] [] []]; reflexivity.
Qed.

Ltac bounds :=
  repeat match goal with
    | H : _ && _ = true |- _ => apply andb_prop in H; destruct H
    | H : between _ _ _ = true |- _ => unfold between in H
    | H : (_ <=? _) = true |- _ => apply Z.leb_le in H
    | H : (_ <? _) = false |- _ => apply Z.ltb_ge in H
    | H : (_ <? _) = true |- _ => apply Z.ltb_lt in H
    | H : (_ =? _) = true |- _ => apply Z.eqb_eq in H
    | H : (_ =? _) = false |- _ => apply Z.eqb_neq in H
    end.

Ltac holds :=
  repeat (apply andb_true_intro; split);
  first [ apply Z.leb_le; lia | apply Z.ltb_lt; lia
        | apply negb_true_iff, andb_false_iff;
          first [ left; apply Z.leb_gt; lia | right; apply Z.leb_gt; lia ] ].

Lemma read_continuation (b : ascii) (n : nat) (rest : list ascii) :
  between 128 191 b = true ->
  read_continuations (S n) (encoded (b :: rest))
  = match read_continuations n (encoded rest) with
    | Some (bs, rest') => Some (code b :: bs, rest')
    | None => None
    end.
Proof.
  intros Hb. cbn [read_continuations]. rewrite encoded_cons, read_escape_encoded.
  unfold between in Hb. rewrite Hb. reflexivity.
Qed.

Lemma decode_uri_encoded (fuel : nat) :
  forall l, well_formed_utf8 l = true -> (length l < fuel)%nat ->
            decode_uri fuel (encoded l) = Some l.
Proof.
  induction fuel as [|fuel IH]; intros l Hwf Hlen; [lia|].
  destruct l as [|a l1]; [reflexivity|].
  rewrite encoded_cons. cbn [decode_uri].
  change (Ascii.eqb "%" "%") with true. cbv iota.
  rewrite read_escape_encoded. cbn [well_formed_utf8] in Hwf.
  destruct (code a <? 128) eqn:Ha.
  { rewrite IH by (trivial; cbn in Hlen; lia). cbn. rewrite chr_code. reflexivity. }
  destruct l1 as [|b l2]; [discriminate|].
  destruct (between 194 223 a) eqn:Ha2.
  { apply andb_prop in Hwf. destruct Hwf as [Hb Hwf].
    replace (utf8_length (code a)) with 2%nat
      by (unfold utf8_length; bounds; replace ((192 <=? code a) && (code a <=? 223)) with true
            by (symmetry; holds); reflexivity).
    rewrite (read_continuation b 0 l2 Hb). cbn [read_continuations].
    replace (utf8_valid (code a) [code b]) with true
      by (symmetry; unfold utf8_valid; bounds; holds).
    rewrite IH by (trivial; cbn in Hlen; lia). cbn. rewrite !chr_code. reflexivity. }
  destruct l2 as [|c l3]; [discriminate|].
  destruct (between 224 239 a) eqn:Ha3.
  { apply andb_prop in Hwf. destruct Hwf as [Hbc Hwf].
    apply andb_prop in Hbc. destruct Hbc as [Hb Hc].
    assert (Hb' : between 128 191 b = true).
    { unfold second_of_three in Hb.
      destruct (code a =? 224); [|destruct (code a =? 237)]; bounds; unfold between; holds. }
    replace (utf8_length (code a)) with 3%nat.
    2:{ unfold utf8_length. bounds.
        replace ((192 <=? code a) && (code a <=? 223)) with false
          by (symmetry; apply andb_false_iff; right; apply Z.leb_gt; lia).
        replace ((224 <=? code a) && (code a <=? 239)) with true by (symmetry; holds).
        reflexivity. }
    rewrite (read_continuation b 1 (c :: l3) Hb'), (read_continuation c 0 l3 Hc).
    cbn [read_continuations].
    replace (utf8_valid (code a) [code b; code c]) with true.
    2:{ symmetry. unfold utf8_valid. cbv zeta. unfold second_of_three in Hb.
        destruct (code a =? 224) eqn:E1; [|destruct (code a =? 237) eqn:E2]; bounds.
        - holds.
        - holds.
        - destruct (Z_le_gt_dec (code a) 237); holds. }
    rewrite IH by (trivial; cbn in Hlen; lia). cbn. rewrite !chr_code. reflexivity. }
  destruct l3 as [|d l4]; [discriminate|].
  apply andb_prop in Hwf. destruct Hwf as [Hbcd Hwf].
  apply andb_prop in Hbcd. destruct Hbcd as [Hbc Hd].
  apply andb_prop in Hbc. destruct Hbc as [Hb Hc].
  apply andb_prop in Hb. destruct Hb as [Ha4 Hb].
  assert (Hb' : between 128 191 b = true).
  { unfold second_of_four in Hb.
    destruct (code a =? 240); [|destruct (code a =? 244)]; bounds; unfold between; holds. }
  replace (utf8_length (code a)) with 4%nat.
  2:{ unfold utf8_length. bounds.
      replace ((192 <=? code a) && (code a <=? 223)) with false
        by (symmetry; apply andb_false_iff; right; apply Z.leb_gt; lia).
      replace ((224 <=? code a) && (code a <=? 239)) with false
        by (symmetry; apply andb_false_iff; right; apply Z.leb_gt; lia).
      replace ((240 <=? code a) && (code a <=? 247)) with true by (symmetry; holds).
      reflexivity. }
  rewrite (read_continuation b 2 (c :: d :: l4) Hb'), (read_continuation c 1 (d :: l4) Hc),
    (read_continuation d 0 l4 Hd).
  cbn [read_continuations].
  replace (utf8_valid (code a) [code b; code c; code d]) with true.
  2:{ symmetry. unfold utf8_valid. cbv zeta. unfold second_of_four in Hb.
      destruct (code a =? 240) eqn:E1; [|destruct (code a =? 244) eqn:E2]; bounds; holds. }
  rewrite IH by (trivial; cbn in Hlen; lia). cbn. rewrite !chr_code. reflexivity.
Qed.

Lemma string_length_list (s : string) : String.length s = length (list_ascii_of_string s).
Proof. induction s as [|c s IH]; cbn; [reflexivity | rewrite IH; reflexivity]. Qed.

Lemma encoded_length (l : list ascii) : length (encoded l) = (3 * length l)%nat.
Proof.
  induction l as [|c l IH]; [reflexivity|].
  rewrite encoded_cons. cbn [length]. rewrite IH. lia.
Qed.

(** Percent-encoding every byte and decoding the result gives the bytes
    back when they are well-formed UTF-8. *)
Lemma decodeURIComponent_percent_encode (bin : string) :
  well_formed_utf8 (list_ascii_of_string bin) = true ->
  decodeURIComponent (percent_encode bin) = Some bin.
Proof.
  intros Hwf. unfold decodeURIComponent.
  rewrite <- (string_of_list_ascii_of_string bin) at 1 2.
  fold (encoded (list_ascii_of_string bin)).
  rewrite decode_uri_encoded; trivial.
  - cbn. rewrite string_of_list_ascii_of_string. reflexivity.
  - rewrite string_length_list.
    change (list_ascii_of_string (percent_encode (string_of_list_ascii (list_ascii_of_string bin))))
      with (encoded (list_ascii_of_string bin)).
    rewrite encoded_length. lia.
Qed.

(** The decoding steps of the source undo the encoding of a token's
    payload: what is parsed is the encoded text itself. *)
Lemma decode_segment_encode (text : string) :
  well_formed_utf8 (list_ascii_of_string text) = true ->
  decode_segment (b64url_encode text) = JSON_parse text.
Proof.
  intros Hwf. unfold decode_segment. rewrite atob_encode. cbn [mbind option_bind].
  rewrite (decodeURIComponent_percent_encode _ Hwf). reflexivity.
Qed.

(** C5, as the code has it.  [decodeToken] never looks at the number of
    segments: it decodes whatever stands between the first and the second
    dot (or the end).  For a token of three dotless segments whose middle
    one is the base64url encoding of the UTF-8 text of a JSON object, the
    claims returned are that object, so [exp] is the encoded value.  The
    result is [null] for the empty string and for any input without a
    dot, for a middle segment that [atob] rejects (one with a character
    outside the alphabet, for instance), whose bytes are not UTF-8, or
    whose text is not JSON.  [parseJwt] in a browsing context is the same
    function. *)
Theorem decodeToken_second_segment :
  (forall header text signature claims exp,
     dotless header = true -> dotless signature = true ->
     well_formed_utf8 (list_ascii_of_string text) = true ->
     JSON_parse text = Some (VObj claims) ->
     lookup_field "exp" claims = Some exp ->
     decodeToken (header +:+ "." +:+ b64url_encode text +:+ "." +:+ signature)
       = VObj claims /\
     get_prop (decodeToken (header +:+ "." +:+ b64url_encode text +:+ "." +:+ signature))
       "exp" = inr exp) /\
  decodeToken "" = VNull /\
  (forall token, dotless token = true -> decodeToken token = VNull) /\
  (forall header payload rest,
     dotless header = true -> dotless payload = true -> segment_end rest = true ->
     decodeToken (header +:+ "." +:+ payload +:+ rest)
       = default VNull (decode_segment payload)) /\
  (forall header payload rest,
     dotless header = true -> dotless payload = true -> segment_end rest = true ->
     atob (replace_all "_" "/" (replace_all "-" "+" payload)) = None ->
     decodeToken (header +:+ "." +:+ payload +:+ rest) = VNull) /\
  (forall header payload rest bin,
     dotless header = true -> dotless payload = true -> segment_end rest = true ->
     atob (replace_all "_" "/" (replace_all "-" "+" payload)) = Some bin ->
     decodeURIComponent (percent_encode bin) = None ->
     decodeToken (header +:+ "." +:+ payload +:+ rest) = VNull) /\
  (forall header payload rest bin text,
     dotless header = true -> dotless payload = true -> segment_end rest = true ->
     atob (replace_all "_" "/" (replace_all "-" "+" payload)) = Some bin ->
     decodeURIComponent (percent_encode bin) = Some text ->
     JSON_parse text = None ->
     decodeToken (header +:+ "." +:+ payload +:+ rest) = VNull) /\
  (forall token, parseJwt true token = decodeToken token) /\
  (forall header payload rest c,
     dotless header = true -> dotless payload = true -> segment_end rest = true ->
     In c (list_ascii_of_string payload) ->
     b64_index c = None -> is_ascii_whitespace c = false ->
     c <> "="%char -> c <> "-"%char -> c <> "_"%char ->
     decodeToken (header +:+ "." +:+ payload +:+ rest) = VNull).
Proof.
  assert (Hgen : forall header payload rest,
     dotless header = true -> dotless payload = true -> segment_end rest = true ->
     decodeToken (header +:+ "." +:+ payload +:+ rest)
       = default VNull (decode_segment payload)).
  { intros header payload rest Hh Hp Hr. unfold decodeToken.
    rewrite (decode_payload_second _ _ _ Hh Hp Hr). reflexivity. }
  assert (Hvalid : forall header text signature claims,
     dotless header = true ->
     well_formed_utf8 (list_ascii_of_string text) = true ->
     JSON_parse text = Some (VObj claims) ->
     decodeToken (header +:+ "." +:+ b64url_encode text +:+ "." +:+ signature)
       = VObj claims).
  { intros header text signature claims Hh Hwf Hjson.
    rewrite (Hgen header (b64url_encode text) ("." +:+ signature) Hh
               (dotless_encode text) eq_refl).
    rewrite (decode_segment_encode text Hwf), Hjson. reflexivity. }
  split.
  { intros header text signature claims exp Hh _ Hwf Hjson Hexp.
    rewrite (Hvalid header text signature claims Hh Hwf Hjson).
    split; [reflexivity|]. cbn [get_prop]. rewrite Hexp. reflexivity. }
  repeat split.
  - intros token H. unfold decodeToken. rewrite (decode_payload_dotless _ H). reflexivity.
  - exact Hgen.
  - intros header payload rest Hh Hp Hr Hatob. rewrite (Hgen _ _ _ Hh Hp Hr).
    unfold decode_segment. rewrite Hatob. reflexivity.
  - intros header payload rest bin Hh Hp Hr Hatob Huri. rewrite (Hgen _ _ _ Hh Hp Hr).
    unfold decode_segment. rewrite Hatob. cbn [mbind option_bind]. rewrite Huri. reflexivity.
  - intros header payload rest bin text Hh Hp Hr Hatob Huri Hjson.
    rewrite (Hgen _ _ _ Hh Hp Hr).
    unfold decode_segment. rewrite Hatob. cbn [mbind option_bind]. rewrite Huri.
    cbn [mbind option_bind]. rewrite Hjson. reflexivity.
  - intros header payload rest c Hh Hp Hr Hin Hidx Hws Heq Hminus Hunder.
    rewrite (Hgen _ _ _ Hh Hp Hr).
    rewrite (decode_segment_rejects payload c Hin Hidx Hws Heq Hminus Hunder). reflexivity.
Qed.

(* ===================================================================== *)
(** ** Overlapping calls *)
(* ===================================================================== *)

Lemma start_blocked {A : Type} (t : Task A) w req k w' :
  advance t w = Blocked req k w' ->
  start t w = add_background (req, fun r => k r ;; Ret tt) w'.
Proof.
  intros H. unfold start. cbn [advance]. rewrite advance_bind, H. reflexivity.
Qed.

Lemma deliver_head x w req k rest :
  background w = (req, k) :: rest ->
  deliver 0 x w =
  match advance (k x) (set_background rest w) with
  | Finished _ w' => w'
  | Blocked req' k' w' => add_background (req', k') w'
  end.
Proof. intros H. unfold deliver. rewrite H. reflexivity. Qed.

Lemma purged_world w b :
  window w = Some b ->
  purged w =
  mkWorld (Some (mkBrowser (delete "refresh_token" (delete "access_token" (localStorage b)))
                   (pathname b)))
    (session w) (clock w)
    (trace w ++ [EvRemoveItem "access_token"; EvRemoveItem "refresh_token"])
    (background w).
Proof.
  intros Hw. open_world w Hw. unfold purged. world_unfold. rewrite <- app_assoc. reflexivity.
Qed.

Lemma redirected_world w b :
  window w = Some b ->
  redirected w =
  mkWorld (window w) (session w) (clock w)
    (trace w ++ if on_auth_page w then [] else [EvLocationHref "/login"])
    (background w).
Proof.
  intros Hw. open_world w Hw. unfold redirected, on_auth_page. world_unfold.
  destruct (_ || _); world_unfold; rewrite ?app_nil_r; reflexivity.
Qed.

Lemma purge_redirect_world w b :
  window w = Some b ->
  redirected (purged w) =
  mkWorld (Some (mkBrowser (delete "refresh_token" (delete "access_token" (localStorage b)))
                   (pathname b)))
    (session w) (clock w)
    (trace w ++ purge_redirect_events w)
    (background w).
Proof.
  intros Hw. rewrite (purged_world w b Hw).
  erewrite redirected_world by reflexivity.
  unfold purge_redirect_events, on_auth_page. cbn [window trace session clock background pathname].
  rewrite Hw, <- app_assoc. reflexivity.
Qed.

Section Overlap.

Variable API_BASE_URL : string.
Variable NumberToString : decimal -> string.

Abbreviation build_request' := (build_request API_BASE_URL NumberToString).
Abbreviation refresh_request' := (refresh_request API_BASE_URL).
Abbreviation afterRefresh' := (afterRefresh API_BASE_URL NumberToString).
Abbreviation respond' := (respond NumberToString).
Abbreviation afterResponse' := (afterResponse API_BASE_URL NumberToString).
Abbreviation apiRequest' := (apiRequest API_BASE_URL NumberToString).
Abbreviation awaiting_response' := (awaiting_response API_BASE_URL NumberToString).
Abbreviation awaiting_refresh' := (awaiting_refresh API_BASE_URL NumberToString).

Lemma start_apiRequest ep opts w :
  start (apiRequest' ep opts) w =
  add_background (build_request' ep opts (current_token w), awaiting_response' ep opts)
    (log (EvFetch (build_request' ep opts (current_token w))) w).
Proof.
  apply start_blocked. unfold apiRequest. rewrite advance_bind, advance_doRequest. reflexivity.
Qed.

(** A 401 arrives for a call that waits for its first answer: the call
    issues a refresh of its own, whatever else is in flight. *)
Lemma deliver_401 ep opts w b rt r req rest :
  window w = Some b ->
  localStorage b !! "refresh_token" = Some rt ->
  rt <> "" ->
  status r = 401 ->
  background w = (req, awaiting_response' ep opts) :: rest ->
  deliver 0 (inr r) w =
  add_background (refresh_request' rt, awaiting_refresh' ep opts)
    (log (EvFetch (refresh_request' rt)) (set_background rest w)).
Proof.
  intros Hw Hrt Hne Hs Hbg. rewrite (deliver_head _ _ _ _ _ Hbg).
  unfold awaiting_response, afterResponse. cbn [settle].
  rewrite !advance_bind, advance_Ret. cbv beta iota.
  replace (status r =? 401) with true by (rewrite Hs; reflexivity).
  rewrite !advance_bind.
  rewrite (advance_on401_refresh API_BASE_URL NumberToString ep opts r _ b rt); trivial.
Qed.

(** A refused refresh: the [else] branch purges, redirects and throws; the
    [catch] block around it catches that error, purges and redirects once
    more and throws its own. *)
Lemma advance_refresh_refused ep opts rr w b :
  ok rr = false ->
  window w = Some b ->
  exists m,
  advance (try_catch (afterRefresh' ep opts rr) onRefreshError) w =
  Finished (inl (ApiError m 401 None)) (redirected (purged (redirected (purged w)))).
Proof.
  intros Hok Hw. unfold afterRefresh. rewrite Hok.
  assert (Hw2 : window (redirected (purged w))
                = Some (mkBrowser (delete "refresh_token" (delete "access_token" (localStorage b)))
                          (pathname b))).
  { rewrite (purge_redirect_world _ _ Hw). reflexivity. }
  assert (Hw1 : window (purged w)
                = Some (mkBrowser (delete "refresh_token" (delete "access_token" (localStorage b)))
                          (pathname b))).
  { rewrite (purged_world _ _ Hw). reflexivity. }
  assert (Hw3 : is_Some (window (purged (redirected (purged w))))).
  { rewrite (purged_world _ _ Hw2). eauto. }
  destruct Hw3 as [b3 Hw3].
  rewrite advance_try_catch, advance_bind, (json_result_error_data rr w (fun e => Throw e)).
  rewrite advance_bind, (advance_purgeTokens _ _ Hw).
  rewrite advance_bind, (advance_redirectToLogin _ _ Hw1).
  rewrite advance_bind, advance_getProp.
  destruct (get_prop (error_data rr) "detail") as [e|detail]; cbv beta iota;
    rewrite ?advance_Throw; cbv beta iota; unfold onRefreshError;
    rewrite advance_bind, (advance_purgeTokens _ _ Hw2);
    rewrite advance_bind, (advance_redirectToLogin _ _ Hw3);
    rewrite advance_Throw; eexists; reflexivity.
Qed.

Lemma deliver_refused ep opts w b r req rest :
  window w = Some b ->
  ok r = false ->
  background w = (req, awaiting_refresh' ep opts) :: rest ->
  deliver 0 (inr r) w =
  redirected (purged (redirected (purged (set_background rest w)))).
Proof.
  intros Hw Hok Hbg. rewrite (deliver_head _ _ _ _ _ Hbg).
  unfold awaiting_refresh. cbn [settle]. rewrite !advance_bind.
  change (Ret r ≫= afterRefresh' ep opts) with (afterRefresh' ep opts r).
  destruct (advance_refresh_refused ep opts r (set_background rest w) b Hok Hw) as [m Hm].
  rewrite Hm. reflexivity.
Qed.

Lemma refused_world w b :
  window w = Some b ->
  redirected (purged (redirected (purged w))) =
  mkWorld
    (Some (mkBrowser
             (delete "refresh_token" (delete "access_token"
                (delete "refresh_token" (delete "access_token" (localStorage b)))))
             (pathname b)))
    (session w) (clock w)
    (trace w ++ purge_redirect_events w ++ purge_redirect_events w)
    (background w).
Proof.
  intros Hw. rewrite (purge_redirect_world w b Hw).
  erewrite purge_redirect_world by reflexivity.
  cbn [session clock trace background localStorage pathname].
  rewrite <- app_assoc. unfold purge_redirect_events, on_auth_page. cbn [window pathname].
  rewrite Hw. reflexivity.
Qed.


End Overlap.

(* ===================================================================== *)
(** ** The claims on a session of the admin panel *)
(* ===================================================================== *)

Lemma apiRequest_refresh_then_retry_witness :
  exists res w',
    run [inr unauthorized; inr refresh_granted; inr cards_page] get_cards signed_in
      = Finished res w' /\
    fetches (since (trace signed_in) (trace w')) =
      [build_request base_url NumberToString_std "/api/cards/" no_options
         (current_token signed_in);
       refresh_request base_url "r1";
       build_request base_url NumberToString_std "/api/cards/" no_options (VStr "fresh")] /\
    req_headers (build_request base_url NumberToString_std "/api/cards/" no_options
                   (VStr "fresh")) !! "Authorization"
      = Some ("Bearer " +:+ "fresh") /\
    (forall w0, advance (respond NumberToString_std cards_page) w0 = Finished res w0).
Proof.
  destruct (apiRequest_refresh_then_retry base_url NumberToString_std "/api/cards/" no_options
              signed_in signed_in_browser "r1" unauthorized refresh_granted cards_page
              (VObj [("status", VStr "success");
                     ("data", VObj [("access_token", VStr "fresh");
                                    ("refresh_token", VStr "r2")])])
              (VObj [("access_token", VStr "fresh"); ("refresh_token", VStr "r2")])
              (VStr "fresh") (VStr "r2"))
    as (res & w' & Hrun & Hf & _ & (_ & _ & _ & Hauth) & Hres & _);
    try reflexivity; [discriminate|].
  exists res, w'. auto.
Defined.

Lemma apiRequest_refresh_stores_tokens_witness :
  (exists k w',
     run [inr unauthorized; inr refresh_granted] get_cards signed_in
       = Blocked (build_request base_url NumberToString_std "/api/cards/" no_options
                    (VStr "fresh")) k w' /\
     stored "access_token" w' = Some "fresh" /\
     stored "refresh_token" w' = Some "r2" /\
     count is_dispatch (since (trace signed_in) (trace w')) = 1%nat) /\
  (exists k w',
     run [inr unauthorized; inr refresh_granted_bare] get_cards signed_in
       = Blocked (build_request base_url NumberToString_std "/api/cards/" no_options
                    (VStr "fresh")) k w' /\
     stored "access_token" w' = Some "fresh" /\
     stored "refresh_token" w' = Some "r1" /\
     since (trace signed_in) (trace w')
       = [EvFetch (build_request base_url NumberToString_std "/api/cards/" no_options
                     (VStr admin_token));
          EvFetch (refresh_request base_url "r1");
          EvSetItem "access_token" "fresh";
          EvDispatch "tokenRefreshed";
          EvFetch (build_request base_url NumberToString_std "/api/cards/" no_options
                     (VStr "fresh"))]).
Proof.
  split.
  - destruct (apiRequest_refresh_stores_tokens base_url NumberToString_std "/api/cards/"
                no_options signed_in signed_in_browser "r1" unauthorized refresh_granted
                (VObj [("status", VStr "success");
                       ("data", VObj [("access_token", VStr "fresh");
                                      ("refresh_token", VStr "r2")])])
                (VObj [("access_token", VStr "fresh"); ("refresh_token", VStr "r2")])
                (VStr "fresh") (VStr "r2"))
      as (k & w' & Hrun & Ha & Hr & _ & _ & Hd & _);
      try reflexivity; [discriminate|].
    exists k, w'. auto.
  - destruct (apiRequest_refresh_stores_tokens base_url NumberToString_std "/api/cards/"
                no_options signed_in signed_in_browser "r1" unauthorized refresh_granted_bare
                (VObj [("access_token", VStr "fresh"); ("refresh_token", VNull);
                       ("data", VNull)])
                VNull (VStr "fresh") VNull)
      as (k & w' & Hrun & Ha & Hr & _ & Htr & _);
      try reflexivity; [discriminate|].
    exists k, w'. auto.
Defined.

Lemma apiRequest_non401_leaves_storage_witness :
  exists res w',
    run [inr forbidden] get_cards signed_in = Finished res w' /\
    window w' = window signed_in /\
    since (trace signed_in) (trace w') =
      [EvFetch (build_request base_url NumberToString_std "/api/cards/" no_options
                  (current_token signed_in))] /\
    count is_storage_write (since (trace signed_in) (trace w')) = 0%nat.
Proof.
  apply (apiRequest_non401_leaves_storage base_url NumberToString_std "/api/cards/" no_options
           signed_in forbidden).
  discriminate.
Defined.

Lemma checkAuth_initial_states_witness :
  (exists w',
     advance (checkAuth base_url NumberToString_std StringToNumber_std) signed_in
       = Finished (inr tt) w' /\
     session w' = mkSession true (VBool true) false /\
     trace w' = trace signed_in /\ background w' = background signed_in /\
     window w' = window signed_in) /\
  (exists w',
     advance (checkAuth base_url NumberToString_std StringToNumber_std) signed_out
       = Finished (inr tt) w' /\
     session w' = mkSession false (VBool false) false /\
     trace w' = trace signed_out /\ background w' = background signed_out /\
     window w' = window signed_out).
Proof.
  split.
  - apply (proj1 (checkAuth_initial_states base_url NumberToString_std StringToNumber_std)
             signed_in signed_in_browser admin_token admin_claims 1700000600).
    + reflexivity.
    + vm_compute. reflexivity.
    + vm_compute. reflexivity.
    + reflexivity.
    + reflexivity.
    + reflexivity.
  - apply (proj2 (checkAuth_initial_states base_url NumberToString_std StringToNumber_std)
             signed_out signed_out_browser).
    + reflexivity.
    + reflexivity.
Defined.

Lemma logout_always_clears_witness :
  exists w',
    run [unreachable; unreachable; unreachable] (logout base_url NumberToString_std) signed_in
      = Finished (inr tt) w' /\
    isAuthenticated (session w') = false /\
    isAdmin (session w') = VBool false /\
    stored "access_token" w' = None /\
    stored "refresh_token" w' = None.
Proof.
  destruct (logout_always_clears base_url NumberToString_std signed_in signed_in_browser
              [unreachable; unreachable; unreachable] eq_refl) as [Hafter Hsettles].
  destruct Hsettles as [w' Hw']; [cbn; lia|].
  exists w'. split; [exact Hw'|].
  destruct (Hafter _ _ Hw') as [_ H]. exact H.
Defined.

Lemma decodeToken_second_segment_witness :
  decodeToken admin_token = VObj admin_claims /\
  get_prop (decodeToken admin_token) "exp" = inr (VNum (Dec 1700000600 0)) /\
  decodeToken "abc" = VNull /\
  decodeToken ("e30" +:+ "." +:+ "eyJleHAiOjF9" +:+ "")
    = default VNull (decode_segment "eyJleHAiOjF9") /\
  decodeToken ("e30" +:+ "." +:+ "Y" +:+ ".c2ln") = VNull /\
  decodeToken ("e30" +:+ "." +:+ "gA" +:+ ".c2ln") = VNull /\
  decodeToken ("e30" +:+ "." +:+ "ew" +:+ ".c2ln") = VNull /\
  decodeToken ("e30" +:+ "." +:+ "a!b" +:+ ".c2ln") = VNull.
Proof.
  pose proof decodeToken_second_segment
    as (Hvalid & _ & Hdotless & Hsecond & Hatob & Huri & Hjson & _ & Hchar).
  destruct (Hvalid "eyJhbGciOiJIUzI1NiIsInR5cCI6IkpXVCJ9" admin_claims_text
              "c2ln" admin_claims (VNum (Dec 1700000600 0)))
    as [H1 H2]; try reflexivity.
  split; [exact H1|]. split; [exact H2|].
  split; [apply Hdotless; reflexivity|].
  split; [apply Hsecond; reflexivity|].
  split; [apply Hatob; reflexivity|].
  split; [apply (Huri _ _ _ (String (chr 128) EmptyString)); vm_compute; reflexivity|].
  split; [apply (Hjson _ _ _ "{" "{"); vm_compute; reflexivity|].
  apply (Hchar _ _ _ "!"%char);
    [reflexivity | reflexivity | reflexivity | right; left; reflexivity
    | reflexivity | reflexivity | | | ]; intros E; discriminate E.
Defined.

(** C5 as it is worded fails: an input with a wrong number of segments is
    not rejected.  Two segments, then four; the second one is the JSON
    text of an object with [exp] 1, and it is decoded. *)
Lemma decodeToken_wrong_segment_count :
  length (split_on "." "e30.eyJleHAiOjF9") = 2%nat /\
  decodeToken "e30.eyJleHAiOjF9" = VObj [("exp", VNum (Dec 1 0))] /\
  length (split_on "." "e30.eyJleHAiOjF9.c2ln.c2ln") = 4%nat /\
  decodeToken "e30.eyJleHAiOjF9.c2ln.c2ln" = VObj [("exp", VNum (Dec 1 0))].
Proof. vm_compute. repeat split. Qed.



(** C1 at a retry that cannot reach the backend.  The refresh has been
    granted and its tokens are stored and announced; the retry is sent
    inside the [try] block that guards the refresh, so its rejection is
    taken for a failure of the refresh: the call removes the two tokens
    it has just stored, assigns [/login] to the location and rejects with
    an [ApiError] of status 401 whose message starts [Failed to refresh
    token].  The same rejection on a call that saw no 401 reaches the
    caller as it is and leaves the store alone. *)
Theorem apiRequest_retry_rejected :
  outcome_result
    (run [inr unauthorized; inr refresh_granted; unreachable] get_cards signed_in)
  = Some (inl (ApiError "Failed to refresh token: Failed to fetch" 401 None)) /\
  since (trace signed_in)
    (trace (outcome_world
       (run [inr unauthorized; inr refresh_granted; unreachable] get_cards signed_in)))
  = [EvFetch (build_request base_url NumberToString_std "/api/cards/" no_options
                (VStr admin_token));
     EvFetch (refresh_request base_url "r1");
     EvSetItem "access_token" "fresh";
     EvSetItem "refresh_token" "r2";
     EvDispatch "tokenRefreshed";
     EvFetch (build_request base_url NumberToString_std "/api/cards/" no_options
                (VStr "fresh"));
     EvRemoveItem "access_token";
     EvRemoveItem "refresh_token";
     EvLocationHref "/login"] /\
  stored "access_token"
    (outcome_world
       (run [inr unauthorized; inr refresh_granted; unreachable] get_cards signed_in)) = None /\
  stored "refresh_token"
    (outcome_world
       (run [inr unauthorized; inr refresh_granted; unreachable] get_cards signed_in)) = None /\
  outcome_result (run [unreachable] get_cards signed_in)
  = Some (inl (JsError (JsErr "TypeError" "Failed to fetch"))) /\
  window (outcome_world (run [unreachable] get_cards signed_in)) = window signed_in.
Proof. vm_compute. repeat split. Qed.

(** C2 at a retried response whose body is [null]: the call neither
    refreshes nor retries again, yet what it throws is the [TypeError] of
    reading [errorData.detail], which carries no status. *)
Lemma apiRequest_second_401_null_body :
  outcome_result
    (run [inr unauthorized; inr refresh_granted; inr unauthorized_null] get_cards signed_in)
  = Some (inl (JsError (JsErr "TypeError"
                 "Cannot read properties of null (reading 'detail')"))) /\
  length (fetches (trace (outcome_world
    (run [inr unauthorized; inr refresh_granted; inr unauthorized_null] get_cards signed_in))))
  = 3%nat.
Proof. vm_compute. split; reflexivity. Qed.

(** C3 at a 401 whose body is [null], without a refresh token: no refresh
    is issued and the access token is removed, yet what the call throws
    is the [TypeError] of reading [errorData.detail]. *)
Lemma apiRequest_401_null_body_without_refresh_token :
  outcome_result (run [inr unauthorized_null] get_cards no_refresh_token)
  = Some (inl (JsError (JsErr "TypeError"
                 "Cannot read properties of null (reading 'detail')"))) /\
  length (fetches (trace (outcome_world
    (run [inr unauthorized_null] get_cards no_refresh_token)))) = 1%nat /\
  stored "access_token" (outcome_world (run [inr unauthorized_null] get_cards no_refresh_token))
  = None.
Proof. vm_compute. repeat split. Qed.

(** C9 at a 403 whose body is [null]: the store is untouched, yet what the
    call throws is the [TypeError] of reading [errorData.detail]. *)
Lemma apiRequest_403_null_body :
  outcome_result (run [inr forbidden_null] get_cards signed_in)
  = Some (inl (JsError (JsErr "TypeError"
                 "Cannot read properties of null (reading 'detail')"))) /\
  window (outcome_world (run [inr forbidden_null] get_cards signed_in)) = window signed_in.
Proof. vm_compute. split; reflexivity. Qed.

(* ===================================================================== *)
(** ** The gateway: the remaining paths of one call *)
(* ===================================================================== *)

Section GatewayPaths.

Variable API_BASE_URL : string.
Variable NumberToString : decimal -> string.

Abbreviation ToString' := (ToString NumberToString).
Abbreviation build_request' := (build_request API_BASE_URL NumberToString).
Abbreviation refresh_request' := (refresh_request API_BASE_URL).
Abbreviation afterRefresh' := (afterRefresh API_BASE_URL NumberToString).
Abbreviation respond' := (respond NumberToString).
Abbreviation afterResponse' := (afterResponse API_BASE_URL NumberToString).
Abbreviation apiRequest' := (apiRequest API_BASE_URL NumberToString).

Lemma run_apiRequest_ok ep opts w r0 extra :
  ok r0 = true ->
  run (inr r0 :: extra) (apiRequest' ep opts) w
  = Finished (if status r0 =? 204 then inr (VObj []) else json_result r0)
      (log (EvFetch (build_request' ep opts (current_token w))) w).
Proof.
  intros Hok.
  assert (Hs : status r0 <> 401).
  { intros E. unfold ok in Hok. rewrite E in Hok. discriminate. }
  rewrite (run_apiRequest_direct _ _ _ _ _ _ _ Hs).
  unfold respond. rewrite Hok. cbn [negb].
  destruct (status r0 =? 204).
  - rewrite advance_Ret. reflexivity.
  - rewrite advance_awaitJson. reflexivity.
Qed.

(** A failure status other than 401 makes the call throw after its one
    request. *)
Lemma run_apiRequest_not_ok ep opts w r0 extra :
  ok r0 = false ->
  status r0 <> 401 ->
  exists e,
    run (inr r0 :: extra) (apiRequest' ep opts) w
    = Finished (inl e) (log (EvFetch (build_request' ep opts (current_token w))) w).
Proof.
  intros Hok Hs. rewrite (run_apiRequest_direct _ _ _ _ _ _ _ Hs).
  unfold respond. rewrite Hok. cbn [negb].
  rewrite advance_bind, (json_result_error_data r0 _ (fun e => Throw e)).
  destruct (status r0 =? 403).
  - rewrite advance_bind, advance_getProp.
    destruct (get_prop (error_data r0) "detail"); eexists; reflexivity.
  - rewrite (advance_throwApiError NumberToString).
    destruct (get_prop (error_data r0) "detail"); eexists; reflexivity.
Qed.

(** X1.  A call answered 2xx settles after that one request with the
    parsed body of the response, or with the rejection of
    [response.json()] when the body is not JSON; for status 204 it settles
    with an empty object and the body is never read.  The store and the
    auth state are as before. *)
Theorem apiRequest_success ep opts w r0 extra :
  ok r0 = true ->
  exists w',
    run (inr r0 :: extra) (apiRequest' ep opts) w
      = Finished (if status r0 =? 204 then inr (VObj []) else json_result r0) w' /\
    window w' = window w /\ session w' = session w /\
    since (trace w) (trace w') = [EvFetch (build_request' ep opts (current_token w))].
Proof.
  intros Hok. eexists. rewrite (run_apiRequest_ok ep opts w r0 extra Hok).
  repeat split. cbn [trace log]. apply since_app.
Qed.


(** X4.  A failure status other than 401 and 403, in each of the three
    cases of its body.  When [detail] can be read from the body, the call
    rejects with an [ApiError] that carries the status and the response;
    its message is [detail] when that is truthy, else the status text,
    else [An error occurred].  A body that is not JSON counts as an empty
    object.  A body from which [detail] cannot be read, which is the JSON
    text [null], makes the call reject with the [TypeError] of that read
    and not with an [ApiError].  In every case the store is not touched.
    (A [detail] that is an object with a [toString] member of its own is
    left out.) *)
Theorem apiRequest_error_message ep opts w r0 extra :
  ok r0 = false ->
  status r0 <> 401 ->
  status r0 <> 403 ->
  (forall detail,
     get_prop (error_data r0) "detail" = inr detail ->
     printable detail = true ->
     exists w',
       run (inr r0 :: extra) (apiRequest' ep opts) w
         = Finished (inl (ApiError
                            (ToString' (js_or (js_or detail (VStr (statusText r0)))
                                          (VStr "An error occurred")))
                            (status r0) (Some r0))) w' /\
       window w' = window w) /\
  (forall e,
     json r0 = BodyFails e ->
     exists w',
       run (inr r0 :: extra) (apiRequest' ep opts) w
         = Finished (inl (ApiError
                            (if String.eqb (statusText r0) "" then "An error occurred"
                             else statusText r0)
                            (status r0) (Some r0))) w' /\
       window w' = window w) /\
  (forall e,
     get_prop (error_data r0) "detail" = inl e ->
     exists w',
       run (inr r0 :: extra) (apiRequest' ep opts) w = Finished (inl e) w' /\
       window w' = window w) /\
  (json r0 = BodyJson VNull ->
   get_prop (error_data r0) "detail"
   = inl (JsError (JsErr "TypeError" "Cannot read properties of null (reading 'detail')"))).
Proof.
  intros Hok Hs Hs3.
  assert (Hgen : forall detail,
     get_prop (error_data r0) "detail" = inr detail ->
     exists w',
       run (inr r0 :: extra) (apiRequest' ep opts) w
         = Finished (inl (ApiError
                            (ToString' (js_or (js_or detail (VStr (statusText r0)))
                                          (VStr "An error occurred")))
                            (status r0) (Some r0))) w' /\
       window w' = window w).
  { intros detail Hd. eexists. rewrite (run_apiRequest_direct _ _ _ _ _ _ _ Hs).
    rewrite (respond_error _ r0 detail _ Hok Hs3 Hd). split; reflexivity. }
  split; [intros detail Hd _; exact (Hgen detail Hd)|]. split; [|split].
  - intros e He. destruct (Hgen VUndefined) as (w' & Hrun & Hwin).
    { unfold error_data. rewrite He. reflexivity. }
    exists w'. split; [|exact Hwin]. rewrite Hrun.
    unfold js_or. cbn [truthy ToString].
    destruct (String.eqb (statusText r0) ""); reflexivity.
  - intros e He. eexists. rewrite (run_apiRequest_direct _ _ _ _ _ _ _ Hs).
    unfold respond. rewrite Hok. cbn [negb].
    rewrite advance_bind, (json_result_error_data r0 _ (fun e => Throw e)).
    apply Z.eqb_neq in Hs3. rewrite Hs3, (advance_throwApiError NumberToString), He.
    split; reflexivity.
  - intros Hj. unfold error_data. rewrite Hj. reflexivity.
Qed.

(** X5.  Outside a browsing context the store is never read: the request
    carries no [Authorization] header of the gateway's own, and a 401
    ends the call at once, without a refresh, a removal or a redirect.
    When [detail] can be read from the body (a body that is not JSON
    counts as an empty object) the call rejects with an [ApiError] that
    carries the status and the message of the response; when the body is
    the JSON text [null] it rejects with the [TypeError] of reading
    [detail].  (A [detail] that is an object with a [toString] member of
    its own is left out.) *)
Theorem apiRequest_outside_browser ep opts w r0 extra :
  window w = None ->
  status r0 = 401 ->
  (forall detail, get_prop (error_data r0) "detail" = inr detail -> printable detail = true) ->
  run (inr r0 :: extra) (apiRequest' ep opts) w
    = Finished (match get_prop (error_data r0) "detail" with
                | inr detail =>
                    inl (ApiError
                           (ToString' (js_or (js_or detail (VStr (statusText r0)))
                                         (VStr "An error occurred")))
                           401 (Some r0))
                | inl e => inl e
                end)
        (log (EvFetch (build_request' ep opts VNull)) w) /\
  (json r0 = BodyJson VNull ->
   get_prop (error_data r0) "detail"
   = inl (JsError (JsErr "TypeError" "Cannot read properties of null (reading 'detail')"))) /\
  req_headers (build_request' ep opts VNull) !! "Authorization"
    = default ∅ (opt_headers opts) !! "Authorization".
Proof.
  intros Hw Hs _. split; [|split].
  - rewrite run_apiRequest. cbn [settle]. unfold current_token. rewrite Hw.
    rewrite run_unfold. unfold afterResponse.
    replace (status r0 =? 401) with true by (rewrite Hs; reflexivity).
    rewrite advance_bind. unfold on401.
    rewrite advance_bind, (json_result_error_data r0 _ (fun e => Throw e)).
    unfold typeofWindow. rewrite advance_bind, advance_perform.
    cbn [do_op window log fst snd]. rewrite Hw.
    rewrite (advance_throwApiError NumberToString), Hs.
    destruct (get_prop (error_data r0) "detail"); reflexivity.
  - intros Hj. unfold error_data. rewrite Hj. reflexivity.
  - unfold build_request. cbn [truthy req_headers].
    rewrite lookup_union_l; [reflexivity|]. vm_compute. reflexivity.
Qed.

(** X6.  In a browsing context with an access token in the store, the
    request goes to the base URL followed by the endpoint, with the
    method and the body of the options; [Authorization] is the stored
    token as a bearer token, whatever the options say; any other header
    is taken from the options, and only when they do not give it from the
    two defaults. *)
Theorem apiRequest_request_headers ep opts w b token :
  window w = Some b ->
  localStorage b !! "access_token" = Some token ->
  token <> "" ->
  exists req k w',
    run [] (apiRequest' ep opts) w = Blocked req k w' /\
    req_url req = API_BASE_URL +:+ ep /\
    req_method req = opt_method opts /\
    req_body req = opt_body opts /\
    req_headers req !! "Authorization" = Some ("Bearer " +:+ token) /\
    (forall key, key <> "Authorization" ->
       req_headers req !! key
       = match default ∅ (opt_headers opts) !! key with
         | Some v => Some v
         | None => default_headers !! key
         end) /\
    default_headers !! "Content-Type" = Some "application/json" /\
    default_headers !! "ngrok-skip-browser-warning" = Some "true".
Proof.
  intros Hw Htok Hne. unfold apiRequest.
  rewrite run_unfold, advance_bind, advance_doRequest. cbn [truthy].
  unfold current_token. rewrite Hw, Htok. cbn [from_option].
  do 3 eexists. split; [reflexivity|].
  unfold build_request. rewrite (truthy_VStr _ Hne).
  cbn [req_url req_method req_body req_headers ToString].
  repeat split.
  - apply lookup_insert_eq.
  - intros key Hkey. rewrite lookup_insert_ne by congruence.
    rewrite lookup_union. destruct (default ∅ (opt_headers opts) !! key);
      destruct (default_headers !! key); reflexivity.
Qed.

End GatewayPaths.
(* ===================================================================== *)
(** ** Requests of a task that starts no other task *)
(* ===================================================================== *)

Lemma sequential_bind {A B : Type} (t : Task A) (f : A -> Task B) :
  sequential t -> (forall a, sequential (f a)) -> sequential (t ≫= f).
Proof.
  intros Ht Hf. induction t as [A a|A e|A X op k IH|A req k IH|A r k IH|A bg _ k _];
    cbn in *; auto.
Qed.

Lemma sequential_try_catch {A : Type} (t : Task A) (h : exn -> Task A) :
  sequential t -> (forall e, sequential (h e)) -> sequential (try_catch t h).
Proof.
  intros Ht Hh. induction t as [A a|A e|A X op k IH|A req k IH|A r k IH|A bg _ k _];
    cbn in *; auto.
Qed.

Lemma sequential_settle {A X : Type} (k : X -> Task A) (r : exn + X) :
  (forall x, sequential (k x)) -> sequential (settle k r).
Proof. intros H. destruct r; cbn; auto. Qed.

Lemma sequential_perform {X : Type} (op : Op X) : sequential (perform op).
Proof. intros r. apply sequential_settle. intros x. exact I. Qed.

Lemma sequential_fetch (req : Request) : sequential (fetch req).
Proof. intros r. apply sequential_settle. intros x. exact I. Qed.

Lemma sequential_awaitJson (r : Response) : sequential (awaitJson r).
Proof. intros x. apply sequential_settle. intros v. exact I. Qed.

Lemma sequential_getProp (v : value) (k : string) : sequential (getProp v k).
Proof. apply sequential_settle. intros x. exact I. Qed.

Ltac sequential_step :=
  lazymatch goal with
  | |- sequential (_ ≫= _) => apply sequential_bind; [|intros ?]
  | |- sequential (try_catch _ _) => apply sequential_try_catch; [|intros ?]
  | |- sequential (settle _ _) => apply sequential_settle; intros ?
  | |- sequential (perform _) => apply sequential_perform
  | |- sequential (fetch _) => apply sequential_fetch
  | |- sequential (awaitJson _) => apply sequential_awaitJson
  | |- sequential (getProp _ _) => apply sequential_getProp
  | |- sequential (Ret _) => exact I
  | |- sequential (Throw _) => exact I
  | |- sequential (if ?c then _ else _) => destruct c
  | |- sequential (match ?x with _ => _ end) => destruct x
  end.

Ltac sequential_tac := unfold_ops; repeat sequential_step.

Lemma fetches_log (e : Event) (w : World) :
  fetches (trace (log e w)) = fetches (trace w) ++ fetches [e].
Proof. cbn [trace log]. apply fetches_app. Qed.

(** No synchronous operation issues a request. *)
Lemma do_op_fetches {X : Type} (op : Op X) (w : World) :
  fetches (trace (snd (do_op op w))) = fetches (trace w).
Proof.
  destruct op; cbn [do_op]; try reflexivity; destruct (window w); cbn [snd];
    try reflexivity; rewrite ?fetches_log; cbn [trace set_storage set_session];
    rewrite ?fetches_app; cbn; rewrite ?app_nil_r; reflexivity.
Qed.

(** Up to its next suspension a task issues the request it suspends on
    and no other. *)
Lemma advance_fetches {A : Type} (t : Task A) (w : World) :
  sequential t ->
  fetches (trace (outcome_world (advance t w)))
  = fetches (trace w) ++ pending_request (advance t w).
Proof.
  revert w. induction t as [A a|A e|A X op k IH|A req k IH|A r k IH|A bg _ k _];
    intros w Hs; cbn in *.
  - rewrite app_nil_r. reflexivity.
  - rewrite app_nil_r. reflexivity.
  - pose proof (do_op_fetches op w) as Hop. destruct (do_op op w) as [r w1].
    rewrite IH by apply Hs. cbn [snd] in Hop. rewrite Hop. reflexivity.
  - rewrite fetches_app. reflexivity.
  - apply IH, Hs.
  - destruct Hs.
Qed.

(** The continuation of a suspended task starts no other task either. *)
Lemma advance_sequential {A : Type} (t : Task A) (w : World) req k w' :
  sequential t -> advance t w = Blocked req k w' -> forall r, sequential (k r).
Proof.
  revert w. induction t as [A a|A e|A X op k0 IH|A req0 k0 IH|A r0 k0 IH|A bg _ k0 _];
    intros w Hs H; cbn in *; try discriminate.
  - destruct (do_op op w) as [r w1]. eapply IH; [apply Hs | exact H].
  - injection H as _ Hk _. subst k. exact Hs.
  - eapply IH; [apply Hs | exact H].
  - destruct Hs.
Qed.

(** The trace only grows. *)
Lemma do_op_trace {X : Type} (op : Op X) (w : World) :
  exists new, trace (snd (do_op op w)) = trace w ++ new.
Proof.
  destruct op; cbn [do_op]; try (exists []; cbn; rewrite app_nil_r; reflexivity);
    destruct (window w); cbn [snd trace log set_storage set_session];
    first [ exists []; rewrite app_nil_r; reflexivity | eexists; reflexivity ].
Qed.

Lemma advance_trace {A : Type} (t : Task A) (w : World) :
  exists new, trace (outcome_world (advance t w)) = trace w ++ new.
Proof.
  revert w. induction t as [A a|A e|A X op k IH|A req k IH|A r k IH|A bg IHbg k IHk];
    intros w; cbn.
  - exists []. rewrite app_nil_r. reflexivity.
  - exists []. rewrite app_nil_r. reflexivity.
  - destruct (do_op_trace op w) as [new1 H1]. destruct (do_op op w) as [r w1].
    destruct (IH r w1) as [new2 H2]. cbn [snd] in H1. exists (new1 ++ new2).
    rewrite H2, H1, app_assoc. reflexivity.
  - eexists. reflexivity.
  - apply IH.
  - destruct (IHbg w) as [new1 H1].
    destruct (advance bg w) as [rb wb|reqb kb wb]; cbn [outcome_world] in H1.
    + destruct (IHk wb) as [new2 H2]. exists (new1 ++ new2).
      rewrite H2, H1, app_assoc. reflexivity.
    + destruct (IHk (add_background (reqb, kb) wb)) as [new2 H2]. exists (new1 ++ new2).
      rewrite H2. cbn [trace add_background]. rewrite H1, app_assoc. reflexivity.
Qed.

Lemma run_trace {A : Type} script (t : Task A) (w : World) :
  exists new, trace (outcome_world (run script t w)) = trace w ++ new.
Proof.
  revert t w. induction script as [|x script IH]; intros t w; rewrite run_unfold;
    pose proof (advance_trace t w) as [new1 H1];
    destruct (advance t w) as [r w1|req k w1]; cbn [outcome_world] in *; eauto.
  destruct (IH (k x) w1) as [new2 H2]. exists (new1 ++ new2).
  rewrite H2, H1, app_assoc. reflexivity.
Qed.

(** A task that issues at most [n] requests and starts no other task
    leaves at most [n] requests in the trace, whatever the answers. *)
Lemma run_fetches {A : Type} (t : Task A) n :
  within n t -> sequential t ->
  forall script w, exists reqs,
    fetches (trace (outcome_world (run script t w))) = fetches (trace w) ++ reqs /\
    (length reqs <= n)%nat.
Proof.
  induction 1 as [n a|n e|n X op k _ IH|n r k _ IH|n req k _ IH|n bg k _ _];
    intros Hs script w.
  - exists []. rewrite app_nil_r. destruct script; cbn; split; trivial; lia.
  - exists []. rewrite app_nil_r. destruct script; cbn; split; trivial; lia.
  - cbn in Hs. pose proof (do_op_fetches op w) as Hop.
    destruct (IH (fst (do_op op w)) (Hs _) script (snd (do_op op w))) as (reqs & Hr & Hlen).
    exists reqs. rewrite run_unfold in Hr |- *. cbn [advance].
    destruct (do_op op w) as [x w1]. cbn [fst snd] in *. rewrite Hr, Hop. split; trivial.
  - cbn in Hs. destruct (IH (json_result r) (Hs _) script w) as (reqs & Hr & Hlen).
    exists reqs. rewrite run_unfold in Hr |- *. split; trivial.
  - cbn in Hs. destruct script as [|x script].
    + exists [req]. cbn. rewrite fetches_app. split; [reflexivity | lia].
    + destruct (IH x (Hs _) script (log (EvFetch req) w)) as (reqs & Hr & Hlen).
      exists (req :: reqs). cbn [run advance]. rewrite Hr, fetches_log.
      cbn. rewrite <- app_assoc. split; [reflexivity | lia].
  - destruct Hs.
Qed.

Lemma since_extends (tr new : list Event) tr' :
  tr' = tr ++ new -> since tr tr' = new.
Proof. intros ->. apply since_app. Qed.

Section GatewayBound.

Variable API_BASE_URL : string.
Variable NumberToString : decimal -> string.

Abbreviation apiRequest' := (apiRequest API_BASE_URL NumberToString).

Lemma sequential_doRequest ep opts tok :
  sequential (doRequest API_BASE_URL NumberToString ep opts tok).
Proof. unfold doRequest. sequential_tac. Qed.

Lemma sequential_redirectToLogin : sequential redirectToLogin.
Proof. unfold redirectToLogin. sequential_tac. Qed.

Lemma sequential_purgeTokens : sequential purgeTokens.
Proof. unfold purgeTokens. sequential_tac. Qed.

Lemma sequential_afterRefresh ep opts rr :
  sequential (afterRefresh API_BASE_URL NumberToString ep opts rr).
Proof.
  unfold afterRefresh. unfold_ops.
  repeat first [ apply sequential_doRequest | apply sequential_redirectToLogin
               | apply sequential_purgeTokens | sequential_step ].
Qed.

Lemma sequential_onRefreshError e : sequential (onRefreshError e).
Proof.
  unfold onRefreshError.
  repeat first [ apply sequential_redirectToLogin | apply sequential_purgeTokens
               | sequential_step ].
Qed.

Lemma sequential_respond r : sequential (respond NumberToString r).
Proof. unfold respond, throwApiError. sequential_tac. Qed.

Lemma sequential_apiRequest ep opts : sequential (apiRequest' ep opts).
Proof.
  unfold apiRequest, afterResponse, on401, refreshAndRetry, throwApiError. unfold_ops.
  repeat first [ apply sequential_doRequest | apply sequential_redirectToLogin
               | apply sequential_afterRefresh | apply sequential_onRefreshError
               | apply sequential_respond | sequential_step ].
Qed.

(** X2.  Whatever the backend answers, one call of [apiRequest] issues at
    most three requests, and it has settled once three answers are in. *)
Theorem apiRequest_at_most_three_requests ep opts script w :
  (length (fetches (since (trace w)
             (trace (outcome_world (run script (apiRequest' ep opts) w))))) <= 3)%nat /\
  ((3 <= length script)%nat ->
   exists res w', run script (apiRequest' ep opts) w = Finished res w').
Proof.
  split.
  - destruct (run_fetches _ 3 (within_apiRequest API_BASE_URL NumberToString ep opts)
                (sequential_apiRequest ep opts) script w) as (reqs & Hr & Hlen).
    destruct (run_trace script (apiRequest' ep opts) w) as [new Hnew].
    rewrite (since_extends _ new) by exact Hnew.
    rewrite Hnew, fetches_app in Hr. apply app_inv_head in Hr. rewrite Hr. exact Hlen.
  - apply (within_run _ 3). apply within_apiRequest.
Qed.

End GatewayBound.

(* ===================================================================== *)
(** ** The gateway: a refresh that fails *)
(* ===================================================================== *)

(** No operation changes the location. *)
Lemma do_op_pathname {X : Type} (op : Op X) (w : World) :
  pathname <$> window (snd (do_op op w)) = pathname <$> window w.
Proof. destruct op; cbn [do_op]; try reflexivity; destruct (window w) eqn:E; cbn; rewrite ?E; reflexivity. Qed.

Lemma advance_pathname {A : Type} (t : Task A) (w : World) :
  pathname <$> window (outcome_world (advance t w)) = pathname <$> window w.
Proof.
  revert w. induction t as [A a|A e|A X op k IH|A req k IH|A r k IH|A bg IHbg k IHk];
    intros w; cbn [advance outcome_world].
  - reflexivity.
  - reflexivity.
  - pose proof (do_op_pathname op w) as H. destruct (do_op op w) as [r w1].
    rewrite IH. exact H.
  - reflexivity.
  - apply IH.
  - specialize (IHbg w). destruct (advance bg w) as [rb wb|reqb kb wb]; rewrite IHk; exact IHbg.
Qed.

Lemma on_auth_page_pathname (w1 w2 : World) :
  pathname <$> window w1 = pathname <$> window w2 -> on_auth_page w1 = on_auth_page w2.
Proof.
  unfold on_auth_page. destruct (window w1), (window w2); cbn; intros [=]; congruence.
Qed.

Lemma advance_onRefreshError e w b :
  window w = Some b ->
  advance (onRefreshError e) w =
  Finished (inl (ApiError ("Failed to refresh token: " +:+ error_message e) 401 None))
    (redirected (purged w)).
Proof.
  intros Hw. unfold onRefreshError.
  assert (Hw1 : is_Some (window (purged w))) by (rewrite (purged_world _ _ Hw); eauto).
  destruct Hw1 as [b1 Hw1].
  rewrite advance_bind, (advance_purgeTokens _ _ Hw).
  rewrite advance_bind, (advance_redirectToLogin _ _ Hw1). reflexivity.
Qed.

Section RefreshFailure.

Variable API_BASE_URL : string.
Variable NumberToString : decimal -> string.

Abbreviation ToString' := (ToString NumberToString).
Abbreviation build_request' := (build_request API_BASE_URL NumberToString).
Abbreviation refresh_request' := (refresh_request API_BASE_URL).
Abbreviation afterRefresh' := (afterRefresh API_BASE_URL NumberToString).
Abbreviation respond' := (respond NumberToString).
Abbreviation apiRequest' := (apiRequest API_BASE_URL NumberToString).

(** After the answer to the refresh, the code either goes on to the
    retry or throws: it never leaves the [try] block with a response. *)
Lemma afterRefresh_retries_or_throws ep opts rr w b a w' :
  window w = Some b ->
  advance (afterRefresh' ep opts rr) w <> Finished (inr a) w'.
Proof.
  intros Hw. unfold afterRefresh.
  assert (Hw1 : is_Some (window (purged w))) by (rewrite (purged_world _ _ Hw); eauto).
  destruct Hw1 as [b1 Hw1].
  destruct (ok rr).
  - rewrite advance_bind, advance_awaitJson.
    destruct (json_result rr) as [e|responseData]; [discriminate|]. cbv beta iota.
    rewrite advance_bind, advance_getProp.
    destruct (get_prop responseData "data") as [e|data]; [discriminate|]. cbv beta iota.
    rewrite advance_bind, advance_getProp.
    destruct (get_prop _ "access_token") as [e|access_token]; [discriminate|]. cbv beta iota.
    rewrite advance_bind, advance_getProp.
    destruct (get_prop _ "refresh_token") as [e|refresh_token]; [discriminate|]. cbv beta iota.
    destruct (truthy access_token) eqn:Hacc.
    + open_world w Hw. unfold_ops. adv.
      destruct (truthy refresh_token); adv; rewrite advance_doRequest; discriminate.
    + rewrite advance_bind, (advance_purgeTokens _ _ Hw).
      rewrite advance_bind, (advance_redirectToLogin _ _ Hw1). discriminate.
  - rewrite advance_bind, (json_result_error_data rr w (fun e => Throw e)).
    rewrite advance_bind, (advance_purgeTokens _ _ Hw).
    rewrite advance_bind, (advance_redirectToLogin _ _ Hw1).
    rewrite advance_bind, advance_getProp.
    destruct (get_prop _ "detail"); discriminate.
Qed.


(** A retry that is rejected, for every rejection: the [catch] of the
    refresh takes it, so the call removes the tokens it has just stored
    and rejects with an [ApiError] of status 401 that names a failed
    refresh. *)
Lemma apiRequest_retry_rejection
    ep opts w b rt r0 rr body data access_token refresh_token e :
  window w = Some b ->
  localStorage b !! "refresh_token" = Some rt ->
  rt <> "" ->
  status r0 = 401 ->
  ok rr = true ->
  json rr = BodyJson body ->
  get_prop body "data" = inr data ->
  get_prop (js_or data body) "access_token" = inr access_token ->
  get_prop (js_or data body) "refresh_token" = inr refresh_token ->
  truthy access_token = true ->
  exists w',
    run [inr r0; inr rr; inl e] (apiRequest' ep opts) w
      = Finished (inl (ApiError ("Failed to refresh token: " +:+ error_message e) 401 None)) w' /\
    stored "access_token" w' = None /\
    stored "refresh_token" w' = None.
Proof.
  intros Hw Hrt Hne Hs Hok Hjson Hdata Hacc Href Ht.
  rewrite (run_apiRequest_refreshed API_BASE_URL NumberToString ep opts w b rt r0 rr body data
             access_token refresh_token (inl e) [] Hw Hrt Hne Hs Hok Hjson Hdata Hacc Href Ht).
  cbn [settle try_catch].
  set (w1 := log _ (refreshed _ _ _)).
  assert (Hw1 : is_Some (window w1)).
  { unfold w1. cbn [window log]. rewrite (refreshed_window _ b) by exact Hw. eauto. }
  destruct Hw1 as [b1 Hw1].
  rewrite run_unfold, advance_bind, (advance_onRefreshError e w1 b1 Hw1).
  eexists. split; [reflexivity|].
  rewrite (purge_redirect_world w1 b1 Hw1). unfold stored.
  cbn [window mbind option_bind localStorage]. split.
  - rewrite lookup_delete_ne by discriminate. apply lookup_delete_eq.
  - apply lookup_delete_eq.
Qed.

End RefreshFailure.

(* ===================================================================== *)
(** ** Running a task built from another *)
(* ===================================================================== *)

Lemma run_bind_throw {A B : Type} script (t : Task A) (f : A -> Task B) w e w1 :
  run script t w = Finished (inl e) w1 ->
  run script (t ≫= f) w = Finished (inl e) w1.
Proof.
  revert t w. induction script as [|x script IH]; intros t w; rewrite !run_unfold, advance_bind;
    destruct (advance t w) as [[e0|a] w0|req k w0]; try discriminate;
    try (intros [= -> ->]; reflexivity).
  apply IH.
Qed.

Lemma run_bind_ret {A B : Type} script (t : Task A) (f : A -> Task B) w a w1 r w2 :
  run script t w = Finished (inr a) w1 ->
  advance (f a) w1 = Finished r w2 ->
  run script (t ≫= f) w = Finished r w2.
Proof.
  revert t w. induction script as [|x script IH]; intros t w; rewrite !run_unfold, advance_bind;
    destruct (advance t w) as [[e0|a0] w0|req k w0]; try discriminate;
    try (intros [= -> ->] ->; reflexivity).
  apply IH.
Qed.

Lemma run_try_catch_ret {A : Type} script (t : Task A) h w a w1 :
  run script t w = Finished (inr a) w1 ->
  run script (try_catch t h) w = Finished (inr a) w1.
Proof.
  revert t w. induction script as [|x script IH]; intros t w;
    rewrite !run_unfold, advance_try_catch;
    destruct (advance t w) as [[e0|a0] w0|req k w0]; try discriminate;
    try (intros [= -> ->]; reflexivity).
  apply IH.
Qed.

Lemma run_try_catch_throw {A : Type} script (t : Task A) h w e w1 r w2 :
  run script t w = Finished (inl e) w1 ->
  advance (h e) w1 = Finished r w2 ->
  run script (try_catch t h) w = Finished r w2.
Proof.
  revert t w. induction script as [|x script IH]; intros t w;
    rewrite !run_unfold, advance_try_catch;
    destruct (advance t w) as [[e0|a0] w0|req k w0]; try discriminate;
    try (intros [= -> ->] ->; reflexivity).
  apply IH.
Qed.

(** A task that starts with a synchronous part. *)
Lemma run_bind_advance {A B : Type} script (t : Task A) (f : A -> Task B) w a w1 :
  advance t w = Finished (inr a) w1 ->
  run script (t ≫= f) w = run script (f a) w1.
Proof.
  intros H. rewrite !(run_unfold script), advance_bind, H. reflexivity.
Qed.

Lemma run_keeps_window {A : Type} script (t : Task A) w :
  is_Some (window w) -> is_Some (window (outcome_world (run script t w))).
Proof.
  revert t w. induction script as [|x script IH]; intros t w Hw; rewrite run_unfold;
    pose proof (advance_keeps_window t w Hw) as H;
    destruct (advance t w) as [r w1|req k w1]; cbn [outcome_world] in *; trivial.
  apply IH, H.
Qed.

(** A [try] whose handler never throws settles fulfilled. *)
Lemma run_try_catch_fulfils {A : Type} script (t : Task A) h w r w' :
  (forall e w0, is_Some (window w0) -> exists a w1, advance (h e) w0 = Finished (inr a) w1) ->
  is_Some (window w) ->
  run script (try_catch t h) w = Finished r w' ->
  exists a, r = inr a.
Proof.
  intros Hh. revert t w. induction script as [|x script IH]; intros t w Hw;
    rewrite run_unfold, advance_try_catch;
    pose proof (advance_keeps_window t w Hw) as Hk;
    destruct (advance t w) as [[e0|a0] w0|req k w0]; cbn [outcome_world] in Hk;
    try discriminate.
  - destruct (Hh e0 w0 Hk) as (a & w1 & ->). intros [= <- <-]. eauto.
  - intros [= <- <-]. eauto.
  - destruct (Hh e0 w0 Hk) as (a & w1 & ->). intros [= <- <-]. eauto.
  - intros [= <- <-]. eauto.
  - apply IH, Hk.
Qed.

(* ===================================================================== *)
(** ** The auth provider: [refreshAuth] *)
(* ===================================================================== *)

Lemma signed_off_purged_spec w b :
  window w = Some b ->
  stored "access_token" (signed_off (purged w)) = None /\
  stored "refresh_token" (signed_off (purged w)) = None /\
  isAuthenticated (session (signed_off (purged w))) = false /\
  isAdmin (session (signed_off (purged w))) = VBool false /\
  isLoading (session (signed_off (purged w))) = isLoading (session w) /\
  trace (signed_off (purged w))
    = trace w ++ [EvRemoveItem "access_token"; EvRemoveItem "refresh_token"].
Proof.
  intros Hw. rewrite (purged_world w b Hw). unfold signed_off, stored. world_unfold.
  cbn [isAuthenticated isAdmin isLoading mbind option_bind]. repeat split.
  - rewrite lookup_delete_ne by discriminate. apply lookup_delete_eq.
  - apply lookup_delete_eq.
Qed.

Section RefreshAuth.

Variable API_BASE_URL : string.
Variable NumberToString : decimal -> string.

Abbreviation ToString' := (ToString NumberToString).
Abbreviation build_request' := (build_request API_BASE_URL NumberToString).
Abbreviation apiRequest' := (apiRequest API_BASE_URL NumberToString).
Abbreviation refreshAuth' := (refreshAuth API_BASE_URL NumberToString).

(** The [catch] block of [refreshAuth]. *)
Lemma advance_refreshAuth_catch w b :
  window w = Some b ->
  advance refreshAuth_catch w = Finished (inr tt) (signed_off (purged w)).
Proof.
  intros Hw. open_world w Hw. unfold refreshAuth_catch, signed_off, purged. unfold_ops. adv.
  reflexivity.
Qed.

Lemma advance_refreshAuth_no_token w b :
  window w = Some b ->
  localStorage b !! "refresh_token" = None \/ localStorage b !! "refresh_token" = Some "" ->
  advance refreshAuth' w
  = Finished (inr tt) (signed_off (exec (RemoveItem "access_token") w)).
Proof.
  intros Hw Hrt. open_world w Hw. unfold refreshAuth, signed_off. unfold_ops. adv.
  destruct Hrt as [-> | ->]; cbn [from_option truthy String.eqb negb]; adv; reflexivity.
Qed.

Lemma signed_off_removed_spec w b :
  window w = Some b ->
  window (signed_off (exec (RemoveItem "access_token") w))
    = Some (mkBrowser (delete "access_token" (localStorage b)) (pathname b)) /\
  session (signed_off (exec (RemoveItem "access_token") w))
    = mkSession false (VBool false) (isLoading (session w)) /\
  trace (signed_off (exec (RemoveItem "access_token") w))
    = trace w ++ [EvRemoveItem "access_token"] /\
  background (signed_off (exec (RemoveItem "access_token") w)) = background w.
Proof.
  intros Hw. open_world w Hw. unfold signed_off. world_unfold.
  cbn [isAuthenticated isAdmin isLoading]. repeat split.
Qed.

(** X7.  [refreshAuth] without a refresh token in the store (none, or an
    empty one) issues no request: it removes the access token, leaves the
    rest of the store alone and sets [isAuthenticated] and [isAdmin] to
    false. *)
Theorem refreshAuth_without_refresh_token w b :
  window w = Some b ->
  localStorage b !! "refresh_token" = None \/ localStorage b !! "refresh_token" = Some "" ->
  exists w',
    advance refreshAuth' w = Finished (inr tt) w' /\
    stored "access_token" w' = None /\
    (forall key, key <> "access_token" -> stored key w' = localStorage b !! key) /\
    session w' = mkSession false (VBool false) (isLoading (session w)) /\
    since (trace w) (trace w') = [EvRemoveItem "access_token"] /\
    background w' = background w.
Proof.
  intros Hw Hrt. eexists. split; [apply (advance_refreshAuth_no_token w b Hw Hrt)|].
  destruct (signed_off_removed_spec w b Hw) as (Hwin & Hses & Htr & Hbg).
  unfold stored. rewrite Hwin, Htr, since_app. cbn [mbind option_bind localStorage].
  split; [apply lookup_delete_eq|]. split; [|auto].
  intros key Hkey. apply lookup_delete_ne. congruence.
Qed.

Abbreviation refreshAuth_then' := (refreshAuth_then NumberToString).

(** With a refresh token in the store, [refreshAuth] is its [try] block
    around the call of the gateway. *)
Lemma run_refreshAuth script w b rt :
  window w = Some b ->
  localStorage b !! "refresh_token" = Some rt ->
  rt <> "" ->
  run script refreshAuth' w
  = run script
      (try_catch (apiRequest' "/api/auth/refresh" (refresh_options rt) ≫= refreshAuth_then')
         (fun _ => refreshAuth_catch)) w.
Proof.
  intros Hw Hrt Hne. unfold refreshAuth, getItem.
  rewrite (run_bind_advance script _ _ w (VStr rt) w).
  2:{ rewrite advance_perform. open_world w Hw. cbn [do_op window fst snd].
      rewrite Hrt. reflexivity. }
  rewrite (truthy_VStr _ Hne). reflexivity.
Qed.

Lemma advance_refreshAuth_then response w b access_token refresh_token :
  window w = Some b ->
  get_prop response "access_token" = inr access_token ->
  get_prop response "refresh_token" = inr refresh_token ->
  exists w1,
    advance (refreshAuth_then' response) w = Finished (inr tt) w1 /\
    window w1 = Some (mkBrowser
      ((if truthy refresh_token
        then <["refresh_token" := ToString' refresh_token]> else id)
         (<["access_token" := ToString' access_token]> (localStorage b)))
      (pathname b)) /\
    session w1 = (if truthy (decodeToken_value access_token)
                  then mkSession true (is_admin_of (decodeToken_value access_token))
                         (isLoading (session w))
                  else session w) /\
    fetches (trace w1) = fetches (trace w) /\
    background w1 = background w.
Proof.
  intros Hw Ha Hr. open_world w Hw. unfold refreshAuth_then. unfold_ops. adv.
  rewrite Ha. adv. rewrite Hr. adv. unfold is_admin_of.
  destruct (truthy refresh_token); adv;
    (destruct (decodeToken_value access_token) as [| |[]|d|s|l|fs] eqn:Hd; cbn [truthy];
     try (destruct (negb _)); cbn [negb]; adv;
       cbn [get_prop]; adv;
       eexists; (split; [reflexivity|]); world_unfold;
       cbn [isAuthenticated isAdmin isLoading id];
       rewrite ?fetches_app; cbn [fetches omap]; rewrite ?app_nil_r; repeat split).
Qed.


Lemma within_refreshAuth : within 3 refreshAuth'.
Proof.
  unfold refreshAuth. apply (within_bind _ _ 0 3); [apply within_perform|].
  intros refreshToken. destruct (negb (truthy refreshToken)).
  - repeat (apply (within_bind _ _ 0 3); [apply within_perform | intros _]).
    apply within_perform.
  - apply (within_try_catch _ _ 3 0).
    + apply (within_bind _ _ 3 0); [apply within_apiRequest|]. intros response.
      apply (within_bind _ _ 0 0); [apply within_getProp|]. intros access_token.
      apply (within_bind _ _ 0 0); [apply within_perform|]. intros _.
      apply (within_bind _ _ 0 0); [apply within_getProp|]. intros refresh_token.
      apply (within_bind _ _ 0 0).
      { destruct (truthy refresh_token); [apply within_perform | constructor]. }
      intros _. destruct (truthy (decodeToken_value access_token)); [|constructor].
      apply (within_bind _ _ 0 0); [apply within_perform|]. intros _.
      apply (within_bind _ _ 0 0); [apply within_getProp|]. intros is_admin.
      apply within_perform.
    + intros e. repeat (apply (within_bind _ _ 0 0); [apply within_perform | intros _]).
      apply within_perform.
Qed.

(** X8.  [refreshAuth] with a refresh token in the store posts it to
    [/api/auth/refresh] through the gateway, and a 2xx answer comes back
    as the parsed body (as an empty object for status 204).  When
    [access_token] and [refresh_token] can be read from it, at its top
    level: the text of [access_token] goes into the store whatever it is
    (the text [undefined] when the body has none), [refresh_token]
    replaces the stored one only when it is truthy, and [isAuthenticated]
    and [isAdmin] are set from the new token only when it decodes (for a
    token whose [is_admin] is a boolean or absent).  When the body is not
    JSON, or is the JSON text [null] so that the read throws, the [catch]
    removes both tokens and sets both flags to false. *)
Theorem refreshAuth_stores_response w b rt r extra :
  window w = Some b ->
  localStorage b !! "refresh_token" = Some rt ->
  rt <> "" ->
  ok r = true ->
  let answer := if status r =? 204 then inr (VObj []) else json_result r in
  let request := build_request' "/api/auth/refresh" (refresh_options rt) (current_token w) in
  (forall body access_token refresh_token,
     answer = inr body ->
     get_prop body "access_token" = inr access_token ->
     get_prop body "refresh_token" = inr refresh_token ->
     printable access_token = true ->
     printable refresh_token = true ->
     boolean_admin (decodeToken_value access_token) ->
     exists w',
       run (inr r :: extra) refreshAuth' w = Finished (inr tt) w' /\
       fetches (since (trace w) (trace w')) = [request] /\
       stored "access_token" w' = Some (ToString' access_token) /\
       stored "refresh_token" w'
         = Some (if truthy refresh_token then ToString' refresh_token else rt) /\
       session w' = (if truthy (decodeToken_value access_token)
                     then mkSession true (is_admin_of (decodeToken_value access_token))
                            (isLoading (session w))
                     else session w)) /\
  ((exists e, answer = inl e) \/
   (exists body e, answer = inr body /\ get_prop body "access_token" = inl e) ->
   exists w',
     run (inr r :: extra) refreshAuth' w = Finished (inr tt) w' /\
     fetches (since (trace w) (trace w')) = [request] /\
     stored "access_token" w' = None /\
     stored "refresh_token" w' = None /\
     isAuthenticated (session w') = false /\
     isAdmin (session w') = VBool false).
Proof.
  intros Hw Hrt Hne Hok answer request.
  set (w0 := log (EvFetch request) w).
  assert (Hcall : run (inr r :: extra) (apiRequest' "/api/auth/refresh" (refresh_options rt)) w
                  = Finished answer w0).
  { apply (run_apiRequest_ok API_BASE_URL NumberToString _ _ _ _ _ Hok). }
  assert (Hw0 : window w0 = Some b) by exact Hw.
  split.
  - intros body access_token refresh_token Hans Ha Hr _ _ _.
    destruct (advance_refreshAuth_then body w0 b access_token refresh_token Hw Ha Hr)
      as (w1 & Hadv & Hwin & Hses & Hfet & _).
    exists w1.
    assert (Hrun : run (inr r :: extra) refreshAuth' w = Finished (inr tt) w1).
    { rewrite (run_refreshAuth _ w b rt Hw Hrt Hne).
      apply run_try_catch_ret.
      apply (run_bind_ret _ _ _ _ body w0); [|exact Hadv].
      rewrite Hcall, Hans. reflexivity. }
    split; [exact Hrun|].
    destruct (run_trace (inr r :: extra) refreshAuth' w) as [new Hnew].
    rewrite Hrun in Hnew. cbn [outcome_world] in Hnew.
    split; [|split; [|split]].
    + rewrite (since_extends _ new) by exact Hnew.
      rewrite Hnew in Hfet. unfold w0 in Hfet. cbn [trace log] in Hfet.
      rewrite !fetches_app in Hfet. apply app_inv_head in Hfet. exact Hfet.
    + unfold stored. rewrite Hwin. cbn [mbind option_bind localStorage].
      destruct (truthy refresh_token); cbn [id].
      * rewrite lookup_insert_ne by discriminate. apply lookup_insert_eq.
      * apply lookup_insert_eq.
    + unfold stored. rewrite Hwin. cbn [mbind option_bind localStorage].
      destruct (truthy refresh_token); cbn [id].
      * apply lookup_insert_eq.
      * rewrite lookup_insert_ne by discriminate. exact Hrt.
    + exact Hses.
  - intros Hfail.
    assert (Hthrow : exists e,
      run (inr r :: extra)
        (apiRequest' "/api/auth/refresh" (refresh_options rt) ≫= refreshAuth_then') w
      = Finished (inl e) w0).
    { destruct Hfail as [[e He] | (body & e & Hans & He)]; exists e.
      - apply run_bind_throw. rewrite Hcall, He. reflexivity.
      - apply (run_bind_ret _ _ _ _ body w0); [rewrite Hcall, Hans; reflexivity|].
        unfold refreshAuth_then. rewrite advance_bind, advance_getProp, He. reflexivity. }
    destruct Hthrow as [e Hthrow].
    exists (signed_off (purged w0)).
    destruct (signed_off_purged_spec w0 b Hw0) as (Ha & Hr & Hauth & Hadm & _ & Htr).
    split; [|split; [|split; [|split; [|split]]]]; trivial.
    + rewrite (run_refreshAuth _ w b rt Hw Hrt Hne).
      apply (run_try_catch_throw _ _ _ _ e w0); [exact Hthrow|].
      apply (advance_refreshAuth_catch w0 b Hw0).
    + rewrite Htr. unfold w0. cbn [trace log]. rewrite <- List.app_assoc, since_app.
      reflexivity.
Qed.

(** X9.  [refreshAuth] never rejects, whatever the backend answers, and it
    has settled once three answers are in.  When the call of the gateway
    rejects, for whatever reason, it ends with both tokens removed and
    with [isAuthenticated] and [isAdmin] false; a rejected request is one
    such case. *)
Theorem refreshAuth_never_rejects w b rt :
  window w = Some b ->
  localStorage b !! "refresh_token" = Some rt ->
  rt <> "" ->
  (forall script r w', run script refreshAuth' w = Finished r w' -> r = inr tt) /\
  (forall script, (3 <= length script)%nat ->
     exists w', run script refreshAuth' w = Finished (inr tt) w') /\
  (forall script e w1,
     run script (apiRequest' "/api/auth/refresh" (refresh_options rt)) w = Finished (inl e) w1 ->
     exists w',
       run script refreshAuth' w = Finished (inr tt) w' /\
       stored "access_token" w' = None /\
       stored "refresh_token" w' = None /\
       isAuthenticated (session w') = false /\
       isAdmin (session w') = VBool false) /\
  (forall e extra, exists w1,
     run (inl e :: extra) (apiRequest' "/api/auth/refresh" (refresh_options rt)) w
       = Finished (inl e) w1).
Proof.
  intros Hw Hrt Hne.
  assert (Hres : forall script r w', run script refreshAuth' w = Finished r w' -> r = inr tt).
  { intros script r w' H. rewrite (run_refreshAuth _ w b rt Hw Hrt Hne) in H.
    apply run_try_catch_fulfils in H; [| |rewrite Hw; eauto].
    - destruct H as [[] ->]. reflexivity.
    - intros e w0 [b0 Hw0]. rewrite (advance_refreshAuth_catch w0 b0 Hw0). eauto. }
  split; [exact Hres|]. split; [|split].
  - intros script Hlen.
    destruct (within_run _ 3 within_refreshAuth script w Hlen) as (r & w' & Hrun).
    exists w'. rewrite Hrun. f_equal. apply (Hres _ _ _ Hrun).
  - intros script e w1 Hcall.
    assert (Hw1 : is_Some (window w1)).
    { pose proof (run_keeps_window script (apiRequest' "/api/auth/refresh" (refresh_options rt))
                    w) as Hk.
      rewrite Hcall in Hk. apply Hk. rewrite Hw. eauto. }
    destruct Hw1 as [b1 Hw1].
    exists (signed_off (purged w1)). split.
    + rewrite (run_refreshAuth _ w b rt Hw Hrt Hne).
      apply (run_try_catch_throw _ _ _ _ e w1); [|apply (advance_refreshAuth_catch w1 b1 Hw1)].
      apply run_bind_throw. exact Hcall.
    + destruct (signed_off_purged_spec w1 b1 Hw1) as (H1 & H2 & H3 & H4 & _). auto.
  - intros e extra. eexists. rewrite run_apiRequest. cbn [settle].
    rewrite run_unfold, advance_Throw. reflexivity.
Qed.

End RefreshAuth.

(* ===================================================================== *)
(** ** The auth provider: a token that is stale or about to expire *)
(* ===================================================================== *)

Section StaleToken.

Variable API_BASE_URL : string.
Variable NumberToString : decimal -> string.
Variable StringToNumber : string -> number.

Abbreviation build_request' := (build_request API_BASE_URL NumberToString).
Abbreviation apiRequest' := (apiRequest API_BASE_URL NumberToString).
Abbreviation refreshAuth' := (refreshAuth API_BASE_URL NumberToString).
Abbreviation checkAuth' := (checkAuth API_BASE_URL NumberToString StringToNumber).
Abbreviation expiryCheck' := (expiryCheck API_BASE_URL NumberToString StringToNumber).

Lemma advance_refreshAuth_blocked w b rt :
  window w = Some b ->
  localStorage b !! "refresh_token" = Some rt ->
  rt <> "" ->
  exists k,
    advance refreshAuth' w
    = Blocked (build_request' "/api/auth/refresh" (refresh_options rt) (current_token w)) k
        (log (EvFetch (build_request' "/api/auth/refresh" (refresh_options rt)
                         (current_token w))) w).
Proof.
  intros Hw Hrt Hne.
  pose proof (run_refreshAuth API_BASE_URL NumberToString [] w b rt Hw Hrt Hne) as H.
  rewrite !run_unfold in H.
  rewrite advance_try_catch, advance_bind in H. unfold apiRequest in H.
  rewrite advance_bind, advance_doRequest in H. cbn [truthy] in H.
  destruct (advance refreshAuth' w) as [r w1|req k w1]; [discriminate|].
  injection H as -> _ ->. eauto.
Qed.

(** Starting [refreshAuth] without awaiting it. *)
Lemma advance_spawn_refreshAuth w b :
  window w = Some b ->
  (forall rt, localStorage b !! "refresh_token" = Some rt -> rt <> "" ->
     exists k,
       advance (Spawn refreshAuth' (Ret tt)) w
       = Finished (inr tt)
           (add_background
              (build_request' "/api/auth/refresh" (refresh_options rt) (current_token w), k)
              (log (EvFetch (build_request' "/api/auth/refresh" (refresh_options rt)
                               (current_token w))) w))) /\
  (localStorage b !! "refresh_token" = None \/ localStorage b !! "refresh_token" = Some "" ->
   exists w',
     advance (Spawn refreshAuth' (Ret tt)) w = Finished (inr tt) w' /\
     window w' = Some (mkBrowser (delete "access_token" (localStorage b)) (pathname b)) /\
     session w' = mkSession false (VBool false) (isLoading (session w)) /\
     since (trace w) (trace w') = [EvRemoveItem "access_token"] /\
     background w' = background w).
Proof.
  intros Hw. split.
  - intros rt Hrt Hne. destruct (advance_refreshAuth_blocked w b rt Hw Hrt Hne) as [k Hk].
    exists k. cbn [advance]. rewrite Hk. reflexivity.
  - intros Hrt. eexists. cbn [advance].
    rewrite (advance_refreshAuth_no_token API_BASE_URL NumberToString w b Hw Hrt).
    split; [reflexivity|].
    destruct (signed_off_removed_spec w b Hw) as (Hwin & Hses & Htr & Hbg).
    rewrite Htr, since_app. auto.
Qed.


Lemma unexpired_stale decoded w :
  stale (clock w) decoded ->
  advance (unexpired NumberToString StringToNumber decoded) w = Finished (inr false) w.
Proof.
  intros [-> | (claims & -> & [Hexp | (secs & Hexp & Hle)])]; unfold unexpired; cbn [truthy].
  - reflexivity.
  - unfold dateNow. adv. cbn [get_prop]. rewrite Hexp. cbn [default from_option id]. adv.
    reflexivity.
  - unfold dateNow. adv. cbn [get_prop]. rewrite Hexp. cbn [default from_option id]. adv.
    cbn [ToNumber]. rewrite whole_seconds_later.
    replace (clock w <? secs * 1000) with false by (symmetry; apply Z.ltb_ge; exact Hle).
    reflexivity.
Qed.

(** X10.  [checkAuth] with a stored access token that does not decode, has
    no [exp], or has an [exp] in whole seconds that is not later than the
    clock: [isLoading] becomes false at once, and
    [refreshAuth] is started but not awaited.  With a refresh token in
    the store its request is in flight when [checkAuth] returns, and
    [isAuthenticated] and [isAdmin] are as they were; without one the
    access token is removed and both are false. *)
Theorem checkAuth_stale_token w b token :
  window w = Some b ->
  localStorage b !! "access_token" = Some token ->
  token <> "" ->
  stale (clock w) (decodeToken token) ->
  (forall rt, localStorage b !! "refresh_token" = Some rt -> rt <> "" ->
     exists w' k,
       advance checkAuth' w = Finished (inr tt) w' /\
       session w' = mkSession (isAuthenticated (session w)) (isAdmin (session w)) false /\
       window w' = window w /\
       since (trace w) (trace w')
         = [EvFetch (build_request' "/api/auth/refresh" (refresh_options rt) (VStr token))] /\
       background w'
         = background w
           ++ [(build_request' "/api/auth/refresh" (refresh_options rt) (VStr token), k)]) /\
  (localStorage b !! "refresh_token" = None \/ localStorage b !! "refresh_token" = Some "" ->
   exists w',
     advance checkAuth' w = Finished (inr tt) w' /\
     session w' = mkSession false (VBool false) false /\
     stored "access_token" w' = None /\
     since (trace w) (trace w') = [EvRemoveItem "access_token"] /\
     background w' = background w).
Proof.
  intros Hw Htok Hne Hstale.
  assert (Hcur : current_token w = VStr token).
  { unfold current_token. rewrite Hw, Htok. reflexivity. }
  assert (Hstart : forall w1,
    advance (Spawn refreshAuth' (Ret tt)) w = Finished (inr tt) w1 ->
    advance checkAuth' w
    = Finished (inr tt)
        (set_session (mkSession (isAuthenticated (session w1)) (isAdmin (session w1)) false) w1)).
  { intros w1 H. unfold checkAuth. unfold getItem at 1.
    assert (Hget : do_op (GetItem "access_token") w = (inr (VStr token), w)).
    { open_world w Hw. cbn [do_op window]. rewrite Htok. reflexivity. }
    rewrite advance_bind, advance_perform. unfold exec. rewrite Hget. cbn [fst snd].
    cbv beta iota. rewrite (truthy_VStr _ Hne). cbn [decodeToken_value].
    rewrite advance_bind, advance_bind, (unexpired_stale _ w Hstale). cbv beta iota.
    rewrite H. cbv beta iota. unfold setIsLoading. rewrite advance_perform. reflexivity. }
  destruct (advance_spawn_refreshAuth w b Hw) as [Hwith Hwithout].
  split.
  - intros rt Hrt Hrne. destruct (Hwith rt Hrt Hrne) as [k Hk]. rewrite Hcur in Hk.
    eexists. exists k. rewrite (Hstart _ Hk). split; [reflexivity|].
    cbn [session window trace background set_session add_background log].
    rewrite since_app. repeat split.
  - intros Hrt. destruct (Hwithout Hrt) as (w1 & Hadv & Hwin & Hses & Htr & Hbg).
    eexists. rewrite (Hstart _ Hadv). split; [reflexivity|].
    cbn [session window trace background set_session]. rewrite Hses.
    unfold stored. cbn [window set_session]. rewrite Hwin.
    cbn [isAuthenticated isAdmin mbind option_bind localStorage].
    repeat split; trivial. apply lookup_delete_eq.
Qed.

End StaleToken.

(** *** The check that runs every minute *)

(** [exp * 1000 - now] for an [exp] in whole seconds, against a bound in
    milliseconds. *)
Lemma time_until_expiry (n now c : Z) :
  let t := num_sub (num_mul (Fin (dec_of_Z n)) (Fin (dec_of_Z 1000))) (Fin (dec_of_Z now)) in
  num_ltb t (Fin (dec_of_Z c)) = (n * 1000 - now <? c) /\
  num_gtb t (Fin (dec_of_Z c)) = (c <? n * 1000 - now) /\
  num_leb t (Fin (dec_of_Z c)) = (n * 1000 - now <=? c).
Proof.
  unfold num_ltb, num_leb, num_gtb, num_sub, num_mul, dec_sub, dec_mul, dec_ltb, dec_align,
    dec_of_Z.
  cbn [dmant dexp].
  repeat match goal with
    | |- context [10 ^ ?e] => let v := eval vm_compute in (10 ^ e) in change (10 ^ e) with v
    end.
  rewrite !Z.mul_1_r. repeat split.
  rewrite Z.leb_antisym. reflexivity.
Qed.

Section ExpiryCheck.

Variable API_BASE_URL : string.
Variable NumberToString : decimal -> string.
Variable StringToNumber : string -> number.

Abbreviation build_request' := (build_request API_BASE_URL NumberToString).
Abbreviation refreshAuth' := (refreshAuth API_BASE_URL NumberToString).
Abbreviation expiryCheck' := (expiryCheck API_BASE_URL NumberToString StringToNumber).

Lemma advance_expiryCheck w b token :
  window w = Some b ->
  localStorage b !! "access_token" = Some token ->
  token <> "" ->
  advance expiryCheck' w =
  match decodeToken token with
  | VObj claims =>
      match lookup_field "exp" claims with
      | Some (VNum (Dec n 0)) =>
          if n * 1000 - clock w <? 300000
          then advance (Spawn refreshAuth' (Ret tt)) w
          else Finished (inr tt) w
      | None => Finished (inr tt) w
      | _ => advance expiryCheck' w
      end
  | VNull => Finished (inr tt) w
  | _ => advance expiryCheck' w
  end.
Proof.
  intros Hw Htok Hne.
  assert (Hget : do_op (GetItem "access_token") w = (inr (VStr token), w)).
  { open_world w Hw. cbn [do_op window]. rewrite Htok. reflexivity. }
  destruct (decodeToken token) as [| |?|?|?|?|claims] eqn:Hdec; try reflexivity.
  - unfold expiryCheck, getItem. rewrite advance_bind, advance_perform.
    unfold exec. rewrite Hget. cbn [fst snd]. cbv beta iota.
    rewrite (truthy_VStr _ Hne). cbn [decodeToken_value]. rewrite Hdec. reflexivity.
  - destruct (lookup_field "exp" claims) as [[| |?|[n [| |]]|?|?|?]|] eqn:Hexp; try reflexivity.
    + unfold expiryCheck, getItem. rewrite advance_bind, advance_perform.
      unfold exec. rewrite Hget. cbn [fst snd]. cbv beta iota.
      rewrite (truthy_VStr _ Hne). cbn [decodeToken_value]. rewrite Hdec. cbn [truthy].
      rewrite advance_bind, advance_getProp. cbn [get_prop]. rewrite Hexp.
      cbn [default from_option id]. cbv beta iota.
      unfold dateNow. rewrite advance_bind, advance_perform. cbn [do_op fst exec snd].
      cbv beta iota zeta. cbn [ToNumber].
      destruct (time_until_expiry n (clock w) (5 * 60 * 1000)) as (Hlt & _ & _).
      destruct (time_until_expiry n (clock w) 0) as (_ & Hgt & Hle).
      cbv zeta in Hlt, Hgt, Hle. fold (dec_of_Z n). rewrite Hlt, Hgt, Hle.
      change (5 * 60 * 1000) with 300000.
      destruct (n * 1000 - clock w <? 300000) eqn:E1; cbn [andb].
      * destruct (0 <? n * 1000 - clock w) eqn:E2; [reflexivity|].
        replace (n * 1000 - clock w <=? 0) with true by (symmetry; apply Z.leb_le; lia).
        reflexivity.
      * replace (n * 1000 - clock w <=? 0) with false by (symmetry; apply Z.leb_gt; lia).
        reflexivity.
    + unfold expiryCheck, getItem. rewrite advance_bind, advance_perform.
      unfold exec. rewrite Hget. cbn [fst snd]. cbv beta iota.
      rewrite (truthy_VStr _ Hne). cbn [decodeToken_value]. rewrite Hdec. cbn [truthy].
      rewrite advance_bind, advance_getProp. cbn [get_prop]. rewrite Hexp.
      cbn [default from_option id]. cbv beta iota.
      unfold dateNow. rewrite advance_bind, advance_perform. cbn [do_op fst exec snd].
      cbv beta iota zeta. cbn [ToNumber num_mul num_sub num_ltb num_gtb num_leb andb].
      reflexivity.
Qed.


(** X11.  The check that runs every minute, for a stored token whose
    [exp] is a whole number of seconds: with five minutes or more left it
    does nothing at all; with less, or with the token already expired, it
    starts [refreshAuth] without awaiting it, so that with a refresh token
    in the store one request to [/api/auth/refresh] is in flight, and
    without one the access token is removed.  A token that does not
    decode, or that has no [exp], is left alone. *)
Theorem expiryCheck_five_minutes w b token :
  window w = Some b ->
  localStorage b !! "access_token" = Some token ->
  token <> "" ->
  (forall claims n,
     decodeToken token = VObj claims ->
     lookup_field "exp" claims = Some (VNum (dec_of_Z n)) ->
     300000 <= n * 1000 - clock w ->
     advance expiryCheck' w = Finished (inr tt) w) /\
  (forall claims n rt,
     decodeToken token = VObj claims ->
     lookup_field "exp" claims = Some (VNum (dec_of_Z n)) ->
     n * 1000 - clock w < 300000 ->
     localStorage b !! "refresh_token" = Some rt -> rt <> "" ->
     exists w' k,
       advance expiryCheck' w = Finished (inr tt) w' /\
       since (trace w) (trace w')
         = [EvFetch (build_request' "/api/auth/refresh" (refresh_options rt) (VStr token))] /\
       background w'
         = background w
           ++ [(build_request' "/api/auth/refresh" (refresh_options rt) (VStr token), k)] /\
       session w' = session w /\ window w' = window w) /\
  (forall claims n,
     decodeToken token = VObj claims ->
     lookup_field "exp" claims = Some (VNum (dec_of_Z n)) ->
     n * 1000 - clock w < 300000 ->
     localStorage b !! "refresh_token" = None \/ localStorage b !! "refresh_token" = Some "" ->
     exists w',
       advance expiryCheck' w = Finished (inr tt) w' /\
       stored "access_token" w' = None /\
       session w' = mkSession false (VBool false) (isLoading (session w)) /\
       since (trace w) (trace w') = [EvRemoveItem "access_token"]) /\
  (decodeToken token = VNull \/
   (exists claims, decodeToken token = VObj claims /\ lookup_field "exp" claims = None) ->
   advance expiryCheck' w = Finished (inr tt) w).
Proof.
  intros Hw Htok Hne.
  pose proof (advance_expiryCheck w b token Hw Htok Hne) as Hadv.
  assert (Hcur : current_token w = VStr token).
  { unfold current_token. rewrite Hw, Htok. reflexivity. }
  destruct (advance_spawn_refreshAuth API_BASE_URL NumberToString w b Hw) as [Hwith Hwithout].
  split; [|split; [|split]].
  - intros claims n Hdec Hexp Hleft. rewrite Hadv, Hdec, Hexp. unfold dec_of_Z.
    replace (n * 1000 - clock w <? 300000) with false by (symmetry; apply Z.ltb_ge; lia).
    reflexivity.
  - intros claims n rt Hdec Hexp Hleft Hrt Hrne. rewrite Hadv, Hdec, Hexp. unfold dec_of_Z.
    replace (n * 1000 - clock w <? 300000) with true by (symmetry; apply Z.ltb_lt; lia).
    destruct (Hwith rt Hrt Hrne) as [k Hk]. rewrite Hcur in Hk. rewrite Hk.
    eexists. exists k. split; [reflexivity|].
    cbn [session window trace background add_background log]. rewrite since_app.
    repeat split.
  - intros claims n Hdec Hexp Hleft Hrt. rewrite Hadv, Hdec, Hexp. unfold dec_of_Z.
    replace (n * 1000 - clock w <? 300000) with true by (symmetry; apply Z.ltb_lt; lia).
    destruct (Hwithout Hrt) as (w' & Hk & Hwin & Hses & Htr & _). rewrite Hk.
    exists w'. split; [reflexivity|]. unfold stored. rewrite Hwin.
    cbn [mbind option_bind localStorage]. repeat split; trivial. apply lookup_delete_eq.
  - intros [Hdec | (claims & Hdec & Hexp)]; rewrite Hadv, Hdec; [reflexivity|].
    rewrite Hexp. reflexivity.
Qed.

End ExpiryCheck.

(* ===================================================================== *)
(** ** [login] and the callback page *)
(* ===================================================================== *)

Section Login.

Variable API_BASE_URL : string.
Variable NumberToString : decimal -> string.

Abbreviation ToString' := (ToString NumberToString).
Abbreviation build_request' := (build_request API_BASE_URL NumberToString).
Abbreviation apiRequest' := (apiRequest API_BASE_URL NumberToString).
Abbreviation login' := (login API_BASE_URL NumberToString).
Abbreviation exchangeToken' := (exchangeToken API_BASE_URL NumberToString).
Abbreviation callbackEffect' := (callbackEffect API_BASE_URL NumberToString).

(** X12.  [login] asks the gateway for the login URL.  A 2xx answer comes
    back after one request as the parsed body (as an empty object for
    status 204), and nothing is written to the store.  When
    [authorization_url] can be read from it, [login] assigns its text to
    the location (the text [undefined] when the body has none); when the
    body is the JSON text [null], so that the read throws, or is not
    JSON, [login] rejects with that error and does not navigate.  When
    the gateway rejects, [login] rejects with the same error and does not
    navigate. *)
Theorem login_navigates w b :
  window w = Some b ->
  let request := build_request' "/api/auth/discord/login" no_options (current_token w) in
  (forall r extra,
     ok r = true ->
     let answer := if status r =? 204 then inr (VObj []) else json_result r in
     (forall body url,
        answer = inr body ->
        get_prop body "authorization_url" = inr url ->
        printable url = true ->
        exists w',
          run (inr r :: extra) login' w = Finished (inr tt) w' /\
          since (trace w) (trace w') = [EvFetch request; EvLocationHref (ToString' url)] /\
          window w' = window w /\ session w' = session w) /\
     (forall body e,
        answer = inr body ->
        get_prop body "authorization_url" = inl e ->
        run (inr r :: extra) login' w = Finished (inl e) (log (EvFetch request) w)) /\
     (forall e,
        answer = inl e ->
        run (inr r :: extra) login' w = Finished (inl e) (log (EvFetch request) w))) /\
  (forall script e w1,
     run script (apiRequest' "/api/auth/discord/login" no_options) w = Finished (inl e) w1 ->
     run script login' w = Finished (inl e) w1).
Proof.
  intros Hw request.
  assert (Hfail : forall script e w1,
     run script (apiRequest' "/api/auth/discord/login" no_options) w = Finished (inl e) w1 ->
     run script login' w = Finished (inl e) w1).
  { intros script e w1 H. unfold login.
    apply (run_try_catch_throw _ _ _ _ e w1); [|reflexivity].
    apply run_bind_throw. exact H. }
  split; [|exact Hfail].
  intros r extra Hok answer.
  set (w0 := log (EvFetch request) w).
  assert (Hcall : run (inr r :: extra) (apiRequest' "/api/auth/discord/login" no_options) w
                  = Finished answer w0).
  { apply (run_apiRequest_ok API_BASE_URL NumberToString _ _ _ _ _ Hok). }
  split; [|split].
  - intros body url Hans Hurl _.
    exists (log (EvLocationHref (ToString' url)) w0). split.
    + unfold login. apply run_try_catch_ret.
      eapply run_bind_ret.
      * unfold apiClient_getDiscordLoginUrl. rewrite Hcall, Hans. reflexivity.
      * rewrite advance_bind, advance_getProp, Hurl. cbv beta iota.
        unfold setLocationHref. rewrite advance_perform.
        subst w0. open_world w Hw. reflexivity.
    + unfold w0. cbn [trace log window session]. rewrite <- List.app_assoc, since_app.
      repeat split.
  - intros body e Hans He. unfold login.
    apply (run_try_catch_throw _ _ _ _ e w0); [|reflexivity].
    eapply run_bind_ret.
    + unfold apiClient_getDiscordLoginUrl. rewrite Hcall, Hans. reflexivity.
    + rewrite advance_bind, advance_getProp, He. reflexivity.
  - intros e Hans. apply Hfail. rewrite Hcall, Hans. reflexivity.
Qed.


Lemma advance_exchange_store data w b access_token refresh_token :
  window w = Some b ->
  get_prop data "access_token" = inr access_token ->
  truthy access_token = true ->
  get_prop data "refresh_token" = inr refresh_token ->
  advance
    (access_token ← getProp data "access_token";
     if truthy access_token then
       setItem "access_token" (ToString' access_token) ;;
       refresh_token ← getProp data "refresh_token";
       (if truthy refresh_token
        then setItem "refresh_token" (ToString' refresh_token)
        else Ret tt) ;;
       setLocationHref "/dashboard" ;;
       Ret (None : option value)
     else Ret (Some (VStr "No access token received"))) w
  = Finished (inr None)
      (exec (SetLocationHref "/dashboard")
         ((if truthy refresh_token
           then exec (SetItem "refresh_token" (ToString' refresh_token))
           else id)
            (exec (SetItem "access_token" (ToString' access_token)) w))).
Proof.
  intros Hw Ha Ht Hr. open_world w Hw. unfold_ops. adv. rewrite Ha. adv. rewrite Ht. adv.
  rewrite Hr. adv. destruct (truthy refresh_token); adv; reflexivity.
Qed.

(** X13.  The callback page.  Without a [code] or a [state] in the query
    it reports [Missing code or state parameters] and sends nothing.
    Otherwise it asks the gateway to exchange them, with both written
    into the query as they are.  A 2xx answer comes back after one
    request as the parsed body (as an empty object for status 204).  When
    its [access_token] is truthy, the page stores that token, stores
    [refresh_token] when it is truthy, and assigns [/dashboard] to the
    location, in that order; when it is falsy or missing, the page
    reports [No access token received] and leaves the store alone.  When
    the body is the JSON text [null], so that reading [access_token]
    throws, or is not JSON, or when the gateway rejects, the page reports
    the message of the error, or [Failed to exchange token] when that is
    empty. *)
Theorem exchangeToken_outcomes w b code state :
  window w = Some b ->
  let request :=
    build_request' ("/api/auth/discord/callback?code=" +:+ code +:+ "&state=" +:+ state)
      no_options (current_token w) in
  let reported (e : exn) : exn + option value :=
    match exn_message e with
    | inr message => inr (Some (js_or message (VStr "Failed to exchange token")))
    | inl e' => inl e'
    end in
  (forall r extra,
     ok r = true ->
     let answer := if status r =? 204 then inr (VObj []) else json_result r in
     (forall data access_token refresh_token,
        answer = inr data ->
        get_prop data "access_token" = inr access_token ->
        truthy access_token = true ->
        get_prop data "refresh_token" = inr refresh_token ->
        printable access_token = true ->
        printable refresh_token = true ->
        exists w',
          run (inr r :: extra) (exchangeToken' code state) w = Finished (inr None) w' /\
          since (trace w) (trace w')
            = [EvFetch request; EvSetItem "access_token" (ToString' access_token)]
              ++ (if truthy refresh_token
                  then [EvSetItem "refresh_token" (ToString' refresh_token)] else [])
              ++ [EvLocationHref "/dashboard"] /\
          stored "access_token" w' = Some (ToString' access_token) /\
          stored "refresh_token" w'
            = (if truthy refresh_token then Some (ToString' refresh_token)
               else localStorage b !! "refresh_token")) /\
     (forall data access_token,
        answer = inr data ->
        get_prop data "access_token" = inr access_token ->
        truthy access_token = false ->
        exists w',
          run (inr r :: extra) (exchangeToken' code state) w
            = Finished (inr (Some (VStr "No access token received"))) w' /\
          since (trace w) (trace w') = [EvFetch request] /\
          window w' = window w) /\
     (forall data e,
        answer = inr data ->
        get_prop data "access_token" = inl e ->
        run (inr r :: extra) (exchangeToken' code state) w
          = Finished (reported e) (log (EvFetch request) w)) /\
     (forall e,
        answer = inl e ->
        run (inr r :: extra) (exchangeToken' code state) w
          = Finished (reported e) (log (EvFetch request) w))) /\
  (forall script e w1,
     run script (apiRequest' (callback_endpoint code state) no_options) w
       = Finished (inl e) w1 ->
     run script (exchangeToken' code state) w = Finished (reported e) w1) /\
  (forall c s, c = None \/ s = None \/ c = Some "" \/ s = Some "" ->
     advance (callbackEffect' c s) w
       = Finished (inr (Some (VStr "Missing code or state parameters"))) w) /\
  (code <> "" -> state <> "" ->
     callbackEffect' (Some code) (Some state) = exchangeToken' code state).
Proof.
  intros Hw request reported.
  set (w0 := log (EvFetch request) w).
  assert (Hcatch : forall e w1,
    advance (message ← settle Ret (exn_message e);
             Ret (Some (js_or message (VStr "Failed to exchange token")))) w1
    = Finished (reported e) w1).
  { intros e w1. rewrite advance_bind, advance_settle. unfold reported.
    destruct (exn_message e); reflexivity. }
  assert (Hfail : forall script e w1,
     run script (apiRequest' (callback_endpoint code state) no_options) w
       = Finished (inl e) w1 ->
     run script (exchangeToken' code state) w = Finished (reported e) w1).
  { intros script e w1 H. unfold exchangeToken.
    apply (run_try_catch_throw _ _ _ _ e w1); [|apply Hcatch].
    apply run_bind_throw. exact H. }
  split; [|split; [exact Hfail|split]].
  - intros r extra Hok answer.
    assert (Hcall :
       run (inr r :: extra) (apiRequest' (callback_endpoint code state) no_options) w
       = Finished answer w0).
    { apply (run_apiRequest_ok API_BASE_URL NumberToString _ _ _ _ _ Hok). }
    split; [|split; [|split]].
    + intros data access_token refresh_token Hans Ha Ht Hr _ _.
      eexists. split.
      * unfold exchangeToken. apply run_try_catch_ret.
        eapply run_bind_ret; [rewrite Hcall, Hans; reflexivity|].
        apply (advance_exchange_store data w0 b access_token refresh_token Hw Ha Ht Hr).
      * subst w0. open_world w Hw. unfold stored.
        destruct (truthy refresh_token); world_unfold; cbn [id mbind option_bind];
          rewrite <- !List.app_assoc, since_app; repeat split;
          rewrite ?lookup_insert_eq, ?lookup_insert_ne by discriminate;
          rewrite ?lookup_insert_eq; reflexivity.
    + intros data access_token Hans Ha Ht.
      exists w0. split.
      * unfold exchangeToken. apply run_try_catch_ret.
        eapply run_bind_ret; [rewrite Hcall, Hans; reflexivity|].
        rewrite advance_bind, advance_getProp, Ha. cbv beta iota. rewrite Ht. reflexivity.
      * unfold w0. cbn [trace log window]. rewrite since_app. split; reflexivity.
    + intros data e Hans He. unfold exchangeToken.
      apply (run_try_catch_throw _ _ _ _ e w0); [|apply Hcatch].
      eapply run_bind_ret; [rewrite Hcall, Hans; reflexivity|].
      rewrite advance_bind, advance_getProp, He. reflexivity.
    + intros e Hans. apply Hfail. rewrite Hcall, Hans. reflexivity.
  - intros c s H. unfold callbackEffect.
    destruct c as [c|], s as [s|]; try reflexivity.
    destruct H as [H | [H | [[= ->] | [= ->]]]]; try discriminate; cbn [truthy String.eqb negb orb].
    + reflexivity.
    + destruct (negb (negb (String.eqb c ""))); reflexivity.
  - intros Hc Hs. unfold callbackEffect.
    rewrite (truthy_VStr _ Hc), (truthy_VStr _ Hs). reflexivity.
Qed.

End Login.

(* ===================================================================== *)
(** ** [checkAuth] on a token that is still valid *)
(* ===================================================================== *)

Section CheckAuthValid.

Variable API_BASE_URL : string.
Variable NumberToString : decimal -> string.
Variable StringToNumber : string -> number.

Abbreviation checkAuth' := (checkAuth API_BASE_URL NumberToString StringToNumber).

(** [checkAuth] on a stored token that decodes and has not expired. *)
Lemma advance_checkAuth_valid w b token claims exp :
  window w = Some b ->
  localStorage b !! "access_token" = Some token ->
  decodeToken token = VObj claims ->
  lookup_field "exp" claims = Some (VNum exp) ->
  dec_ltb (dec_of_Z (clock w)) (dec_mul exp (dec_of_Z 1000)) = true ->
  advance checkAuth' w
  = Finished (inr tt) (set_session (mkSession true (is_admin_of (VObj claims)) false) w).
Proof.
  intros Hw Htok Hdec Hexp Hfuture.
  assert (Hne : token <> "").
  { intros ->. vm_compute in Hdec. discriminate. }
  open_world w Hw. cbn [clock] in Hfuture.
  unfold checkAuth, unexpired. unfold_ops. adv.
  rewrite Htok. cbn [from_option]. rewrite (truthy_VStr _ Hne).
  cbn [decodeToken_value]. rewrite Hdec. cbn [truthy]. adv.
  cbn [get_prop]. rewrite Hexp. cbn [default from_option id]. adv.
  cbn [ToNumber num_mul num_gtb]. rewrite Hfuture. adv.
  unfold is_admin_of. cbn [get_prop]. adv. reflexivity.
Qed.

End CheckAuthValid.

(* ===================================================================== *)
(** ** The route guard *)
(* ===================================================================== *)

Section Guard.

Variable API_BASE_URL : string.
Variable NumberToString : decimal -> string.
Variable StringToNumber : string -> number.

Abbreviation ToNumber' := (ToNumber NumberToString StringToNumber).
Abbreviation refreshAuth' := (refreshAuth API_BASE_URL NumberToString).
Abbreviation checkAuth' := (checkAuth API_BASE_URL NumberToString StringToNumber).

(** [refreshAuth], started and not awaited, never sets a flag to true
    before its first answer. *)
Lemma spawn_refreshAuth_flags w b :
  window w = Some b ->
  exists w',
    advance (Spawn refreshAuth' (Ret tt)) w = Finished (inr tt) w' /\
    (isAuthenticated (session w') = true -> isAuthenticated (session w) = true).
Proof.
  intros Hw.
  destruct (advance_spawn_refreshAuth API_BASE_URL NumberToString w b Hw) as [Hwith Hwithout].
  destruct (localStorage b !! "refresh_token") as [rt|] eqn:Hrt.
  - destruct (String.eqb_spec rt "") as [-> | Hne].
    + destruct Hwithout as (w' & H & _ & Hses & _); [auto|].
      exists w'. split; [exact H|]. rewrite Hses. discriminate.
    + destruct (Hwith rt eq_refl Hne) as [k Hk]. eexists. split; [exact Hk|]. auto.
  - destruct Hwithout as (w' & H & _ & Hses & _); [auto|].
    exists w'. split; [exact H|]. rewrite Hses. discriminate.
Qed.

(** X14.  The guard of the dashboard after [checkAuth] has run on a fresh
    provider, for a store whose access token, if there is one, either
    does not decode or decodes to claims whose [exp], if any, is a whole
    number of seconds and whose [is_admin], if any, is a boolean.
    [checkAuth] always returns, with [isLoading] false.  If the guard
    then renders the dashboard, the store holds an access token whose
    [exp] lies after the clock and whose [is_admin] is true; and the
    guard redirects nowhere.  In any other case its effect pushes
    [/login] or [/unauthorized].  A stored token of an administrator that
    has not expired does make the guard render the dashboard. *)
Theorem guard_after_checkAuth w b :
  window w = Some b ->
  session w = initial_session ->
  (forall token, localStorage b !! "access_token" = Some token ->
     whole_exp (decodeToken token) /\ boolean_admin (decodeToken token)) ->
  exists w',
    advance checkAuth' w = Finished (inr tt) w' /\
    isLoading (session w') = false /\
    (guardRendersChildren (session w') false = true ->
     (exists token claims secs,
        localStorage b !! "access_token" = Some token /\
        decodeToken token = VObj claims /\
        lookup_field "exp" claims = Some (VNum (dec_of_Z secs)) /\
        clock w < secs * 1000 /\
        lookup_field "is_admin" claims = Some (VBool true)) /\
     forall w0, advance (guardEffect (session w') false) w0 = Finished (inr false) w0) /\
    (guardRendersChildren (session w') false = false ->
     forall w0, exists path,
       (path = "/login" \/ path = "/unauthorized") /\
       advance (guardEffect (session w') false) w0
         = Finished (inr true) (log (EvRouterPush path) w0)) /\
    (forall token claims secs,
       localStorage b !! "access_token" = Some token ->
       decodeToken token = VObj claims ->
       lookup_field "exp" claims = Some (VNum (dec_of_Z secs)) ->
       clock w < secs * 1000 ->
       lookup_field "is_admin" claims = Some (VBool true) ->
       guardRendersChildren (session w') false = true).
Proof.
  intros Hw Hses Hplain.
  assert (Hguard : forall s, isLoading s = false ->
    (guardRendersChildren s false = true ->
     isAuthenticated s = true /\ truthy (isAdmin s) = true /\
     forall w0, advance (guardEffect s false) w0 = Finished (inr false) w0) /\
    (guardRendersChildren s false = false ->
     forall w0, exists path,
       (path = "/login" \/ path = "/unauthorized") /\
       advance (guardEffect s false) w0 = Finished (inr true) (log (EvRouterPush path) w0))).
  { intros [auth admin loading] Hl. cbn in Hl. subst loading.
    unfold guardRendersChildren, guardEffect. cbn [isLoading isAuthenticated isAdmin negb].
    destruct auth; cbn [negb orb].
    - destruct (truthy admin); cbn [negb orb]; split; try discriminate.
      + intros _. repeat split.
      + intros _ w0. exists "/unauthorized". split; [auto|].
        unfold routerPush. rewrite advance_bind, advance_perform. reflexivity.
    - split; [discriminate|]. intros _ w0. exists "/login". split; [auto|].
      unfold routerPush. rewrite advance_bind, advance_perform. reflexivity. }
  assert (Hmain : exists w',
    advance checkAuth' w = Finished (inr tt) w' /\
    isLoading (session w') = false /\
    (isAuthenticated (session w') = true -> truthy (isAdmin (session w')) = true ->
     exists token exp,
        localStorage b !! "access_token" = Some token /\
        get_prop (decodeToken token) "exp" = inr exp /\
        num_gtb (num_mul (ToNumber' exp) (Fin (dec_of_Z 1000))) (Fin (dec_of_Z (clock w)))
          = true /\
        truthy (is_admin_of (decodeToken token)) = true)).
  { unfold checkAuth. unfold getItem at 1.
    assert (Hget : do_op (GetItem "access_token") w
                   = (inr (from_option VStr VNull (localStorage b !! "access_token")), w)).
    { open_world w Hw. reflexivity. }
    rewrite advance_bind, advance_perform. unfold exec. rewrite Hget. cbn [fst snd].
    cbv beta iota. rewrite advance_bind.
    destruct (localStorage b !! "access_token") as [token|] eqn:Htok; cbn [from_option].
    2:{ cbn [truthy]. open_world w Hw. unfold_ops. adv. eexists. split; [reflexivity|].
        cbn [session isLoading isAuthenticated]. split; [reflexivity | discriminate]. }
    destruct (truthy (VStr token)) eqn:Ht.
    2:{ open_world w Hw. unfold_ops. adv. eexists. split; [reflexivity|].
        cbn [session isLoading isAuthenticated]. split; [reflexivity | discriminate]. }
    cbn [decodeToken_value]. rewrite advance_bind. unfold unexpired.
    destruct (truthy (decodeToken token)) eqn:Hdec.
    2:{ rewrite advance_Ret. cbv beta iota.
        destruct (spawn_refreshAuth_flags w b Hw) as (w1 & Hsp & Hflag).
        rewrite Hsp. cbv beta iota. unfold setIsLoading. rewrite advance_perform.
        eexists. split; [reflexivity|]. cbn. split; [reflexivity|].
        intros Hauth. apply Hflag in Hauth. rewrite Hses in Hauth. discriminate. }
    rewrite advance_bind, advance_getProp.
    destruct (get_prop (decodeToken token) "exp") as [e|exp] eqn:Hexp.
    { destruct (decodeToken token); discriminate. }
    cbv beta iota. unfold dateNow. rewrite advance_bind, advance_perform.
    cbn [do_op fst snd exec]. rewrite advance_Ret. cbv beta iota.
    destruct (num_gtb _ _) eqn:Hgt.
    - unfold setIsAuthenticated. rewrite advance_bind, advance_perform.
      rewrite advance_bind, advance_getProp.
      destruct (get_prop (decodeToken token) "is_admin") as [e|is_admin] eqn:Hadm.
      { destruct (decodeToken token); discriminate. }
      cbv beta iota. unfold setIsAdmin, setIsLoading. rewrite advance_perform.
      cbn [do_op fst snd exec]. cbv beta iota. rewrite advance_perform.
      eexists. split; [reflexivity|]. cbn. split; [reflexivity|].
      intros _ Hadmin. exists token, exp. repeat split; trivial.
      unfold is_admin_of. rewrite Hadm. exact Hadmin.
    - destruct (spawn_refreshAuth_flags w b Hw) as (w1 & Hsp & Hflag).
      rewrite Hsp. cbv beta iota. unfold setIsLoading. rewrite advance_perform.
      eexists. split; [reflexivity|]. cbn. split; [reflexivity|].
      intros Hauth. apply Hflag in Hauth. rewrite Hses in Hauth. discriminate. }
  destruct Hmain as (w' & Hadv & Hload & Hvalid).
  exists w'. split; [exact Hadv|]. split; [exact Hload|].
  destruct (Hguard (session w') Hload) as [Hyes Hno]. split; [|split].
  - intros Hr. destruct (Hyes Hr) as (Hauth & Hadmin & Heff). split; [|exact Heff].
    destruct (Hvalid Hauth Hadmin) as (token & exp & Htok & Hexp & Hgt & Hadm).
    destruct (Hplain token Htok) as [Hwhole Hbool].
    destruct Hwhole as [Hnull | (claims & Hdec & Hwhole)].
    { rewrite Hnull in Hexp. discriminate. }
    rewrite Hdec in Hexp, Hadm. cbn [get_prop] in Hexp. injection Hexp as <-.
    destruct Hwhole as [Hnone | (secs & Hsecs)].
    { rewrite Hnone in Hgt. discriminate. }
    rewrite Hsecs in Hgt. cbn [default from_option id ToNumber] in Hgt.
    rewrite whole_seconds_later in Hgt. apply Z.ltb_lt in Hgt.
    destruct Hbool as [Hnull | (claims' & Hdec' & Hbool)].
    { rewrite Hnull in Hdec. discriminate. }
    rewrite Hdec in Hdec'. injection Hdec' as <-.
    unfold is_admin_of in Hadm. cbn [get_prop] in Hadm.
    exists token, claims, secs. repeat split; trivial.
    destruct Hbool as [Hnone | ([|] & Ha)].
    + rewrite Hnone in Hadm. discriminate.
    + exact Ha.
    + rewrite Ha in Hadm. discriminate.
  - exact Hno.
  - intros token claims secs Htok Hdec Hexp Hfuture Hadmin.
    assert (Hlt : dec_ltb (dec_of_Z (clock w)) (dec_mul (dec_of_Z secs) (dec_of_Z 1000)) = true).
    { pose proof (whole_seconds_later secs (clock w)) as H.
      cbn [num_gtb num_mul] in H. rewrite H. apply Z.ltb_lt. exact Hfuture. }
    rewrite (advance_checkAuth_valid API_BASE_URL NumberToString StringToNumber
               w b token claims (dec_of_Z secs) Hw Htok Hdec Hexp Hlt) in Hadv.
    injection Hadv as <-. unfold guardRendersChildren.
    cbn [session set_session isLoading isAuthenticated isAdmin negb orb].
    unfold is_admin_of. cbn [get_prop]. rewrite Hadmin. reflexivity.
Qed.

End Guard.

(* ===================================================================== *)
(** ** The provider hears of a refresh *)
(* ===================================================================== *)

Section Listener.

Variable API_BASE_URL : string.
Variable NumberToString : decimal -> string.
Variable StringToNumber : string -> number.

Abbreviation build_request' := (build_request API_BASE_URL NumberToString).
Abbreviation apiRequest' := (apiRequest API_BASE_URL NumberToString).
Abbreviation checkAuth' := (checkAuth API_BASE_URL NumberToString StringToNumber).
Abbreviation handleTokenRefresh' :=
  (handleTokenRefresh API_BASE_URL NumberToString StringToNumber).
Abbreviation handleStorageChange' :=
  (handleStorageChange API_BASE_URL NumberToString StringToNumber).

(** X15.  A call of the gateway that refreshes announces it with
    [tokenRefreshed] while its retry is in flight.  The listener of the
    provider, [checkAuth], run at that moment reads the new access token
    from the store.  When that token decodes to claims with an [exp] in
    whole seconds that lies after the clock (and with an [is_admin] that
    is a boolean or absent), [isAuthenticated] is true, [isAdmin] is the
    [is_admin] of the new token, [false] when it has none, and
    [isLoading] is false, and the listener sends nothing.  An event of
    the store for [access_token] or [refresh_token] runs the same
    [checkAuth]; one for another key, or without a key, does nothing. *)
Theorem refreshed_token_reaches_provider
    ep opts w b rt r0 rr body data access_token refresh_token claims secs :
  window w = Some b ->
  localStorage b !! "refresh_token" = Some rt ->
  rt <> "" ->
  status r0 = 401 ->
  ok rr = true ->
  json rr = BodyJson body ->
  get_prop body "data" = inr data ->
  get_prop (js_or data body) "access_token" = inr access_token ->
  get_prop (js_or data body) "refresh_token" = inr refresh_token ->
  truthy access_token = true ->
  printable access_token = true ->
  printable refresh_token = true ->
  decodeToken (ToString NumberToString access_token) = VObj claims ->
  lookup_field "exp" claims = Some (VNum (dec_of_Z secs)) ->
  clock w < secs * 1000 ->
  boolean_admin (VObj claims) ->
  exists k w',
    run [inr r0; inr rr] (apiRequest' ep opts) w
      = Blocked (build_request' ep opts access_token) k w' /\
    last (since (trace w) (trace w')) = Some (EvFetch (build_request' ep opts access_token)) /\
    In (EvDispatch "tokenRefreshed") (since (trace w) (trace w')) /\
    advance handleTokenRefresh' w'
      = Finished (inr tt) (set_session (mkSession true (is_admin_of (VObj claims)) false) w') /\
    handleStorageChange' (VStr "access_token") = handleTokenRefresh' /\
    handleStorageChange' (VStr "refresh_token") = handleTokenRefresh' /\
    (forall key, key <> "access_token" -> key <> "refresh_token" ->
       handleStorageChange' (VStr key) = Ret tt) /\
    handleStorageChange' VNull = Ret tt.
Proof.
  intros Hw Hrt Hne Hs Hok Hjson Hdata Hacc Href Ht _ _ Hdec Hexp Hfuture _.
  set (access := ToString NumberToString access_token) in *.
  set (new_refresh :=
         if truthy refresh_token then Some (ToString NumberToString refresh_token) else None).
  destruct (run_apiRequest_retry_in_flight API_BASE_URL NumberToString ep opts w b rt r0 rr
              body data access_token refresh_token Hw Hrt Hne Hs Hok Hjson Hdata Hacc Href Ht)
    as [k Hk].
  fold access new_refresh in Hk.
  eexists k, _. split; [exact Hk|].
  rewrite (refreshed_trace_since _ b) by exact Hw.
  split; [|split; [|split; [|split; [|split; [|split]]]]].
  - change (?a :: ?b :: ?l ++ [?c]) with (([a; b] ++ l) ++ [c]). apply last_snoc.
  - right. right. apply in_or_app. left. unfold refreshed_events.
    right. apply in_or_app. right. left. reflexivity.
  - eapply (advance_checkAuth_valid API_BASE_URL NumberToString StringToNumber);
      [| |exact Hdec|exact Hexp|].
    3:{ cbn [clock log].
        replace (clock (refreshed access new_refresh
                          (log (EvFetch (refresh_request API_BASE_URL rt))
                             (log (EvFetch (build_request' ep opts (current_token w))) w))))
          with (clock w).
        - pose proof (whole_seconds_later secs (clock w)) as H.
          cbn [num_gtb num_mul] in H. rewrite H. apply Z.ltb_lt. exact Hfuture.
        - open_world w Hw. destruct new_refresh; reflexivity. }
    + cbn [window log]. apply refreshed_window. exact Hw.
    + cbn [localStorage]. unfold refreshed_storage. destruct new_refresh.
      * rewrite lookup_insert_ne by discriminate. apply lookup_insert_eq.
      * apply lookup_insert_eq.
  - reflexivity.
  - reflexivity.
  - intros key H1 H2. unfold handleStorageChange.
    destruct (String.eqb_spec key "access_token"); [contradiction|].
    destruct (String.eqb_spec key "refresh_token"); [contradiction|]. reflexivity.
  - reflexivity.
Qed.

End Listener.

(* ===================================================================== *)
(** ** Query strings *)
(* ===================================================================== *)

Lemma replace_all_app a b s t :
  replace_all a b (s +:+ t) = replace_all a b s +:+ replace_all a b t.
Proof.
  induction s as [|c s IH]; [reflexivity|].
  change (String c s +:+ t) with (String c (s +:+ t)).
  cbn [replace_all]. rewrite IH. reflexivity.
Qed.

(** One encoded byte decodes to the byte, whatever follows it. *)
Lemma urlencode_byte_decode c l :
  percent_decode (list_ascii_of_string (replace_all "+" " " (urlencode_byte c)) ++ l)
  = c :: percent_decode l.
Proof.
  destruct c as [[] [] [] [] [] [] [] []]; reflexivity.
Qed.

Lemma percent_decode_urlencode s :
  percent_decode (list_ascii_of_string (replace_all "+" " " (urlencode s)))
  = list_ascii_of_string s.
Proof.
  induction s as [|c s IH]; [reflexivity|].
  cbn [urlencode].
  rewrite replace_all_app, list_ascii_of_string_app, urlencode_byte_decode, IH.
  reflexivity.
Qed.

Lemma urldecode_urlencode s : urldecode (urlencode s) = s.
Proof.
  unfold urldecode. rewrite percent_decode_urlencode.
  apply string_of_list_ascii_of_string.
Qed.

Lemma free_of_app c s t : free_of c (s +:+ t) = free_of c s && free_of c t.
Proof.
  induction s as [|d s IH]; [reflexivity|].
  change (String d s +:+ t) with (String d (s +:+ t)).
  cbn [free_of]. rewrite IH. now rewrite andb_assoc.
Qed.

Lemma urlencode_byte_free c :
  free_of "&" (urlencode_byte c) = true /\ free_of "=" (urlencode_byte c) = true.
Proof.
  destruct c as [[] [] [] [] [] [] [] []]; split; reflexivity.
Qed.

Lemma urlencode_free s :
  free_of "&" (urlencode s) = true /\ free_of "=" (urlencode s) = true.
Proof.
  induction s as [|c s [IH1 IH2]]; [split; reflexivity|].
  cbn [urlencode]. rewrite !free_of_app, IH1, IH2.
  destruct (urlencode_byte_free c) as [-> ->]. split; reflexivity.
Qed.

Lemma split_pair_app n v :
  free_of "=" n = true -> split_pair (n +:+ "=" +:+ v) = (n, v).
Proof.
  induction n as [|c n IH]; intros H; [reflexivity|].
  cbn [free_of] in H. apply andb_true_iff in H as [Hc Hn].
  change (String c n +:+ "=" +:+ v) with (String c (n +:+ "=" +:+ v)).
  cbn [split_pair]. destruct (Ascii.eqb c "="); [discriminate|].
  now rewrite (IH Hn).
Qed.

Lemma split_on_free sep s : free_of sep s = true -> split_on sep s = [s].
Proof.
  induction s as [|c s IH]; intros H; [reflexivity|].
  cbn [free_of] in H. apply andb_true_iff in H as [Hc Hs].
  cbn [split_on]. destruct (Ascii.eqb c sep); [discriminate|].
  now rewrite (IH Hs).
Qed.

Lemma split_on_app sep s t :
  free_of sep s = true ->
  split_on sep (s +:+ String sep t) = s :: split_on sep t.
Proof.
  induction s as [|c s IH]; intros H.
  - change (EmptyString +:+ String sep t) with (String sep t).
    cbn [split_on]. now rewrite Ascii.eqb_refl.
  - cbn [free_of] in H. apply andb_true_iff in H as [Hc Hs].
    change (String c s +:+ String sep t) with (String c (s +:+ String sep t)).
    cbn [split_on]. destruct (Ascii.eqb c sep); [discriminate|].
    now rewrite (IH Hs).
Qed.

Lemma split_on_join sep x parts :
  Forall (fun p => free_of sep p = true) (x :: parts) ->
  split_on sep (join (String sep EmptyString) (x :: parts)) = x :: parts.
Proof.
  revert x. induction parts as [|y parts IH]; intros x H.
  - cbn. apply split_on_free. now inversion H.
  - change (join (String sep EmptyString) (x :: y :: parts))
      with (x +:+ String sep EmptyString +:+ join (String sep EmptyString) (y :: parts)).
    change (String sep EmptyString +:+ join (String sep EmptyString) (y :: parts))
      with (String sep (join (String sep EmptyString) (y :: parts))).
    inversion H as [|? ? Hx Hrest]; subst.
    rewrite (split_on_app _ _ _ Hx), (IH y Hrest). reflexivity.
Qed.

Lemma encode_pair_free p : free_of "&" (encode_pair p) = true.
Proof.
  unfold encode_pair. rewrite !free_of_app.
  destruct (urlencode_free (fst p)) as [-> _].
  destruct (urlencode_free (snd p)) as [-> _]. reflexivity.
Qed.

Lemma encode_pair_nonempty p : String.eqb (encode_pair p) "" = false.
Proof.
  unfold encode_pair. destruct (urlencode (fst p)); reflexivity.
Qed.

Lemma encode_pair_split p :
  (let '(n, v) := split_pair (encode_pair p) in (urldecode n, urldecode v)) = p.
Proof.
  unfold encode_pair.
  rewrite split_pair_app by apply urlencode_free.
  rewrite !urldecode_urlencode. now destruct p.
Qed.

(** What [toString] writes, the parser reads back: the same pairs in the
    same order, whatever bytes the names and the values hold. *)
Lemma URLSearchParams_round_trip (params : URLSearchParams) :
  URLSearchParams_parse (URLSearchParams_toString params) = params.
Proof.
  unfold URLSearchParams_parse, URLSearchParams_toString.
  destruct params as [|p params]; [reflexivity|].
  change (map encode_pair (p :: params)) with (encode_pair p :: map encode_pair params).
  rewrite split_on_join.
  2:{ change (encode_pair p :: map encode_pair params) with (map encode_pair (p :: params)).
      apply List.Forall_forall. intros x Hx. apply in_map_iff in Hx as [q [<- _]].
      apply encode_pair_free. }
  change (encode_pair p :: map encode_pair params) with (map encode_pair (p :: params)).
  generalize (p :: params). intros l.
  induction l as [|q l IH]; [reflexivity|].
  cbn [map List.filter]. rewrite encode_pair_nonempty. cbn [negb map].
  rewrite encode_pair_split. f_equal. exact IH.
Qed.

Section ListQueries.

Variable API_BASE_URL : string.
Variable NumberToString : decimal -> string.

Lemma append_truthy_read name member params :
  append_truthy name member params = params ++ read_text name member.
Proof.
  destruct member as [s|]; cbn [append_truthy read_text truthy].
  - destruct (String.eqb s ""); cbn [negb]; [now rewrite app_nil_r | reflexivity].
  - now rewrite app_nil_r.
Qed.

Lemma append_defined_read name member params :
  append_defined NumberToString name member params
  = params ++ read_number NumberToString name member.
Proof.
  destruct member; cbn [append_defined read_number]; [reflexivity | now rewrite app_nil_r].
Qed.

(** X16 ([apiClient.getCards], [apiClient.getPlayers],
    [apiClient.getEventLogs]).  Each of the three list functions calls the
    gateway with its path followed by a query that the receiving side
    parses back to exactly these parameters, in this order: [page]
    (default 1) and [page_size] (default 20), then the members of the
    options.  A text member is sent when it is a non-empty string; a
    number member ([search_id], [player_id]) is sent whenever it is
    defined, zero included.  This holds whatever bytes the text members
    hold: a search text with [&], [=], [+], [%] or a space reaches the
    receiving side as one value and adds no parameter. *)
Theorem list_queries_parse_back (page pageSize : option decimal) :
  let paging := [("page", NumberToString (default (dec_of_Z 1) page));
                 ("page_size", NumberToString (default (dec_of_Z 20) pageSize))] in
  (forall options : option CardsOptions, exists query,
     apiClient_getCards API_BASE_URL NumberToString page pageSize options
     = apiRequest API_BASE_URL NumberToString ("/api/cards/?" +:+ query) no_options /\
     URLSearchParams_parse query
     = paging
       ++ read_text "search_name" (options ≫= cards_search_name)
       ++ read_number NumberToString "search_id" (options ≫= cards_search_id)
       ++ read_text "sort_by" (options ≫= cards_sort_by)
       ++ read_text "sort_order" (options ≫= cards_sort_order)) /\
  (forall options : option PlayersOptions, exists query,
     apiClient_getPlayers API_BASE_URL NumberToString page pageSize options
     = apiRequest API_BASE_URL NumberToString ("/api/players/?" +:+ query) no_options /\
     URLSearchParams_parse query
     = paging
       ++ read_text "search_username" (options ≫= players_search_username)
       ++ read_text "search_discord_id" (options ≫= players_search_discord_id)
       ++ read_text "sort_by" (options ≫= players_sort_by)
       ++ read_text "sort_order" (options ≫= players_sort_order)) /\
  (forall options : option EventLogsOptions, exists query,
     apiClient_getEventLogs API_BASE_URL NumberToString page pageSize options
     = apiRequest API_BASE_URL NumberToString ("/api/event-logs/?" +:+ query) no_options /\
     URLSearchParams_parse query
     = paging
       ++ read_number NumberToString "player_id" (options ≫= logs_player_id)
       ++ read_text "player_name" (options ≫= logs_player_name)
       ++ read_text "event_type" (options ≫= logs_event_type)).
Proof.
  intros paging. repeat split; intros options; eexists; (split; [reflexivity|]);
    rewrite URLSearchParams_round_trip;
    unfold getCards_params, getPlayers_params, getEventLogs_params, page_params;
    cbv zeta;
    rewrite ?append_truthy_read, ?append_defined_read, <- ?app_assoc; reflexivity.
Qed.

End ListQueries.

(** The query of a search for the text [a&b=c d+%~] with [search_id] 0
    and an empty [sort_by]. *)
Example getCards_query_known :
  URLSearchParams_toString
    (getCards_params NumberToString_std (Some (dec_of_Z 2)) None
       (Some (mkCardsOptions (Some "a&b=c d+%~") (Some (dec_of_Z 0)) (Some "") None)))
  = "page=2&page_size=20&search_name=a%26b%3Dc+d%2B%25%7E&search_id=0" /\
  URLSearchParams_parse "page=2&&x&search_name=a%26b%3Dc+d%2B%25%7E&y=%zz=1"
  = [("page", "2"); ("x", ""); ("search_name", "a&b=c d+%~"); ("y", "%zz=1")].
Proof. split; vm_compute; reflexivity. Qed.

(* ===================================================================== *)
(** ** The refresh request as it is sent *)
(* ===================================================================== *)

Section RefreshBody.

Variable API_BASE_URL : string.
Variable NumberToString : decimal -> string.

(** X17 ([apiClient.refreshToken], the refresh request of [apiRequest]).
    The body of a refresh request, written by [JSON.stringify], is read
    back by [JSON.parse] as the object with the one member
    [refresh_token] whose value is the stored token, byte for byte:
    quotes, backslashes and control characters in the token are escaped
    and cannot end the string or add a member.  This holds for the
    request the gateway sends itself after a 401 and for the request of
    [apiClient.refreshToken], whatever access token the latter carries. *)
Theorem refresh_body_parses_back (refreshToken : string) (token : value) :
  req_body (refresh_request API_BASE_URL refreshToken) ≫= JSON_parse
  = Some (VObj [("refresh_token", VStr refreshToken)]) /\
  req_body (build_request API_BASE_URL NumberToString "/api/auth/refresh"
              (refresh_options refreshToken) token) ≫= JSON_parse
  = Some (VObj [("refresh_token", VStr refreshToken)]) /\
  apiClient_refreshToken API_BASE_URL NumberToString refreshToken
  = apiRequest API_BASE_URL NumberToString "/api/auth/refresh" (refresh_options refreshToken).
Proof.
  repeat split; cbn [refresh_request build_request refresh_options req_body opt_body mbind
                     option_bind]; apply JSON_parse_refresh_body.
Qed.

End RefreshBody.

(** A refresh token with a quote, a backslash and a line feed. *)
Example stringify_refresh_body_known :
  let token := "a" +:+ String dquote "\" +:+ String (chr 10) "b" in
  stringify_refresh_body token
  = "{" +:+ String dquote "refresh_token" +:+ String dquote ":" +:+ String dquote "a\"
      +:+ String dquote "\\\nb" +:+ String dquote "}" /\
  JSON_parse (stringify_refresh_body token) = Some (VObj [("refresh_token", VStr token)]).
Proof. split; vm_compute; reflexivity. Qed.

(* ===================================================================== *)
(** ** The query of the callback endpoint *)
(* ===================================================================== *)

Lemma string_app_assoc (s t u : string) : (s +:+ t) +:+ u = s +:+ t +:+ u.
Proof.
  induction s as [|c s IH]; [reflexivity|].
  change (String c (s +:+ t) +:+ u = String c (s +:+ t +:+ u)).
  change (String c ((s +:+ t) +:+ u) = String c (s +:+ t +:+ u)).
  now rewrite IH.
Qed.

Lemma replace_all_free a b s : free_of a s = true -> replace_all a b s = s.
Proof.
  induction s as [|c s IH]; intros H; [reflexivity|].
  cbn [free_of] in H. apply andb_true_iff in H as [Hc Hs].
  cbn [replace_all]. rewrite (IH Hs).
  destruct (Ascii.eqb c a); [discriminate | reflexivity].
Qed.

Lemma percent_decode_free s :
  free_of "%" s = true ->
  percent_decode (list_ascii_of_string s) = list_ascii_of_string s.
Proof.
  induction s as [|c s IH]; intros H; [reflexivity|].
  cbn [free_of] in H. apply andb_true_iff in H as [Hc Hs].
  cbn [list_ascii_of_string percent_decode].
  destruct (Ascii.eqb c "%"); [discriminate|].
  now rewrite (IH Hs).
Qed.

Lemma query_safe_spec s :
  query_safe s = true ->
  free_of "&" s = true /\ free_of "+" s = true /\ free_of "%" s = true.
Proof.
  unfold query_safe. intros H.
  apply andb_true_iff in H as [H _].
  apply andb_true_iff in H as [H H3].
  apply andb_true_iff in H as [H1 H2]. auto.
Qed.

Lemma urldecode_safe s : query_safe s = true -> urldecode s = s.
Proof.
  intros H. apply query_safe_spec in H as (_ & Hplus & Hpct).
  unfold urldecode. rewrite (replace_all_free _ _ _ Hplus), (percent_decode_free _ Hpct).
  apply string_of_list_ascii_of_string.
Qed.

(** The sequences of a query whose first sequence ends at the first [&]. *)
Lemma split_on_ampersand s t :
  free_of "&" s = true -> split_on "&" (s +:+ "&" +:+ t) = s :: split_on "&" t.
Proof. intros H. exact (split_on_app "&" s t H). Qed.

(** One sequence [name=value] written without encoding, for one of the
    two names of the callback. *)
Lemma parse_raw_sequence name value rest :
  name = "code" \/ name = "state" ->
  query_safe value = true ->
  URLSearchParams_parse (name +:+ "=" +:+ value +:+ "&" +:+ rest)
  = (name, value) :: URLSearchParams_parse rest /\
  URLSearchParams_parse (name +:+ "=" +:+ value) = [(name, value)].
Proof.
  intros Hname Hv. pose proof (query_safe_spec _ Hv) as (Hamp & _ & _).
  assert (Hfree : free_of "&" (name +:+ "=" +:+ value) = true).
  { rewrite !free_of_app, Hamp. destruct Hname as [-> | ->]; reflexivity. }
  assert (Hne : String.eqb (name +:+ "=" +:+ value) "" = false).
  { destruct Hname as [-> | ->]; reflexivity. }
  assert (Hpair : split_pair (name +:+ "=" +:+ value) = (name, value)).
  { apply split_pair_app. destruct Hname as [-> | ->]; reflexivity. }
  assert (Hn : urldecode name = name).
  { destruct Hname as [-> | ->]; reflexivity. }
  unfold URLSearchParams_parse. split.
  - replace (name +:+ "=" +:+ value +:+ "&" +:+ rest)
      with ((name +:+ "=" +:+ value) +:+ "&" +:+ rest)
      by (now rewrite !string_app_assoc).
    rewrite (split_on_ampersand _ _ Hfree).
    cbn [List.filter]. rewrite Hne. cbn [negb map].
    rewrite Hpair, Hn, (urldecode_safe _ Hv). reflexivity.
  - rewrite (split_on_free _ _ Hfree).
    cbn [List.filter]. rewrite Hne. cbn [negb map].
    rewrite Hpair, Hn, (urldecode_safe _ Hv). reflexivity.
Qed.

(** X18 ([exchangeToken] of the callback page,
    [apiClient.exchangeCodeForToken]).  The callback endpoint carries
    [code] and [state] as they are, without encoding.  When neither holds
    [&], [+], [%] or [#], the receiving side reads back exactly the two
    parameters [code] and [state].  A code that holds [&state=...] is not
    kept in one piece: the receiving side then reads a shorter code and
    the injected [state] ahead of the real one. *)
Theorem callback_endpoint_verbatim (code state : string) :
  query_safe code = true ->
  query_safe state = true ->
  (exists query,
     callback_endpoint code state = "/api/auth/discord/callback?" +:+ query /\
     URLSearchParams_parse query = [("code", code); ("state", state)]) /\
  (forall injected, query_safe injected = true ->
     exists query,
       callback_endpoint (code +:+ "&state=" +:+ injected) state
       = "/api/auth/discord/callback?" +:+ query /\
       URLSearchParams_parse query
       = [("code", code); ("state", injected); ("state", state)]).
Proof.
  intros Hcode Hstate. split.
  - exists ("code" +:+ "=" +:+ code +:+ "&" +:+ "state" +:+ "=" +:+ state).
    split.
    + unfold callback_endpoint.
      change "/api/auth/discord/callback?code=" with ("/api/auth/discord/callback?" +:+ "code=").
      rewrite string_app_assoc. reflexivity.
    + destruct (parse_raw_sequence "code" code ("state" +:+ "=" +:+ state)
                  (or_introl eq_refl) Hcode) as [-> _].
      destruct (parse_raw_sequence "state" state "" (or_intror eq_refl) Hstate) as [_ ->].
      reflexivity.
  - intros injected Hinj.
    exists ("code" +:+ "=" +:+ code +:+ "&" +:+ "state" +:+ "=" +:+ injected
              +:+ "&" +:+ "state" +:+ "=" +:+ state).
    split.
    + unfold callback_endpoint.
      change "/api/auth/discord/callback?code=" with ("/api/auth/discord/callback?" +:+ "code=").
      rewrite !string_app_assoc. reflexivity.
    + destruct (parse_raw_sequence "code" code
                  ("state" +:+ "=" +:+ injected +:+ "&" +:+ "state" +:+ "=" +:+ state)
                  (or_introl eq_refl) Hcode) as [-> _].
      destruct (parse_raw_sequence "state" injected ("state" +:+ "=" +:+ state)
                  (or_intror eq_refl) Hinj) as [-> _].
      destruct (parse_raw_sequence "state" state "" (or_intror eq_refl) Hstate) as [_ ->].
      reflexivity.
Qed.

(* ===================================================================== *)
(** ** [apiClient.getCardPoolCards] *)
(* ===================================================================== *)

Section PoolCards.

Variable API_BASE_URL : string.
Variable NumberToString : decimal -> string.

Abbreviation apiRequest' := (apiRequest API_BASE_URL NumberToString).
Abbreviation build_request' := (build_request API_BASE_URL NumberToString).

(** X19 ([apiClient.getCardPoolCards]).  The function makes the one call
    of the gateway for [/api/card-pools/<id>/cards] and hands on the
    [data] member of what the gateway returns, without a check: a
    rejection of the gateway is its rejection; a body without [data]
    gives [undefined]; and an answer 204, for which the gateway returns
    an empty object, gives [undefined] after the one request and leaves
    the store as it was. *)
Theorem getCardPoolCards_unwraps (poolId : decimal) :
  let endpoint := "/api/card-pools/" +:+ NumberToString poolId +:+ "/cards" in
  (forall script w r w1,
     run script (apiRequest' endpoint no_options) w = Finished r w1 ->
     run script (apiClient_getCardPoolCards API_BASE_URL NumberToString poolId) w
     = Finished (match r with
                 | inl e => inl e
                 | inr body => get_prop body "data"
                 end) w1) /\
  (forall fields, lookup_field "data" fields = None ->
     get_prop (VObj fields) "data" = inr VUndefined) /\
  (forall w r0 extra, status r0 = 204 ->
     exists w1,
       run (inr r0 :: extra) (apiClient_getCardPoolCards API_BASE_URL NumberToString poolId) w
       = Finished (inr VUndefined) w1 /\
       window w1 = window w /\
       since (trace w) (trace w1) = [EvFetch (build_request' endpoint no_options (current_token w))]).
Proof.
  intros endpoint. repeat split.
  - intros script w [e|body] w1 H; unfold apiClient_getCardPoolCards; fold endpoint.
    + apply run_bind_throw. exact H.
    + apply (run_bind_ret _ _ _ _ _ _ _ _ H). apply advance_getProp.
  - intros fields H. cbn [get_prop]. rewrite H. reflexivity.
  - intros w r0 extra Hs.
    assert (Hok : ok r0 = true) by (unfold ok; rewrite Hs; reflexivity).
    pose proof (run_apiRequest_ok API_BASE_URL NumberToString endpoint no_options w r0 extra Hok)
      as H.
    rewrite Hs in H. cbn [Z.eqb Pos.eqb] in H.
    eexists. split; [|split].
    + unfold apiClient_getCardPoolCards; fold endpoint.
      apply (run_bind_ret _ _ _ _ _ _ _ _ H). rewrite advance_getProp. reflexivity.
    + reflexivity.
    + cbn [trace log]. apply since_app.
Qed.

End PoolCards.

(* ===================================================================== *)
(** ** The remaining paths on a session of the admin panel *)
(* ===================================================================== *)

Lemma apiRequest_success_witness :
  exists w',
    run [inr cards_page] get_cards signed_in
      = Finished (inr (VObj [("status", VStr "success"); ("data", VArr [])])) w' /\
    window w' = window signed_in /\ session w' = session signed_in /\
    since (trace signed_in) (trace w')
      = [EvFetch (build_request base_url NumberToString_std "/api/cards/" no_options
                    (VStr admin_token))].
Proof.
  apply (apiRequest_success base_url NumberToString_std "/api/cards/" no_options signed_in
           cards_page []).
  reflexivity.
Defined.


Lemma apiRequest_error_message_witness :
  (exists w',
     run [inr bad_gateway] get_cards signed_in
       = Finished (inl (ApiError "Bad Gateway" 502 (Some bad_gateway))) w' /\
     window w' = window signed_in) /\
  (exists w',
     run [inr (mkResponse 404 "" (BodyJson (VObj [("detail", VStr "Card not found")])))]
       get_cards signed_in
       = Finished (inl (ApiError "Card not found" 404
                          (Some (mkResponse 404 ""
                                   (BodyJson (VObj [("detail", VStr "Card not found")])))))) w' /\
     window w' = window signed_in) /\
  (exists w',
     run [inr (mkResponse 500 "Internal Server Error" (BodyJson VNull))] get_cards signed_in
       = Finished (inl (JsError (JsErr "TypeError"
                          "Cannot read properties of null (reading 'detail')"))) w' /\
     window w' = window signed_in).
Proof.
  split; [|split].
  - destruct (apiRequest_error_message base_url NumberToString_std "/api/cards/" no_options
                signed_in bad_gateway [] eq_refl ltac:(discriminate) ltac:(discriminate))
      as (_ & H & _).
    apply (H (JsErr "SyntaxError" "Unexpected token '<'")). reflexivity.
  - destruct (apiRequest_error_message base_url NumberToString_std "/api/cards/" no_options
                signed_in
                (mkResponse 404 "" (BodyJson (VObj [("detail", VStr "Card not found")])))
                [] eq_refl ltac:(discriminate) ltac:(discriminate))
      as (H & _).
    apply (H (VStr "Card not found")); reflexivity.
  - destruct (apiRequest_error_message base_url NumberToString_std "/api/cards/" no_options
                signed_in (mkResponse 500 "Internal Server Error" (BodyJson VNull))
                [] eq_refl ltac:(discriminate) ltac:(discriminate))
      as (_ & _ & H & Hnull).
    apply H. apply Hnull. reflexivity.
Defined.

Lemma apiRequest_outside_browser_witness :
  run [inr unauthorized] get_cards on_server
    = Finished (inl (ApiError "Token has expired" 401 (Some unauthorized)))
        (log (EvFetch (build_request base_url NumberToString_std "/api/cards/" no_options
                         VNull)) on_server) /\
  run [inr unauthorized_null] get_cards on_server
    = Finished (inl (JsError (JsErr "TypeError"
                       "Cannot read properties of null (reading 'detail')")))
        (log (EvFetch (build_request base_url NumberToString_std "/api/cards/" no_options
                         VNull)) on_server) /\
  req_headers (build_request base_url NumberToString_std "/api/cards/" no_options VNull)
    !! "Authorization" = None.
Proof.
  split; [|split].
  - apply (apiRequest_outside_browser base_url NumberToString_std "/api/cards/" no_options
             on_server unauthorized []); try reflexivity.
    intros detail [= <-]. reflexivity.
  - apply (apiRequest_outside_browser base_url NumberToString_std "/api/cards/" no_options
             on_server unauthorized_null []); try reflexivity.
    intros detail H. discriminate H.
  - apply (apiRequest_outside_browser base_url NumberToString_std "/api/cards/" no_options
             on_server unauthorized []); try reflexivity.
    intros detail [= <-]. reflexivity.
Defined.

Lemma apiRequest_request_headers_witness :
  exists req k w',
    run [] (apiRequest base_url NumberToString_std "/api/cards/"
              (mkOptions (Some "PUT") (Some "{}")
                 (Some {[ "Authorization" := "Basic x"; "Content-Type" := "text/plain" ]})))
      signed_in = Blocked req k w' /\
    req_url req = "http://localhost:8080/api/cards/" /\
    req_method req = Some "PUT" /\
    req_body req = Some "{}" /\
    req_headers req !! "Authorization" = Some ("Bearer " +:+ admin_token) /\
    req_headers req !! "Content-Type" = Some "text/plain" /\
    req_headers req !! "ngrok-skip-browser-warning" = Some "true".
Proof.
  destruct (apiRequest_request_headers base_url NumberToString_std "/api/cards/"
              (mkOptions (Some "PUT") (Some "{}")
                 (Some {[ "Authorization" := "Basic x"; "Content-Type" := "text/plain" ]}))
              signed_in signed_in_browser admin_token eq_refl eq_refl ltac:(discriminate))
    as (req & k & w' & Hrun & Hurl & Hm & Hb & Hauth & Hother & _).
  exists req, k, w'. repeat split; trivial.
  - rewrite Hother by discriminate. reflexivity.
  - rewrite Hother by discriminate. reflexivity.
Defined.

Lemma refreshAuth_without_refresh_token_witness :
  exists w',
    advance (refreshAuth base_url NumberToString_std) no_refresh_token = Finished (inr tt) w' /\
    stored "access_token" w' = None /\
    session w' = mkSession false (VBool false) true /\
    since (trace no_refresh_token) (trace w') = [EvRemoveItem "access_token"].
Proof.
  destruct (refreshAuth_without_refresh_token base_url NumberToString_std no_refresh_token
              no_refresh_token_browser eq_refl (or_introl eq_refl))
    as (w' & Hadv & Hacc & _ & Hses & Htr & _).
  exists w'. auto.
Defined.

Lemma refreshAuth_stores_response_witness :
  (exists w',
     run [inr tokens_granted] (refreshAuth base_url NumberToString_std) signed_in
       = Finished (inr tt) w' /\
     stored "access_token" w' = Some admin_token /\
     stored "refresh_token" w' = Some "r2" /\
     session w' = mkSession true (VBool true) true) /\
  (exists w',
     run [inr refresh_granted] (refreshAuth base_url NumberToString_std) signed_in
       = Finished (inr tt) w' /\
     stored "access_token" w' = Some "undefined" /\
     stored "refresh_token" w' = Some "r1" /\
     session w' = session signed_in) /\
  (exists w',
     run [inr (mkResponse 200 "OK" (BodyJson VNull))]
       (refreshAuth base_url NumberToString_std) signed_in = Finished (inr tt) w' /\
     stored "access_token" w' = None /\
     stored "refresh_token" w' = None).
Proof.
  split; [|split].
  - destruct (refreshAuth_stores_response base_url NumberToString_std signed_in
                signed_in_browser "r1" tokens_granted [] eq_refl eq_refl ltac:(discriminate)
                eq_refl) as [H _].
    destruct (H (VObj [("access_token", VStr admin_token); ("refresh_token", VStr "r2");
                       ("token_type", VStr "bearer")])
                (VStr admin_token) (VStr "r2") eq_refl eq_refl eq_refl eq_refl eq_refl)
      as (w' & Hrun & _ & Hacc & Href & Hses).
    { right. exists admin_claims. split; [vm_compute; reflexivity|].
      right. exists true. reflexivity. }
    exists w'. repeat split; trivial.
  - destruct (refreshAuth_stores_response base_url NumberToString_std signed_in
                signed_in_browser "r1" refresh_granted [] eq_refl eq_refl ltac:(discriminate)
                eq_refl) as [H _].
    destruct (H (VObj [("status", VStr "success");
                       ("data", VObj [("access_token", VStr "fresh");
                                      ("refresh_token", VStr "r2")])])
                VUndefined VUndefined eq_refl eq_refl eq_refl eq_refl eq_refl)
      as (w' & Hrun & _ & Hacc & Href & Hses).
    { left. reflexivity. }
    exists w'. repeat split; trivial.
  - destruct (refreshAuth_stores_response base_url NumberToString_std signed_in
                signed_in_browser "r1" (mkResponse 200 "OK" (BodyJson VNull)) []
                eq_refl eq_refl ltac:(discriminate) eq_refl) as [_ H].
    destruct H as (w' & Hrun & _ & Hacc & Href & _).
    { right. eexists. eexists. split; reflexivity. }
    exists w'. repeat split; trivial.
Defined.

Lemma refreshAuth_never_rejects_witness :
  (exists w',
     run [unreachable] (refreshAuth base_url NumberToString_std) signed_in
       = Finished (inr tt) w' /\
     stored "access_token" w' = None /\
     stored "refresh_token" w' = None /\
     isAuthenticated (session w') = false /\
     isAdmin (session w') = VBool false) /\
  (exists w',
     run [inr unauthorized; inr refresh_refused; unreachable]
       (refreshAuth base_url NumberToString_std) signed_in = Finished (inr tt) w').
Proof.
  destruct (refreshAuth_never_rejects base_url NumberToString_std signed_in signed_in_browser
              "r1" eq_refl eq_refl ltac:(discriminate))
    as (_ & Hsettles & Hfail & Hreject).
  split.
  - destruct (Hreject (JsError (JsErr "TypeError" "Failed to fetch")) []) as [w1 Hw1].
    apply (Hfail _ _ _ Hw1).
  - apply Hsettles. cbn. lia.
Defined.

Lemma stale_expired_session : stale (clock expired_session) (decodeToken admin_token).
Proof.
  right. exists admin_claims. split; [vm_compute; reflexivity|].
  right. exists 1700000600. split; [reflexivity | discriminate].
Defined.

Lemma checkAuth_stale_token_witness :
  (exists w' k,
     advance (checkAuth base_url NumberToString_std StringToNumber_std) expired_session
       = Finished (inr tt) w' /\
     session w' = mkSession false (VBool false) false /\
     since (trace expired_session) (trace w')
       = [EvFetch (build_request base_url NumberToString_std "/api/auth/refresh"
                     (refresh_options "r1") (VStr admin_token))] /\
     background w'
       = [(build_request base_url NumberToString_std "/api/auth/refresh"
             (refresh_options "r1") (VStr admin_token), k)]) /\
  (exists w',
     advance (checkAuth base_url NumberToString_std StringToNumber_std) expired_without_refresh
       = Finished (inr tt) w' /\
     session w' = mkSession false (VBool false) false /\
     stored "access_token" w' = None).
Proof.
  split.
  - destruct (checkAuth_stale_token base_url NumberToString_std StringToNumber_std
                expired_session signed_in_browser admin_token eq_refl eq_refl
                ltac:(discriminate) stale_expired_session) as [Hwith _].
    destruct (Hwith "r1" eq_refl ltac:(discriminate)) as (w' & k & Hadv & Hses & _ & Htr & Hbg).
    exists w', k. auto.
  - destruct (checkAuth_stale_token base_url NumberToString_std StringToNumber_std
                expired_without_refresh no_refresh_token_browser admin_token eq_refl eq_refl
                ltac:(discriminate) stale_expired_session) as [_ Hwithout].
    destruct (Hwithout (or_introl eq_refl)) as (w' & Hadv & Hses & Hacc & _).
    exists w'. auto.
Defined.

Lemma expiryCheck_five_minutes_witness :
  advance (expiryCheck base_url NumberToString_std StringToNumber_std) signed_in
    = Finished (inr tt) signed_in /\
  (exists w' k,
     advance (expiryCheck base_url NumberToString_std StringToNumber_std) expiring_session
       = Finished (inr tt) w' /\
     since (trace expiring_session) (trace w')
       = [EvFetch (build_request base_url NumberToString_std "/api/auth/refresh"
                     (refresh_options "r1") (VStr admin_token))] /\
     background w'
       = [(build_request base_url NumberToString_std "/api/auth/refresh"
             (refresh_options "r1") (VStr admin_token), k)]) /\
  (exists w',
     advance (expiryCheck base_url NumberToString_std StringToNumber_std)
       expired_without_refresh = Finished (inr tt) w' /\
     stored "access_token" w' = None).
Proof.
  split; [|split].
  - destruct (expiryCheck_five_minutes base_url NumberToString_std StringToNumber_std
                signed_in signed_in_browser admin_token eq_refl eq_refl ltac:(discriminate))
      as (Hfar & _).
    apply (Hfar admin_claims 1700000600); [vm_compute; reflexivity | reflexivity | cbn; lia].
  - destruct (expiryCheck_five_minutes base_url NumberToString_std StringToNumber_std
                expiring_session signed_in_browser admin_token eq_refl eq_refl
                ltac:(discriminate)) as (_ & Hnear & _).
    destruct (Hnear admin_claims 1700000600 "r1") as (w' & k & Hadv & Htr & Hbg & _);
      [vm_compute; reflexivity | reflexivity | cbn; lia | reflexivity | discriminate |].
    exists w', k. auto.
  - destruct (expiryCheck_five_minutes base_url NumberToString_std StringToNumber_std
                expired_without_refresh no_refresh_token_browser admin_token eq_refl eq_refl
                ltac:(discriminate)) as (_ & _ & Hnone & _).
    destruct (Hnone admin_claims 1700000600) as (w' & Hadv & Hacc & _);
      [vm_compute; reflexivity | reflexivity | cbn; lia | left; reflexivity |].
    exists w'. auto.
Defined.

Lemma login_navigates_witness :
  (exists w',
     run [inr login_url] (login base_url NumberToString_std) signed_out
       = Finished (inr tt) w' /\
     since (trace signed_out) (trace w')
       = [EvFetch (build_request base_url NumberToString_std "/api/auth/discord/login"
                     no_options VNull);
          EvLocationHref "https://discord.com/oauth2/authorize"]) /\
  (exists w1,
     run [inr (mkResponse 200 "OK" (BodyJson VNull))] (login base_url NumberToString_std)
       signed_out
       = Finished (inl (JsError (JsErr "TypeError"
                          "Cannot read properties of null (reading 'authorization_url')")))
           w1) /\
  (exists w1,
     run [unreachable] (login base_url NumberToString_std) signed_out
       = Finished (inl (JsError (JsErr "TypeError" "Failed to fetch"))) w1).
Proof.
  pose proof (login_navigates base_url NumberToString_std signed_out signed_out_browser eq_refl)
    as H.
  cbv zeta in H. destruct H as [Hok Hfail].
  split; [|split].
  - destruct (Hok login_url [] eq_refl) as (H & _).
    destruct (H (VObj [("authorization_url", VStr "https://discord.com/oauth2/authorize")])
                (VStr "https://discord.com/oauth2/authorize") eq_refl eq_refl eq_refl)
      as (w' & Hrun & Htr & _).
    exists w'. auto.
  - destruct (Hok (mkResponse 200 "OK" (BodyJson VNull)) [] eq_refl) as (_ & H & _).
    eexists. apply (H VNull); reflexivity.
  - eexists. apply Hfail. vm_compute. reflexivity.
Defined.

Lemma exchangeToken_outcomes_witness :
  (exists w',
     run [inr tokens_granted] (exchangeToken base_url NumberToString_std "c0de" "st4te")
       on_callback_page = Finished (inr None) w' /\
     since (trace on_callback_page) (trace w')
       = [EvFetch (build_request base_url NumberToString_std
                     "/api/auth/discord/callback?code=c0de&state=st4te" no_options VNull);
          EvSetItem "access_token" admin_token; EvSetItem "refresh_token" "r2";
          EvLocationHref "/dashboard"] /\
     stored "access_token" w' = Some admin_token /\
     stored "refresh_token" w' = Some "r2") /\
  (exists w',
     run [inr tokens_missing] (exchangeToken base_url NumberToString_std "c0de" "st4te")
       on_callback_page = Finished (inr (Some (VStr "No access token received"))) w' /\
     window w' = window on_callback_page) /\
  (exists w',
     run [inr (mkResponse 200 "OK" (BodyJson VNull))]
       (exchangeToken base_url NumberToString_std "c0de" "st4te") on_callback_page
     = Finished (inr (Some (VStr "Cannot read properties of null (reading 'access_token')")))
         w') /\
  (exists w',
     run [unreachable] (exchangeToken base_url NumberToString_std "c0de" "st4te")
       on_callback_page = Finished (inr (Some (VStr "Failed to fetch"))) w') /\
  advance (callbackEffect base_url NumberToString_std (Some "c0de") None) on_callback_page
    = Finished (inr (Some (VStr "Missing code or state parameters"))) on_callback_page.
Proof.
  pose proof (exchangeToken_outcomes base_url NumberToString_std on_callback_page
                callback_browser "c0de" "st4te" eq_refl) as H.
  cbv zeta in H. destruct H as (Hok & Hfail & Hmissing & _).
  split; [|split; [|split; [|split]]].
  - destruct (Hok tokens_granted [] eq_refl) as (H & _).
    destruct (H (VObj [("access_token", VStr admin_token); ("refresh_token", VStr "r2");
                       ("token_type", VStr "bearer")])
                (VStr admin_token) (VStr "r2") eq_refl eq_refl eq_refl eq_refl eq_refl eq_refl)
      as (w' & Hrun & Htr & Hacc & Href).
    exists w'. auto.
  - destruct (Hok tokens_missing [] eq_refl) as (_ & H & _).
    destruct (H (VObj [("status", VStr "success")]) VUndefined eq_refl eq_refl eq_refl)
      as (w' & Hrun & _ & Hwin).
    exists w'. auto.
  - destruct (Hok (mkResponse 200 "OK" (BodyJson VNull)) [] eq_refl) as (_ & _ & H & _).
    eexists.
    apply (H VNull (JsError (JsErr "TypeError"
                      "Cannot read properties of null (reading 'access_token')")));
      reflexivity.
  - eexists. apply (Hfail [unreachable] (JsError (JsErr "TypeError" "Failed to fetch"))).
    vm_compute. reflexivity.
  - apply Hmissing. right. left. reflexivity.
Defined.

Lemma signed_in_plain token :
  localStorage signed_in_browser !! "access_token" = Some token ->
  whole_exp (decodeToken token) /\ boolean_admin (decodeToken token).
Proof.
  intros H. assert (Ht : token = admin_token).
  { change (Some admin_token = Some token) in H. congruence. }
  subst token. split; right; exists admin_claims; (split; [vm_compute; reflexivity|]); right.
  - exists 1700000600. reflexivity.
  - exists true. reflexivity.
Defined.

Lemma signed_out_plain token :
  localStorage signed_out_browser !! "access_token" = Some token ->
  whole_exp (decodeToken token) /\ boolean_admin (decodeToken token).
Proof. intros H. discriminate H. Defined.

Lemma guard_after_checkAuth_witness :
  (exists w',
     advance (checkAuth base_url NumberToString_std StringToNumber_std) signed_in
       = Finished (inr tt) w' /\
     guardRendersChildren (session w') false = true /\
     forall w0, advance (guardEffect (session w') false) w0 = Finished (inr false) w0) /\
  (exists w',
     advance (checkAuth base_url NumberToString_std StringToNumber_std) signed_out
       = Finished (inr tt) w' /\
     forall w0, exists path,
       (path = "/login" \/ path = "/unauthorized") /\
       advance (guardEffect (session w') false) w0
         = Finished (inr true) (log (EvRouterPush path) w0)).
Proof.
  split.
  - destruct (guard_after_checkAuth base_url NumberToString_std StringToNumber_std signed_in
                signed_in_browser eq_refl eq_refl signed_in_plain)
      as (w' & Hadv & _ & Hyes & _ & Hvalid).
    assert (Hr : guardRendersChildren (session w') false = true).
    { apply (Hvalid admin_token admin_claims 1700000600); reflexivity. }
    exists w'. split; [exact Hadv|]. split; [exact Hr|]. apply (Hyes Hr).
  - destruct (guard_after_checkAuth base_url NumberToString_std StringToNumber_std signed_out
                signed_out_browser eq_refl eq_refl signed_out_plain)
      as (w' & Hadv & _ & Hyes & Hno & _).
    exists w'. split; [exact Hadv|]. apply Hno.
    destruct (guardRendersChildren (session w') false); [|reflexivity].
    destruct (Hyes eq_refl) as [(token & claims & secs & Htok & _) _]. discriminate Htok.
Defined.

Lemma refreshed_token_reaches_provider_witness :
  exists k w',
    run [inr unauthorized; inr refresh_granted_admin] get_cards signed_in
      = Blocked (build_request base_url NumberToString_std "/api/cards/" no_options
                   (VStr admin_token)) k w' /\
    In (EvDispatch "tokenRefreshed") (since (trace signed_in) (trace w')) /\
    advance (handleTokenRefresh base_url NumberToString_std StringToNumber_std) w'
      = Finished (inr tt) (set_session (mkSession true (VBool true) false) w').
Proof.
  destruct (refreshed_token_reaches_provider base_url NumberToString_std StringToNumber_std
              "/api/cards/" no_options signed_in signed_in_browser "r1" unauthorized
              refresh_granted_admin
              (VObj [("status", VStr "success");
                     ("data", VObj [("access_token", VStr admin_token)])])
              (VObj [("access_token", VStr admin_token)]) (VStr admin_token) VUndefined
              admin_claims 1700000600)
    as (k & w' & Hrun & _ & Hin & Hadv & _);
    first [ reflexivity | discriminate
          | (right; exists admin_claims; split; [reflexivity|]; right; exists true; reflexivity)
          | idtac ].
  exists k, w'. auto.
Defined.

Lemma callback_endpoint_verbatim_witness :
  (exists query,
     callback_endpoint "Ab3-x_9" "k7.Q" = "/api/auth/discord/callback?" +:+ query /\
     URLSearchParams_parse query = [("code", "Ab3-x_9"); ("state", "k7.Q")]) /\
  (exists query,
     callback_endpoint ("Ab3-x_9" +:+ "&state=" +:+ "forged") "k7.Q"
     = "/api/auth/discord/callback?" +:+ query /\
     URLSearchParams_parse query
     = [("code", "Ab3-x_9"); ("state", "forged"); ("state", "k7.Q")]).
Proof.
  destruct (callback_endpoint_verbatim "Ab3-x_9" "k7.Q" eq_refl eq_refl) as [H1 H2].
  split; [exact H1 | exact (H2 "forged" eq_refl)].
Defined.

Lemma getCardPoolCards_unwraps_witness :
  (exists w1,
     run [inr tokens_missing] get_pool_cards signed_in = Finished (inr VUndefined) w1) /\
  (exists w1,
     run [inr cards_page] get_pool_cards signed_in = Finished (inr (VArr [])) w1) /\
  (exists e w1,
     run [unreachable] get_pool_cards signed_in = Finished (inl e) w1) /\
  (exists w1,
     run [inr no_content] get_pool_cards signed_in = Finished (inr VUndefined) w1 /\
     window w1 = window signed_in /\
     since (trace signed_in) (trace w1)
     = [EvFetch (build_request base_url NumberToString_std "/api/card-pools/7/cards"
                   no_options (VStr admin_token))]).
Proof.
  destruct (getCardPoolCards_unwraps base_url NumberToString_std (dec_of_Z 7))
    as (Hrun & _ & H204).
  repeat split.
  - eexists.
    apply (Hrun [inr tokens_missing] signed_in (inr (VObj [("status", VStr "success")]))).
    vm_compute. reflexivity.
  - eexists.
    apply (Hrun [inr cards_page] signed_in
             (inr (VObj [("status", VStr "success"); ("data", VArr [])]))).
    vm_compute. reflexivity.
  - eexists. eexists.
    apply (Hrun [unreachable] signed_in (inl _)).
    vm_compute. reflexivity.
  - apply (H204 signed_in no_content []). reflexivity.
Defined.
